(** * Draw-and-guess: DrawingCanvas and GameManager

    A shallow embedding of the two components that carry the state of the
    game, [src/components/DrawingCanvas.js] (two variants: the chalkboard
    one with a scaled pointer transform, and the white-background one with
    an offset-only transform) and [src/game/GameManager.js].

    Conventions.
    - JavaScript numbers that hold coordinates are IEEE binary64 values:
      [PrimFloat.float], with the primitive operations.
    - Pixel bytes are integers: [Z].
    - The score is a number that holds an integer; the [Z] is its value.
      [+=] on it is the addition of binary64, which rounds the sum to 53
      significant bits ([js_add]): it is the sum of the integers from
      [-2^53] to [2^53], the safe range, and can miss it beyond.
    - [Math.random()] is a parameter of every operation that calls it: the
      draw is a rational [r]. The contract of [Math.random] is
      [0 <= r < 1] ([unit_draw]). [Math.floor(r * n)] is taken of the
      product in the rationals ([random_index]); binary64 rounds the
      product, which keeps the index in [0, n) and can move a draw that is
      within a rounding error of a boundary [k / n] to the neighbouring
      index. For [n = 4], the table of [evaluateDrawing], the rounded
      product is the product.
    - The window has one console, and [alert]: what [src/main.js] and the
      manager write to them is one sequence, the [events] of the world.
    - A method is a function from the state before the call to an outcome
      (normal return or a thrown error) and the state after it. *)

From Stdlib Require Import ZArith QArith Qround Lia PrimFloat.
From stdpp Require Import gmap strings list pretty.


Open Scope Z_scope.

(** ** JavaScript values and completions *)

Inductive JSError := TypeError | RangeError.

Inductive outcome (A : Type) :=
  | Return (a : A)
  | Throw (e : JSError).
Arguments Return {A} a.
Arguments Throw {A} e.

(** [arr[i]] for a number [i] that holds an integer: [None] is
    [undefined], also for a negative index. *)
Definition js_index {A} (arr : list A) (i : Z) : option A :=
  if i <? 0 then None else arr !! Z.to_nat i.

(** The integer [z] as binary64 holds it: rounded to the nearest number
    with 53 significant bits, to the even one of two that are as near
    (below [2^1024]). *)
Definition round64 (z : Z) : Z :=
  if Z.abs z <=? 2 ^ 53 then z
  else
    let e := Z.log2 (Z.abs z) - 52 in
    let q := Z.abs z / 2 ^ e in
    let rest := Z.abs z mod 2 ^ e in
    let half := 2 ^ (e - 1) in
    let q := if (half <? rest) || ((rest =? half) && Z.odd q) then q + 1 else q in
    Z.sgn z * (q * 2 ^ e).

(** [a + b] for two numbers that hold integers. *)
Definition js_add (a b : Z) : Z := round64 (a + b).
Arguments js_add : simpl never.

(** [Math.floor(Math.random() * n)] for the draw [r], with the product
    taken in the rationals: the index is in [0, n) as it is with the
    rounded product of binary64, and for [n] a power of two it is the same
    index. *)
Definition random_index (r : Q) (n : nat) : Z :=
  Qfloor (r * inject_Z (Z.of_nat n)).

(** What [Math.random()] promises. *)
Definition unit_draw (r : Q) : Prop := (0 <= r)%Q /\ (r < 1)%Q.

(** The double-quote character of the alert texts. *)
Definition dquote : string := String (Ascii.ascii_of_nat 34) EmptyString.

(** ** The 2D canvas of the host platform *)

Record DOMRect := {
  rect_left : float;
  rect_top : float;
  rect_width : float;
  rect_height : float
}.

Record MouseEvent := { clientX : float; clientY : float }.

Record Point := { x : float; y : float }.

Inductive PathCmd := MoveTo (p : Point) | LineTo (p : Point).

(** The drawing context: its style attributes, the current path and the
    bitmap as [getImageData] over the whole canvas gives it (row-major,
    four bytes R, G, B, A per pixel). *)
Record Context2D := {
  lineCap : string;
  lineJoin : string;
  strokeStyle : string;
  lineWidth : float;
  fillStyle : string;
  path : list PathCmd;
  data : list Z
}.

Record CanvasElement := {
  width : float;
  height : float;
  boundingClientRect : DOMRect;
  ctx : Context2D
}.

(** How the platform turns [stroke()] and [fillRect(x, y, w, h)] into
    pixels is not part of the repository: it is a parameter. *)
Class Rasterizer := {
  stroke_pixels : Context2D -> list Z;
  fillRect_pixels : Context2D -> float -> float -> float -> float -> list Z
}.

Definition set_ctx (c : CanvasElement) (k : Context2D) : CanvasElement :=
  {| width := width c; height := height c;
     boundingClientRect := boundingClientRect c; ctx := k |}.

Definition ctx_beginPath (k : Context2D) : Context2D :=
  {| lineCap := lineCap k; lineJoin := lineJoin k; strokeStyle := strokeStyle k;
     lineWidth := lineWidth k; fillStyle := fillStyle k;
     path := []; data := data k |}.

Definition ctx_moveTo (p : Point) (k : Context2D) : Context2D :=
  {| lineCap := lineCap k; lineJoin := lineJoin k; strokeStyle := strokeStyle k;
     lineWidth := lineWidth k; fillStyle := fillStyle k;
     path := path k ++ [MoveTo p]; data := data k |}.

Definition ctx_lineTo (p : Point) (k : Context2D) : Context2D :=
  {| lineCap := lineCap k; lineJoin := lineJoin k; strokeStyle := strokeStyle k;
     lineWidth := lineWidth k; fillStyle := fillStyle k;
     path := path k ++ [LineTo p]; data := data k |}.

Definition ctx_set_strokeStyle (s : string) (k : Context2D) : Context2D :=
  {| lineCap := lineCap k; lineJoin := lineJoin k; strokeStyle := s;
     lineWidth := lineWidth k; fillStyle := fillStyle k;
     path := path k; data := data k |}.

Definition ctx_set_lineWidth (w : float) (k : Context2D) : Context2D :=
  {| lineCap := lineCap k; lineJoin := lineJoin k; strokeStyle := strokeStyle k;
     lineWidth := w; fillStyle := fillStyle k;
     path := path k; data := data k |}.

Definition ctx_set_fillStyle (s : string) (k : Context2D) : Context2D :=
  {| lineCap := lineCap k; lineJoin := lineJoin k; strokeStyle := strokeStyle k;
     lineWidth := lineWidth k; fillStyle := s;
     path := path k; data := data k |}.

Definition ctx_stroke `{Rasterizer} (k : Context2D) : Context2D :=
  {| lineCap := lineCap k; lineJoin := lineJoin k; strokeStyle := strokeStyle k;
     lineWidth := lineWidth k; fillStyle := fillStyle k;
     path := path k; data := stroke_pixels k |}.

Definition ctx_fillRect `{Rasterizer} (x0 y0 w h : float) (k : Context2D) : Context2D :=
  {| lineCap := lineCap k; lineJoin := lineJoin k; strokeStyle := strokeStyle k;
     lineWidth := lineWidth k; fillStyle := fillStyle k;
     path := path k; data := fillRect_pixels k x0 y0 w h |}.

(** The fields of a [DrawingCanvas] object (both variants have the same). *)
Record DrawingCanvas := {
  canvas : CanvasElement;
  isDrawing : bool;
  currentColor : string;
  brushSize : float
}.

Definition set_canvas_ctx (this : DrawingCanvas) (k : Context2D) : DrawingCanvas :=
  {| canvas := set_ctx (canvas this) k; isDrawing := isDrawing this;
     currentColor := currentColor this; brushSize := brushSize this |}.

Definition set_isDrawing (b : bool) (this : DrawingCanvas) : DrawingCanvas :=
  {| canvas := canvas this; isDrawing := b;
     currentColor := currentColor this; brushSize := brushSize this |}.

(** One pixel of the bitmap and the byte layout of a list of pixels. *)
Record Pixel := { red : Z; green : Z; blue : Z; alpha : Z }.

Definition pixel_bytes (p : Pixel) : list Z := [red p; green p; blue p; alpha p].

Definition bitmap (px : list Pixel) : list Z := px ≫= pixel_bytes.

(** Number of iterations of [for (let i = 0; i < n; i += 4)] when the body
    does not return. *)
Definition trip_count (n : nat) : nat := Nat.div (n + 3) 4.

(** What the interface of the canvas is for its user, the game manager. *)
Class CanvasLike (C : Type) := {
  canvas_clear : C -> C;
  canvas_isEmpty : C -> bool
}.

(** ** Construction and events of the canvas *)

(** The bitmap of a canvas right after its size is set: what the platform
    allocates for [w] by [h] pixels. *)
Class Resizer := { blank_pixels : float -> float -> list Z }.

(** The state of a context after the platform resets it. *)
Definition reset_ctx (d : list Z) : Context2D :=
  {| lineCap := "butt"; lineJoin := "miter"; strokeStyle := "#000000";
     lineWidth := 1; fillStyle := "#000000"; path := []; data := d |}.

(** [canvas.width = w] and [canvas.height = h]: the platform takes the new
    size, allocates the bitmap anew and resets the context. Where the page
    shows the canvas is left as it is. *)
Definition canvas_set_width `{Resizer} (w : float) (c : CanvasElement) : CanvasElement :=
  {| width := w; height := height c; boundingClientRect := boundingClientRect c;
     ctx := reset_ctx (blank_pixels w (height c)) |}.

Definition canvas_set_height `{Resizer} (h : float) (c : CanvasElement) : CanvasElement :=
  {| width := width c; height := h; boundingClientRect := boundingClientRect c;
     ctx := reset_ctx (blank_pixels (width c) h) |}.

Definition ctx_set_lineCap (s : string) (k : Context2D) : Context2D :=
  {| lineCap := s; lineJoin := lineJoin k; strokeStyle := strokeStyle k;
     lineWidth := lineWidth k; fillStyle := fillStyle k;
     path := path k; data := data k |}.

Definition ctx_set_lineJoin (s : string) (k : Context2D) : Context2D :=
  {| lineCap := lineCap k; lineJoin := s; strokeStyle := strokeStyle k;
     lineWidth := lineWidth k; fillStyle := fillStyle k;
     path := path k; data := data k |}.

Definition set_canvas (this : DrawingCanvas) (c : CanvasElement) : DrawingCanvas :=
  {| canvas := c; isDrawing := isDrawing this;
     currentColor := currentColor this; brushSize := brushSize this |}.

(** The events that [bindEvents] listens to; a touch event carries its
    list of touches. *)
Inductive CanvasEvent :=
  | mousedown (e : MouseEvent)
  | mousemove (e : MouseEvent)
  | mouseup
  | mouseout
  | touchstart (touches : list MouseEvent)
  | touchmove (touches : list MouseEvent)
  | touchend.

(** ** DrawingCanvas, chalkboard variant (background #2d3436) *)

Module Chalkboard.
Section WithRasterizer.
Context `{Rasterizer}.

(** [getPosition(e)]: the pointer position scaled to the pixel buffer. *)
Definition getPosition (e : MouseEvent) (this : DrawingCanvas) : Point :=
  let rect := boundingClientRect (canvas this) in
  let scaleX := (width (canvas this) / rect_width rect)%float in
  let scaleY := (height (canvas this) / rect_height rect)%float in
  {| x := ((clientX e - rect_left rect) * scaleX)%float;
     y := ((clientY e - rect_top rect) * scaleY)%float |}.

(** [startDrawing(e)]; [e] is [None] for [undefined] (as [e.touches[0]]
    of an empty touch list), on which reading [e.clientX] throws after
    the flag is set. *)
Definition startDrawing (e : option MouseEvent) (this : DrawingCanvas)
  : outcome unit * DrawingCanvas :=
  let this := set_isDrawing true this in
  match e with
  | None => (Throw TypeError, this)
  | Some e =>
      let pos := getPosition e this in
      let this := set_canvas_ctx this (ctx_beginPath (ctx (canvas this))) in
      let this := set_canvas_ctx this (ctx_moveTo pos (ctx (canvas this))) in
      (Return tt, this)
  end.

(** [draw(e)] *)
Definition draw (e : option MouseEvent) (this : DrawingCanvas)
  : outcome unit * DrawingCanvas :=
  if negb (isDrawing this) then (Return tt, this)
  else
    match e with
    | None => (Throw TypeError, this)
    | Some e =>
        let pos := getPosition e this in
        let this := set_canvas_ctx this
                      (ctx_set_strokeStyle (currentColor this) (ctx (canvas this))) in
        let this := set_canvas_ctx this
                      (ctx_set_lineWidth (brushSize this) (ctx (canvas this))) in
        let this := set_canvas_ctx this (ctx_lineTo pos (ctx (canvas this))) in
        let this := set_canvas_ctx this (ctx_stroke (ctx (canvas this))) in
        (Return tt, this)
    end.

(** [stopDrawing()] *)
Definition stopDrawing (this : DrawingCanvas) : DrawingCanvas :=
  let this := set_isDrawing false this in
  set_canvas_ctx this (ctx_beginPath (ctx (canvas this))).

Definition setColor (color : string) (this : DrawingCanvas) : DrawingCanvas :=
  {| canvas := canvas this; isDrawing := isDrawing this;
     currentColor := color; brushSize := brushSize this |}.

Definition setBrushSize (size : float) (this : DrawingCanvas) : DrawingCanvas :=
  {| canvas := canvas this; isDrawing := isDrawing this;
     currentColor := currentColor this; brushSize := size |}.

(** [clear()] *)
Definition clear (this : DrawingCanvas) : DrawingCanvas :=
  let this := set_canvas_ctx this (ctx_set_fillStyle "#2d3436" (ctx (canvas this))) in
  set_canvas_ctx this
    (ctx_fillRect 0 0 (width (canvas this)) (height (canvas this)) (ctx (canvas this))).

(** [getImageData()]: the [data] of the image over the whole canvas. *)
Definition getImageData (this : DrawingCanvas) : list Z := data (ctx (canvas this)).

Definition bgR : Z := 45.
Definition bgG : Z := 52.
Definition bgB : Z := 54.

(** [Math.abs(v - bg) > 5]; on [undefined] the difference is NaN and
    the comparison is false. *)
Definition exceeds (v : option Z) (bg : Z) : bool :=
  match v with
  | Some d => 5 <? Z.abs (d - bg)
  | None => false
  end.

(** The [for] loop of [isEmpty], at index [i] with [trips] iterations
    left. *)
Fixpoint isEmpty_loop (trips i : nat) (data : list Z) : bool :=
  match trips with
  | O => true
  | S trips' =>
      if exceeds (data !! i) bgR
         || exceeds (data !! (i + 1)%nat) bgG
         || exceeds (data !! (i + 2)%nat) bgB
      then false
      else isEmpty_loop trips' (i + 4)%nat data
  end.

(** [isEmpty()] *)
Definition isEmpty (this : DrawingCanvas) : bool :=
  let data := getImageData this in
  isEmpty_loop (trip_count (length data)) 0 data.


(** [setupCanvas()] *)
Definition setupCanvas `{Resizer} (this : DrawingCanvas) : DrawingCanvas :=
  let this := set_canvas this (canvas_set_width 800 (canvas this)) in
  let this := set_canvas this (canvas_set_height 600 (canvas this)) in
  let this := set_canvas_ctx this (ctx_set_lineCap "round" (ctx (canvas this))) in
  let this := set_canvas_ctx this (ctx_set_lineJoin "round" (ctx (canvas this))) in
  clear this.

(** [constructor(canvas)]; what [bindEvents()] registers is [handle]. *)
Definition constructor `{Resizer} (canvas : CanvasElement) : DrawingCanvas :=
  let this := {| canvas := canvas; isDrawing := false;
                 currentColor := "#ffffff"; brushSize := 3 |} in
  setupCanvas this.

(** The listeners of [bindEvents()]: what one event does. The touch
    listeners pass [e.touches[0]] on. *)
Definition handle (ev : CanvasEvent) (this : DrawingCanvas)
  : outcome unit * DrawingCanvas :=
  match ev with
  | mousedown e => startDrawing (Some e) this
  | mousemove e => draw (Some e) this
  | mouseup => (Return tt, stopDrawing this)
  | mouseout => (Return tt, stopDrawing this)
  | touchstart touches => startDrawing (touches !! 0%nat) this
  | touchmove touches => draw (touches !! 0%nat) this
  | touchend => (Return tt, stopDrawing this)
  end.

(** The state after the events one by one; an error thrown by a listener
    is reported by the platform and the next event is handled as usual. *)
Definition dispatch (evs : list CanvasEvent) (this : DrawingCanvas) : DrawingCanvas :=
  foldl (fun this ev => snd (handle ev this)) this evs.

End WithRasterizer.
End Chalkboard.

(** ** DrawingCanvas, white-background variant *)

Module Whiteboard.
Section WithRasterizer.
Context `{Rasterizer}.

(** [getPosition(e)]: the offset from the corner of the bounding box. *)
Definition getPosition (e : MouseEvent) (this : DrawingCanvas) : Point :=
  let rect := boundingClientRect (canvas this) in
  {| x := (clientX e - rect_left rect)%float;
     y := (clientY e - rect_top rect)%float |}.

Definition startDrawing (e : option MouseEvent) (this : DrawingCanvas)
  : outcome unit * DrawingCanvas :=
  let this := set_isDrawing true this in
  match e with
  | None => (Throw TypeError, this)
  | Some e =>
      let pos := getPosition e this in
      let this := set_canvas_ctx this (ctx_beginPath (ctx (canvas this))) in
      let this := set_canvas_ctx this (ctx_moveTo pos (ctx (canvas this))) in
      (Return tt, this)
  end.

Definition draw (e : option MouseEvent) (this : DrawingCanvas)
  : outcome unit * DrawingCanvas :=
  if negb (isDrawing this) then (Return tt, this)
  else
    match e with
    | None => (Throw TypeError, this)
    | Some e =>
        let pos := getPosition e this in
        let this := set_canvas_ctx this
                      (ctx_set_strokeStyle (currentColor this) (ctx (canvas this))) in
        let this := set_canvas_ctx this
                      (ctx_set_lineWidth (brushSize this) (ctx (canvas this))) in
        let this := set_canvas_ctx this (ctx_lineTo pos (ctx (canvas this))) in
        let this := set_canvas_ctx this (ctx_stroke (ctx (canvas this))) in
        (Return tt, this)
    end.

Definition stopDrawing (this : DrawingCanvas) : DrawingCanvas :=
  let this := set_isDrawing false this in
  set_canvas_ctx this (ctx_beginPath (ctx (canvas this))).

Definition setColor (color : string) (this : DrawingCanvas) : DrawingCanvas :=
  {| canvas := canvas this; isDrawing := isDrawing this;
     currentColor := color; brushSize := brushSize this |}.

Definition setBrushSize (size : float) (this : DrawingCanvas) : DrawingCanvas :=
  {| canvas := canvas this; isDrawing := isDrawing this;
     currentColor := currentColor this; brushSize := size |}.

Definition clear (this : DrawingCanvas) : DrawingCanvas :=
  let this := set_canvas_ctx this (ctx_set_fillStyle "#ffffff" (ctx (canvas this))) in
  set_canvas_ctx this
    (ctx_fillRect 0 0 (width (canvas this)) (height (canvas this)) (ctx (canvas this))).

Definition getImageData (this : DrawingCanvas) : list Z := data (ctx (canvas this)).

(** [v !== 255]; [undefined] is not 255. *)
Definition differs (v : option Z) : bool :=
  match v with
  | Some d => negb (d =? 255)
  | None => true
  end.

Fixpoint isEmpty_loop (trips i : nat) (data : list Z) : bool :=
  match trips with
  | O => true
  | S trips' =>
      if differs (data !! i)
         || differs (data !! (i + 1)%nat)
         || differs (data !! (i + 2)%nat)
      then false
      else isEmpty_loop trips' (i + 4)%nat data
  end.

Definition isEmpty (this : DrawingCanvas) : bool :=
  let data := getImageData this in
  isEmpty_loop (trip_count (length data)) 0 data.


(** [setupCanvas()] *)
Definition setupCanvas `{Resizer} (this : DrawingCanvas) : DrawingCanvas :=
  let this := set_canvas this (canvas_set_width 600 (canvas this)) in
  let this := set_canvas this (canvas_set_height 400 (canvas this)) in
  let this := set_canvas_ctx this (ctx_set_lineCap "round" (ctx (canvas this))) in
  let this := set_canvas_ctx this (ctx_set_lineJoin "round" (ctx (canvas this))) in
  clear this.

(** [constructor(canvas)]; what [bindEvents()] registers is [handle]. *)
Definition constructor `{Resizer} (canvas : CanvasElement) : DrawingCanvas :=
  let this := {| canvas := canvas; isDrawing := false;
                 currentColor := "#000000"; brushSize := 3 |} in
  setupCanvas this.

(** The listeners of [bindEvents()]: what one event does. The touch
    listeners pass [e.touches[0]] on. *)
Definition handle (ev : CanvasEvent) (this : DrawingCanvas)
  : outcome unit * DrawingCanvas :=
  match ev with
  | mousedown e => startDrawing (Some e) this
  | mousemove e => draw (Some e) this
  | mouseup => (Return tt, stopDrawing this)
  | mouseout => (Return tt, stopDrawing this)
  | touchstart touches => startDrawing (touches !! 0%nat) this
  | touchmove touches => draw (touches !! 0%nat) this
  | touchend => (Return tt, stopDrawing this)
  end.

(** The state after the events one by one; an error thrown by a listener
    is reported by the platform and the next event is handled as usual. *)
Definition dispatch (evs : list CanvasEvent) (this : DrawingCanvas) : DrawingCanvas :=
  foldl (fun this ev => snd (handle ev this)) this evs.

End WithRasterizer.
End Whiteboard.

(** The canvas objects as the game manager sees them. *)
#[export] Instance chalkboard_canvas `{Rasterizer} : CanvasLike DrawingCanvas :=
  {| canvas_clear := Chalkboard.clear; canvas_isEmpty := Chalkboard.isEmpty |}.

Definition whiteboard_canvas `{Rasterizer} : CanvasLike DrawingCanvas :=
  {| canvas_clear := Whiteboard.clear; canvas_isEmpty := Whiteboard.isEmpty |}.

(** ** GameManager *)

Module GameManager.

(** What a field that holds a word can hold. *)
Inductive value := VNull | VUndefined | VString (s : string).

#[export] Instance value_eq_dec : EqDecision value.
Proof. solve_decision. Defined.

#[export] Instance value_countable : Countable value.
Proof.
  refine (inj_countable'
    (fun v => match v with
              | VNull => inl false | VUndefined => inl true | VString s => inr s
              end)
    (fun c => match c with
              | inl false => VNull | inl true => VUndefined | inr s => VString s
              end) _).
  intros []; reflexivity.
Defined.

(** [!!v]: [null], [undefined] and the empty string are falsy. *)
Definition truthy (v : value) : bool :=
  match v with
  | VString s => negb (bool_decide (s = EmptyString))
  | _ => false
  end.

(** [`${v}`] *)
Definition template (v : value) : string :=
  match v with
  | VNull => "null"
  | VUndefined => "undefined"
  | VString s => s
  end.

Record WordList := {
  easy : list string;
  medium : list string;
  hard : list string
}.

Record Evaluation := {
  success : bool;
  points : Z;
  message : string
}.

(** The fields of a [GameManager]; [this.canvas] is the canvas object of
    the [World] below, which the page shares with the manager. [score] is
    a number that holds an integer: the constructor sets it to 0 and
    [submitAnswer] adds points of the table to it. *)
Record Fields := {
  currentWord : value;
  score : Z;
  wordList : WordList;
  usedWords : gset value
}.

(** The five elements of the page that the manager writes. *)
Record Document := {
  wordDisplay_textContent : string;
  wordDisplay_className : string;
  scoreDisplay_textContent : string;
  resultArea_classList : gset string;
  resultTitle_textContent : string;
  resultMessage_innerHTML : string
}.

(** What a call lets the outside observe, in order: the two effects on the
    window ([alert], and [console.log] with two arguments or with one) and,
    as the spies of the test suite record them, the calls of the manager's
    own methods. *)
Inductive Event :=
  | Alert (msg : string)
  | ConsoleLog (label : string) (v : value)
  | ConsoleLine (msg : string)
  | Call_evaluateDrawing (result : option Evaluation)
  | Call_updateScore
  | Call_showResult (evaluation : Evaluation)
  | Call_updateWordDisplay
  | Call_hideResult.

Record World (C : Type) := {
  this : Fields;
  canvasObj : C;
  document : Document;
  events : list Event
}.
Arguments this {C} w.
Arguments canvasObj {C} w.
Arguments document {C} w.
Arguments events {C} w.

(** A method body: state in, outcome and state out. *)
Definition M (C A : Type) : Type := World C -> outcome A * World C.

#[export] Instance M_ret C : MRet (M C) :=
  fun A a w => (Return a, w).

#[export] Instance M_bind C : MBind (M C) :=
  fun A B f m w =>
    match m w with
    | (Return a, w') => f a w'
    | (Throw e, w') => (Throw e, w')
    end.

Definition throw {C A} (e : JSError) : M C A := fun w => (Throw e, w).

Definition read {C A} (f : World C -> A) : M C A := fun w => (Return (f w), w).

Definition update {C} (f : World C -> World C) : M C unit := fun w => (Return tt, f w).

Definition emit {C} (e : Event) : M C unit :=
  update (fun w => {| this := this w; canvasObj := canvasObj w;
                      document := document w; events := events w ++ [e] |}).

Definition set_this {C} (f : Fields -> Fields) : M C unit :=
  update (fun w => {| this := f (this w); canvasObj := canvasObj w;
                      document := document w; events := events w |}).

Definition set_document {C} (f : Document -> Document) : M C unit :=
  update (fun w => {| this := this w; canvasObj := canvasObj w;
                      document := f (document w); events := events w |}).

Definition set_canvasObj {C} (f : C -> C) : M C unit :=
  update (fun w => {| this := this w; canvasObj := f (canvasObj w);
                      document := document w; events := events w |}).

Definition with_currentWord (v : value) (g : Fields) : Fields :=
  {| currentWord := v; score := score g; wordList := wordList g;
     usedWords := usedWords g |}.

Definition with_score (n : Z) (g : Fields) : Fields :=
  {| currentWord := currentWord g; score := n; wordList := wordList g;
     usedWords := usedWords g |}.

Definition with_usedWords (s : gset value) (g : Fields) : Fields :=
  {| currentWord := currentWord g; score := score g; wordList := wordList g;
     usedWords := s |}.

(** [initWordList()] *)
Definition initWordList : WordList :=
  {| easy := ["太阳"; "月亮"; "星星"; "房子"; "树"; "花"; "猫"; "狗"; "鱼"; "鸟"];
     medium := ["汽车"; "飞机"; "自行车"; "电脑"; "手机"; "书"; "眼镜"; "雨伞"; "笑脸"; "爱心"];
     hard := ["彩虹"; "蝴蝶"; "蛋糕"; "火箭"; "城堡"; "钢琴"; "足球"; "生日"; "礼物"; "风车"] |}.

(** [constructor(canvas)], on a page [doc]. *)
Definition constructor {C} (canvas : C) (doc : Document) : World C :=
  {| this := {| currentWord := VNull; score := 0;
                wordList := initWordList; usedWords := ∅ |};
     canvasObj := canvas; document := doc; events := [] |}.

(** [[...easy, ...medium, ...hard]] *)
Definition allWords (wl : WordList) : list string :=
  easy wl ++ medium wl ++ hard wl.

(** [allWords.filter(word => !this.usedWords.has(word))] *)
Definition availableWords (g : Fields) : list string :=
  filter (fun word => VString word ∉ usedWords g) (allWords (wordList g)).

(** [availableWords[i]] as a value. *)
Definition word_at (l : list string) (i : Z) : value :=
  match js_index l i with
  | Some s => VString s
  | None => VUndefined
  end.

(** [getRandomWord()]. The method calls itself; [stack] is the number of
    frames the engine has left, and a call with none left throws the
    engine's [RangeError]. *)
Fixpoint getRandomWord {C} (stack : nat) (r : Q) : M C value :=
  match stack with
  | O => throw RangeError
  | S stack' =>
      available ← read (fun w => availableWords (this w));
      if (length available =? 0)%nat then
        set_this (with_usedWords ∅);;
        getRandomWord stack' r
      else
        let word := word_at available (random_index r (length available)) in
        set_this (fun g => with_usedWords (usedWords g ∪ {[word]}) g);;
        mret word
  end.

Section Methods.
Context {C : Type} `{CanvasLike C}.

Definition newline : string := String (Ascii.ascii_of_nat 10) EmptyString.

Definition msg_noActiveRound : string :=
  "请先点击" +:+ dquote +:+ "下一题" +:+ dquote +:+ "开始游戏！".

Definition msg_emptyCanvas : string := "画板是空的，请先画点什么吧！".

(** [updateWordDisplay()] *)
Definition updateWordDisplay : M C unit :=
  emit Call_updateWordDisplay;;
  cw ← read (fun w => currentWord (this w));
  set_document (fun d =>
    {| wordDisplay_textContent := if truthy cw then template cw else "点击开始游戏";
       wordDisplay_className := if truthy cw then "word active" else "word";
       scoreDisplay_textContent := scoreDisplay_textContent d;
       resultArea_classList := resultArea_classList d;
       resultTitle_textContent := resultTitle_textContent d;
       resultMessage_innerHTML := resultMessage_innerHTML d |}).

(** [updateScore()]. The text of a number that holds an integer is its
    decimal numeral (below [10^21]). *)
Definition updateScore : M C unit :=
  emit Call_updateScore;;
  s ← read (fun w => score (this w));
  set_document (fun d =>
    {| wordDisplay_textContent := wordDisplay_textContent d;
       wordDisplay_className := wordDisplay_className d;
       scoreDisplay_textContent := pretty s;
       resultArea_classList := resultArea_classList d;
       resultTitle_textContent := resultTitle_textContent d;
       resultMessage_innerHTML := resultMessage_innerHTML d |}).

(** The markup that [showResult] writes. *)
Definition result_markup (evaluation : Evaluation) (cw : value) : string :=
  newline +:+ "      <p>" +:+ message evaluation +:+ "</p>" +:+
  newline +:+ "      <p>词汇是: <strong>" +:+ template cw +:+ "</strong></p>" +:+
  newline +:+ "      <p>获得分数: <strong>" +:+ pretty (points evaluation) +:+ "</strong> 分</p>" +:+
  newline +:+ "    ".

(** [showResult(evaluation)] *)
Definition showResult (evaluation : Evaluation) : M C unit :=
  emit (Call_showResult evaluation);;
  cw ← read (fun w => currentWord (this w));
  set_document (fun d =>
    {| wordDisplay_textContent := wordDisplay_textContent d;
       wordDisplay_className := wordDisplay_className d;
       scoreDisplay_textContent := scoreDisplay_textContent d;
       resultArea_classList := resultArea_classList d ∖ {["hidden"]};
       resultTitle_textContent :=
         if success evaluation then "🎉 恭喜！" else "😅 再试试吧！";
       resultMessage_innerHTML := result_markup evaluation cw |}).

(** [hideResult()] *)
Definition hideResult : M C unit :=
  emit Call_hideResult;;
  set_document (fun d =>
    {| wordDisplay_textContent := wordDisplay_textContent d;
       wordDisplay_className := wordDisplay_className d;
       scoreDisplay_textContent := scoreDisplay_textContent d;
       resultArea_classList := resultArea_classList d ∪ {["hidden"]};
       resultTitle_textContent := resultTitle_textContent d;
       resultMessage_innerHTML := resultMessage_innerHTML d |}).

(** [nextWord()] *)
Definition nextWord (stack : nat) (r : Q) : M C unit :=
  word ← getRandomWord stack r;
  set_this (with_currentWord word);;
  set_canvasObj canvas_clear;;
  updateWordDisplay;;
  hideResult;;
  cw ← read (fun w => currentWord (this w));
  emit (ConsoleLog "📝 新词汇:" cw).

(** The table of [evaluateDrawing]. *)
Definition scores : list Evaluation :=
  [ {| success := true; points := 10; message := "画得太棒了！一眼就认出来了！" |};
    {| success := true; points := 7; message := "画得不错，能看出是什么！" |};
    {| success := true; points := 5; message := "还可以，勉强能认出来！" |};
    {| success := false; points := 2; message := "嗯...这是什么来着？" |} ].

(** [evaluateDrawing()]: [None] is [undefined]. The method has the whole
    object at hand and reads none of it. *)
Definition evaluateDrawing (r : Q) : M C (option Evaluation) :=
  let result := js_index scores (random_index r (length scores)) in
  emit (Call_evaluateDrawing result);;
  mret result.

(** [submitAnswer()] *)
Definition submitAnswer (r : Q) : M C unit :=
  cw ← read (fun w => currentWord (this w));
  if negb (truthy cw) then
    emit (Alert msg_noActiveRound)
  else
    empty ← read (fun w => canvas_isEmpty (canvasObj w));
    if (empty : bool) then
      emit (Alert msg_emptyCanvas)
    else
      evaluation ← evaluateDrawing r;
      match evaluation with
      | None => throw TypeError
      | Some evaluation =>
          set_this (fun g => with_score (js_add (score g) (points evaluation)) g);;
          updateScore;;
          showResult evaluation
      end.

(** [skipWord()] *)
Definition skipWord : M C unit :=
  cw ← read (fun w => currentWord (this w));
  if negb (truthy cw) then
    emit (Alert msg_noActiveRound)
  else
    showResult {| success := false; points := 0;
                  message := "正确答案是: " +:+ template cw |}.

(** The calls that reach a manager from the page, and what the player
    does to the shared canvas in between. *)
Inductive Op :=
  | OpNextWord (stack : nat) (r : Q)
  | OpSubmitAnswer (r : Q)
  | OpSkipWord
  | OpCanvas (f : C -> C).

Definition run_op (op : Op) : M C unit :=
  match op with
  | OpNextWord stack r => nextWord stack r
  | OpSubmitAnswer r => submitAnswer r
  | OpSkipWord => skipWord
  | OpCanvas f => set_canvasObj f
  end.

(** The calls one after the other; a thrown error ends the run. *)
Fixpoint run_ops (ops : list Op) : M C unit :=
  match ops with
  | [] => mret tt
  | op :: ops' => run_op op;; run_ops ops'
  end.

(** [getRandomWord()] once per draw, collecting what it returns. *)
Fixpoint getRandomWords (stack : nat) (rs : list Q) : M C (list value) :=
  match rs with
  | [] => mret []
  | r :: rs' =>
      word ← getRandomWord stack r;
      words ← getRandomWords stack rs';
      mret (word :: words)
  end.

(** The points that the scoring function returned, over a run. *)
Definition awarded (e : Event) : Z :=
  match e with
  | Call_evaluateDrawing (Some evaluation) => points evaluation
  | _ => 0
  end.

Definition sum_awarded (es : list Event) : Z := foldr (fun e acc => awarded e + acc) 0 es.

End Methods.

(** A stand-in canvas as the test suite uses one: [isEmpty()] gives a
    fixed answer and [clear()] does nothing. *)
#[export] Instance mock_canvas : CanvasLike bool :=
  {| canvas_clear := fun b => b; canvas_isEmpty := fun b => b |}.

Definition blank_page : Document :=
  {| wordDisplay_textContent := EmptyString;
     wordDisplay_className := EmptyString;
     scoreDisplay_textContent := "0";
     resultArea_classList := {["hidden"]};
     resultTitle_textContent := EmptyString;
     resultMessage_innerHTML := EmptyString |}.

End GameManager.

(** ** Sample states *)

(** A platform that leaves the bitmap as it is; the samples below fix the
    bitmap by hand. *)
Definition inert_rasterizer : Rasterizer :=
  {| stroke_pixels := data; fillRect_pixels := fun k _ _ _ _ => data k |}.

(** A drawing canvas of [w] by [h] pixels shown in the box [rect], with
    the bitmap [d]. *)
Definition surface (w h : float) (rect : DOMRect) (drawing : bool) (d : list Z)
  : DrawingCanvas :=
  {| canvas := {| width := w; height := h; boundingClientRect := rect;
                  ctx := {| lineCap := "round"; lineJoin := "round";
                            strokeStyle := "#000000"; lineWidth := 1;
                            fillStyle := "#ffffff"; path := []; data := d |} |};
     isDrawing := drawing; currentColor := "#000000"; brushSize := 3 |}.

(** The chalkboard canvas on that platform, as the manager sees it. *)
Definition sample_chalkboard : CanvasLike DrawingCanvas :=
  @chalkboard_canvas inert_rasterizer.

(** The white-background canvas, 600 by 400, shown at half its size. *)
Definition half_size_box : DOMRect :=
  {| rect_left := 0; rect_top := 0; rect_width := 300; rect_height := 200 |}.

(** ** Notions of the specification *)

(** The position of the specification: offset from the corner of the
    bounding box, scaled by pixel size over on-screen size. *)
Definition scaled_position (e : MouseEvent) (this : DrawingCanvas) : Point :=
  let c := canvas this in
  let rect := boundingClientRect c in
  {| x := ((clientX e - rect_left rect) * (width c / rect_width rect))%float;
     y := ((clientY e - rect_top rect) * (height c / rect_height rect))%float |}.

(** The offset alone. *)
Definition offset_position (e : MouseEvent) (this : DrawingCanvas) : Point :=
  let rect := boundingClientRect (canvas this) in
  {| x := (clientX e - rect_left rect)%float;
     y := (clientY e - rect_top rect)%float |}.

Definition path_after (r : outcome unit * DrawingCanvas) : list PathCmd :=
  path (ctx (canvas (snd r))).


(** A channel [v] is within the tolerance [tol] of the channel [bg] of the
    background. *)
Definition within (tol v bg : Z) : Prop := Z.abs (v - bg) <= tol.

(** Every channel R, G, B of the pixel is within [tol] of ([r], [g], [b]). *)
Definition pixel_within (tol r g b : Z) (p : Pixel) : Prop :=
  within tol (red p) r /\ within tol (green p) g /\ within tol (blue p) b.

(** Some channel R, G, B of the pixel is off ([r], [g], [b]) by exactly [d]. *)
Definition pixel_off_by (d r g b : Z) (p : Pixel) : Prop :=
  Z.abs (red p - r) = d \/ Z.abs (green p - g) = d \/ Z.abs (blue p - b) = d.

(** The two ways [getRandomWord] changes the state. *)
Definition reset_used {C} (w : GameManager.World C) : GameManager.World C :=
  {| GameManager.this := GameManager.with_usedWords ∅ (GameManager.this w);
     GameManager.canvasObj := GameManager.canvasObj w;
     GameManager.document := GameManager.document w;
     GameManager.events := GameManager.events w |}.

Definition mark_used {C} (v : GameManager.value) (w : GameManager.World C)
  : GameManager.World C :=
  {| GameManager.this :=
       GameManager.with_usedWords
         (GameManager.usedWords (GameManager.this w) ∪ {[v]}) (GameManager.this w);
     GameManager.canvasObj := GameManager.canvasObj w;
     GameManager.document := GameManager.document w;
     GameManager.events := GameManager.events w |}.

(** The pool of a state: all tiers, flattened. *)
Definition pool {C} (w : GameManager.World C) : list string :=
  GameManager.allWords (GameManager.wordList (GameManager.this w)).

(** The candidates of a state. *)
Definition candidates {C} (w : GameManager.World C) : list string :=
  GameManager.availableWords (GameManager.this w).

(** The state after more events have been observed. *)
Definition with_events {C} (es : list GameManager.Event) (w : GameManager.World C)
  : GameManager.World C :=
  {| GameManager.this := GameManager.this w;
     GameManager.canvasObj := GameManager.canvasObj w;
     GameManager.document := GameManager.document w;
     GameManager.events := GameManager.events w ++ es |}.

(** The same state around another canvas object. *)
Definition with_canvasObj {C} (c : C) (w : GameManager.World C) : GameManager.World C :=
  {| GameManager.this := GameManager.this w;
     GameManager.canvasObj := c;
     GameManager.document := GameManager.document w;
     GameManager.events := GameManager.events w |}.

(** The four outcome tiers of the specification. *)
Definition tiers : list (bool * Z) := [(true, 10); (true, 7); (true, 5); (false, 2)].

(** The message [msg] shows the word [word]. *)
Definition reveals (msg word : string) : Prop :=
  exists before after, msg = before +:+ word +:+ after.

(** The points that the scoring function returns on the draw [r]. *)
Definition points_for (r : Q) : Z :=
  match js_index GameManager.scores (random_index r (length GameManager.scores)) with
  | Some evaluation => GameManager.points evaluation
  | None => 0
  end.

Definition sum_list (l : list Z) : Z := foldr Z.add 0 l.

(** The score of [w] is a safe integer, from [-2^53] to [2^53], and so is
    what [n] submissions can make of it: one submission adds 10 at most.
    In this range [+=] is the sum of the integers. *)
Definition safe_integers {C} (n : nat) (w : GameManager.World C) : Prop :=
  - 2 ^ 53 <= GameManager.score (GameManager.this w) /\
  GameManager.score (GameManager.this w) + 10 * Z.of_nat n <= 2 ^ 53.

(** What the page shows after [showResult(evaluation)] for the word [cw]. *)
Definition result_shown (evaluation : GameManager.Evaluation) (cw : GameManager.value)
    (d : GameManager.Document) : Prop :=
  GameManager.resultTitle_textContent d
    = (if GameManager.success evaluation then "🎉 恭喜！" else "😅 再试试吧！") /\
  GameManager.resultMessage_innerHTML d = GameManager.result_markup evaluation cw /\
  "hidden" ∉ GameManager.resultArea_classList d.

(** A call whose draw is one that [Math.random] can give. *)
Definition drawn_by_random {C} (op : @GameManager.Op C) : Prop :=
  match op with
  | GameManager.OpNextWord _ r => unit_draw r
  | GameManager.OpSubmitAnswer r => unit_draw r
  | _ => True
  end.

(** Between rounds: the pool is the one of the code, and [currentWord] is
    [null] or a word of that pool. *)
Definition round_state {C} (w : GameManager.World C) : Prop :=
  GameManager.wordList (GameManager.this w) = GameManager.initWordList /\
  (GameManager.currentWord (GameManager.this w) = GameManager.VNull \/
   exists s, GameManager.currentWord (GameManager.this w) = GameManager.VString s /\
             s ∈ GameManager.allWords GameManager.initWordList).

(** A manager in the middle of a game: the word, the score, and a canvas
    stand-in that answers [isEmpty()] with [empty]. *)
Definition playing (word : GameManager.value) (points : Z) (empty : bool)
  : GameManager.World bool :=
  {| GameManager.this :=
       {| GameManager.currentWord := word; GameManager.score := points;
          GameManager.wordList := GameManager.initWordList;
          GameManager.usedWords := ∅ |};
     GameManager.canvasObj := empty;
     GameManager.document := GameManager.blank_page;
     GameManager.events := [] |}.

(** The chalkboard background as four bytes. *)
Definition chalk : list Z := [45; 52; 54; 255].

(** ** Notions for the canvas as a whole *)

(** The value of a hexadecimal digit. *)
Definition hex_digit (c : Ascii.ascii) : option Z :=
  let n := Z.of_nat (Ascii.nat_of_ascii c) in
  if (48 <=? n) && (n <=? 57) then Some (n - 48)
  else if (97 <=? n) && (n <=? 102) then Some (n - 87)
  else if (65 <=? n) && (n <=? 70) then Some (n - 55)
  else None.

Definition hex_byte (hi lo : Ascii.ascii) : option Z :=
  match hex_digit hi, hex_digit lo with
  | Some h, Some l => Some (16 * h + l)
  | _, _ => None
  end.

(** The colour that a style of the form #rrggbb names. *)
Definition hex_rgb (style : string) : option (Z * Z * Z) :=
  match style with
  | String sharp (String r1 (String r2 (String g1 (String g2
      (String b1 (String b2 EmptyString)))))) =>
      if (Ascii.nat_of_ascii sharp =? 35)%nat then
        match hex_byte r1 r2, hex_byte g1 g2, hex_byte b1 b2 with
        | Some r, Some g, Some b => Some (r, g, b)
        | _, _, _ => None
        end
      else None
  | _ => None
  end.

(** A bitmap of [n] opaque pixels of one colour. *)
Definition solid (rgb : Z * Z * Z) (n : nat) : list Z :=
  bitmap (repeat {| red := rgb.1.1; green := rgb.1.2; blue := rgb.2; alpha := 255 |} n).

(** What [fillRect] over the whole of the canvas [c] does on a platform
    that works: every pixel gets the colour that [fillStyle] names. *)
Definition fills_whole_canvas `{Rasterizer} (c : CanvasElement) : Prop :=
  forall k rgb,
    hex_rgb (fillStyle k) = Some rgb ->
    exists n, fillRect_pixels k 0 0 (width c) (height c) = solid rgb n.

(** A small platform for the samples: [fillRect] paints every pixel of
    the bitmap, [stroke] paints the first one, and a canvas that gets a
    size has four transparent pixels. *)
Definition sample_rasterizer : Rasterizer :=
  {| stroke_pixels := fun k =>
       match hex_rgb (strokeStyle k) with
       | Some rgb => solid rgb 1 ++ drop 4 (data k)
       | None => data k
       end;
     fillRect_pixels := fun k _ _ _ _ =>
       match hex_rgb (fillStyle k) with
       | Some rgb => solid rgb (Nat.div (length (data k)) 4)
       | None => data k
       end |}.

Definition sample_resizer : Resizer :=
  {| blank_pixels := fun _ _ => repeat 0 16 |}.

(** A press: the events that start a stroke. *)
Definition is_press (ev : CanvasEvent) : bool :=
  match ev with
  | mousedown _ | touchstart _ => true
  | _ => false
  end.

(** A release: the events that end a stroke. *)
Definition is_release (ev : CanvasEvent) : bool :=
  match ev with
  | mouseup | mouseout | touchend => true
  | _ => false
  end.

(** The part of a canvas element that a stroke leaves alone. *)
Definition same_geometry (c c' : CanvasElement) : Prop :=
  width c' = width c /\ height c' = height c /\
  boundingClientRect c' = boundingClientRect c.

(** The path of a stroke pressed at [e0] and moved through [es], with the
    pointer transform [pos]. *)
Definition gesture_path (pos : MouseEvent -> Point) (e0 : MouseEvent)
    (es : list MouseEvent) : list PathCmd :=
  MoveTo (pos e0) :: ((fun e => LineTo (pos e)) <$> es).

(** No listener throws over the run of [evs] from [this]. *)
Fixpoint handled_normally
    (handle : CanvasEvent -> DrawingCanvas -> outcome unit * DrawingCanvas)
    (evs : list CanvasEvent) (this : DrawingCanvas) : Prop :=
  match evs with
  | [] => True
  | ev :: evs' =>
      fst (handle ev this) = Return tt /\
      handled_normally handle evs' (snd (handle ev this))
  end.

(** ** Notions for runs of the manager *)

(** A call as the page makes it: the draw is one that [Math.random] can
    give, and the engine has room for two frames of [getRandomWord]. *)
Definition well_run {C} (op : @GameManager.Op C) : Prop :=
  match op with
  | GameManager.OpNextWord stack r => (2 <= stack)%nat /\ unit_draw r
  | GameManager.OpSubmitAnswer r => unit_draw r
  | _ => True
  end.

#[export] Existing Instance GameManager.value_eq_dec.
#[export] Existing Instance GameManager.value_countable.

(** The words of the pool of the code, as values. *)
Definition pool_values : gset GameManager.value :=
  list_to_set (GameManager.VString <$> GameManager.allWords GameManager.initWordList).

(** What holds of the word bookkeeping between calls. *)
Definition bookkeeping {C} (w : GameManager.World C) : Prop :=
  GameManager.wordList (GameManager.this w) = GameManager.initWordList /\
  GameManager.usedWords (GameManager.this w) ⊆ pool_values /\
  (GameManager.currentWord (GameManager.this w) = GameManager.VNull \/
   GameManager.currentWord (GameManager.this w) ∈ GameManager.usedWords (GameManager.this w)).

(** The number of submissions in a run. *)
Fixpoint submissions {C} (ops : list (@GameManager.Op C)) : nat :=
  match ops with
  | [] => 0
  | GameManager.OpSubmitAnswer _ :: ops' => S (submissions ops')
  | _ :: ops' => submissions ops'
  end.


(** ** The page: DrawAndGuessGame ([src/main.js]) *)

Module DrawAndGuessGame.

(** [parseInt] of the platform. *)
Class NumberParser := { parseInt : string -> float }.

(** A colour swatch: its [data-color] and its classes. *)
Record ColorButton := {
  dataset_color : string;
  classList : gset string
}.

(** What of the page the game itself writes. *)
Record Page := {
  colorButtons : list ColorButton;
  brushSizeValue_textContent : string;
  startGameSection_classList : gset string;
  canvasWrapper_display : string;
  toolbar_display : string
}.

(** The game object. [this.canvas] and the canvas of [this.gameManager]
    are one object: the canvas object of [world]. *)
Record Game := {
  world : GameManager.World DrawingCanvas;
  page : Page
}.

(** What the listeners of [bindEvents()] get: the clicks and inputs of the
    page, with the draw of [Math.random] and the frames left where the
    listener needs them, and the events on the canvas. A click on a swatch
    names the swatch by its place among the [.color-btn] elements. *)
Inductive UIEvent :=
  | click_startBtn (stack : nat) (r : Q)
  | click_colorBtn (i : nat)
  | input_brushSize (value : string)
  | click_clearBtn
  | click_submitBtn (r : Q)
  | click_skipBtn
  | click_nextBtn (stack : nat) (r : Q)
  | on_canvas (ev : CanvasEvent).

Section WithPlatform.
Context `{Rasterizer} `{Resizer} `{NumberParser}.

Definition set_world (g : Game) (w : GameManager.World DrawingCanvas) : Game :=
  {| world := w; page := page g |}.

Definition set_page (g : Game) (p : Page) : Game :=
  {| world := world g; page := p |}.

Definition set_canvas_object (g : Game) (c : DrawingCanvas) : Game :=
  set_world g (with_canvasObj c (world g)).

(** [console.log(msg)]: one more line on the console that the manager
    writes to as well. *)
Definition log (msg : string) (g : Game) : Game :=
  set_world g (with_events [GameManager.ConsoleLine msg] (world g)).

(** [setup()], with the canvas element, the elements that the manager
    writes and the rest of the page as the document has them. *)
Definition setup (canvasElement : CanvasElement) (doc : GameManager.Document)
    (p : Page) : Game :=
  let canvas := Chalkboard.constructor canvasElement in
  let gameManager := GameManager.constructor canvas doc in
  log "🎮 游戏初始化完成！" {| world := gameManager; page := p |}.

(** Run a method of the manager on the game. *)
Definition on_manager (m : GameManager.M DrawingCanvas unit) (g : Game)
  : outcome unit * Game :=
  let '(o, w) := m (world g) in (o, set_world g w).

(** [startGame()] *)
Definition startGame (stack : nat) (r : Q) (g : Game) : outcome unit * Game :=
  let p := page g in
  let p := {| colorButtons := colorButtons p;
              brushSizeValue_textContent := brushSizeValue_textContent p;
              startGameSection_classList := startGameSection_classList p ∪ {["hidden"]};
              canvasWrapper_display := "block";
              toolbar_display := "block" |} in
  let g := set_page g p in
  match on_manager (GameManager.nextWord stack r) g with
  | (Return _, g) => (Return tt, log "🎮 游戏开始！" g)
  | (Throw e, g) => (Throw e, g)
  end.

(** The listener of a swatch, for the swatch at place [i]. *)
Definition choose_color (i : nat) (g : Game) : Game :=
  match colorButtons (page g) !! i with
  | None => g
  | Some target =>
      let cleared :=
        (fun b => {| dataset_color := dataset_color b;
                     classList := classList b ∖ {["active"]} |}) <$> colorButtons (page g) in
      let marked :=
        alter (fun b => {| dataset_color := dataset_color b;
                           classList := classList b ∪ {["active"]} |}) i cleared in
      let p := page g in
      let g := set_page g
                 {| colorButtons := marked;
                    brushSizeValue_textContent := brushSizeValue_textContent p;
                    startGameSection_classList := startGameSection_classList p;
                    canvasWrapper_display := canvasWrapper_display p;
                    toolbar_display := toolbar_display p |} in
      set_canvas_object g
        (Chalkboard.setColor (dataset_color target) (GameManager.canvasObj (world g)))
  end.

(** The listener of the slider. *)
Definition choose_brushSize (size : string) (g : Game) : Game :=
  let p := page g in
  let g := set_page g
             {| colorButtons := colorButtons p;
                brushSizeValue_textContent := size;
                startGameSection_classList := startGameSection_classList p;
                canvasWrapper_display := canvasWrapper_display p;
                toolbar_display := toolbar_display p |} in
  set_canvas_object g
    (Chalkboard.setBrushSize (parseInt size) (GameManager.canvasObj (world g))).

(** The listeners of [bindEvents()] and of the canvas: what one event
    does. *)
Definition handle (ev : UIEvent) (g : Game) : outcome unit * Game :=
  match ev with
  | click_startBtn stack r => startGame stack r g
  | click_colorBtn i => (Return tt, choose_color i g)
  | input_brushSize value => (Return tt, choose_brushSize value g)
  | click_clearBtn =>
      (Return tt, set_canvas_object g (Chalkboard.clear (GameManager.canvasObj (world g))))
  | click_submitBtn r => on_manager (GameManager.submitAnswer r) g
  | click_skipBtn => on_manager GameManager.skipWord g
  | click_nextBtn stack r => on_manager (GameManager.nextWord stack r) g
  | on_canvas ev =>
      let '(o, c) := Chalkboard.handle ev (GameManager.canvasObj (world g)) in
      (o, set_canvas_object g c)
  end.

(** The state after the events one by one; an error thrown by a listener
    does not stop the page. *)
Definition play (evs : list UIEvent) (g : Game) : Game :=
  foldl (fun g ev => snd (handle ev g)) g evs.

(** No listener throws over the run of [evs] from [g]. *)
Fixpoint played_normally (evs : list UIEvent) (g : Game) : Prop :=
  match evs with
  | [] => True
  | ev :: evs' => fst (handle ev g) = Return tt /\ played_normally evs' (snd (handle ev g))
  end.

End WithPlatform.

(** An event as the page can send it: a draw in [0, 1), room for two
    frames, and touches on a touch press or move. *)
Definition real_event (ev : UIEvent) : Prop :=
  match ev with
  | click_startBtn stack r | click_nextBtn stack r => (2 <= stack)%nat /\ unit_draw r
  | click_submitBtn r => unit_draw r
  | on_canvas (touchstart touches) | on_canvas (touchmove touches) => touches <> []
  | _ => True
  end.

Definition is_color_click (ev : UIEvent) : bool :=
  match ev with
  | click_colorBtn _ => true
  | _ => false
  end.

(** A page for the samples: three swatches, the first one active. *)
Definition sample_page : Page :=
  {| colorButtons :=
       [ {| dataset_color := "#ffffff"; classList := {["color-btn"; "active"]} |};
         {| dataset_color := "#ff0000"; classList := {["color-btn"]} |};
         {| dataset_color := "#00ff00"; classList := {["color-btn"]} |} ];
     brushSizeValue_textContent := "3";
     startGameSection_classList := ∅;
     canvasWrapper_display := "none";
     toolbar_display := "none" |}.

Definition sample_parser : NumberParser := {| parseInt := fun _ => 5%float |}.

End DrawAndGuessGame.
(** * Properties of DrawingCanvas *)

Section CanvasFacts.
Context `{Rasterizer}.

Lemma draw_idle_chalkboard e this :
  isDrawing this = false -> Chalkboard.draw e this = (Return tt, this).
Proof. intros Hidle. unfold Chalkboard.draw. now rewrite Hidle. Qed.

Lemma draw_idle_whiteboard e this :
  isDrawing this = false -> Whiteboard.draw e this = (Return tt, this).
Proof. intros Hidle. unfold Whiteboard.draw. now rewrite Hidle. Qed.

End CanvasFacts.

(** C8. In both variants, [draw] on a canvas whose [isDrawing] is false
    returns normally and leaves the whole object as it was: the bitmap,
    the path and the style of the context, [isDrawing], [currentColor] and
    [brushSize]; this holds for every event, also [undefined], and every
    platform rasterizer. *)
Theorem draw_while_idle_is_noop (R : Rasterizer) (e : option MouseEvent)
    (this : DrawingCanvas) :
  isDrawing this = false ->
  Chalkboard.draw e this = (Return tt, this) /\
  Whiteboard.draw e this = (Return tt, this).
Proof.
  intros Hidle. split.
  - now apply draw_idle_chalkboard.
  - now apply draw_idle_whiteboard.
Qed.

Lemma draw_while_idle_is_noop_witness :
  let this := surface 800 600 half_size_box false [45; 52; 54; 255] in
  isDrawing this = false /\
  Chalkboard.draw (H := inert_rasterizer) None this = (Return tt, this) /\
  Whiteboard.draw (H := inert_rasterizer) None this = (Return tt, this).
Proof.
  split; [reflexivity |].
  apply (draw_while_idle_is_noop inert_rasterizer None); reflexivity.
Defined.

(** ** The pointer transform *)

(** C7, for the code as it is. The chalkboard variant computes the scaled
    position, for every event and every bounding box, and its stroke
    operations use it: [startDrawing] opens the path there and [draw],
    while drawing, extends the path to it. The white-background variant
    computes, and draws at, the offset alone. *)
Theorem getPosition_by_variant (R : Rasterizer) (e : MouseEvent) (this : DrawingCanvas) :
  (Chalkboard.getPosition e this = scaled_position e this /\
   path_after (Chalkboard.startDrawing (Some e) this) = [MoveTo (scaled_position e this)] /\
   path_after (Chalkboard.draw (Some e) (set_isDrawing true this))
     = path (ctx (canvas this)) ++ [LineTo (scaled_position e this)]) /\
  (Whiteboard.getPosition e this = offset_position e this /\
   path_after (Whiteboard.startDrawing (Some e) this) = [MoveTo (offset_position e this)] /\
   path_after (Whiteboard.draw (Some e) (set_isDrawing true this))
     = path (ctx (canvas this)) ++ [LineTo (offset_position e this)]).
Proof.
  destruct this as [[w h rect k] drawing color size].
  repeat split.
Qed.

(** C7 as stated fails on the white-background variant: on a 600 by 400
    canvas shown at 300 by 200, a pointer at (100, 100) is pixel (200, 200)
    by the formula, and [getPosition] answers (100, 100). *)
Lemma getPosition_offset_only_ignores_scale :
  let this := surface 600 400 half_size_box false [] in
  let e := {| clientX := 100; clientY := 100 |} in
  (0 <? rect_width (boundingClientRect (canvas this)))%float = true /\
  (0 <? rect_height (boundingClientRect (canvas this)))%float = true /\
  scaled_position e this = {| x := 200; y := 200 |} /\
  Whiteboard.getPosition e this = {| x := 100; y := 100 |} /\
  Whiteboard.getPosition e this <> scaled_position e this.
Proof.
  repeat split.
  intros Heq.
  apply (f_equal (fun p => (x p =? 100)%float)) in Heq.
  vm_compute in Heq. discriminate Heq.
Qed.

(** ** Emptiness *)

Lemma trip_count_bitmap (px : list Pixel) :
  trip_count (length (bitmap px)) = length px.
Proof.
  unfold trip_count, bitmap.
  assert (Hlen : length (px ≫= pixel_bytes) = (4 * length px)%nat).
  { induction px as [| p px IH]; [reflexivity |].
    rewrite bind_cons, length_app, IH. simpl. lia. }
  rewrite Hlen.
  replace (4 * length px + 3)%nat with (3 + length px * 4)%nat by lia.
  rewrite Nat.div_add by lia. reflexivity.
Qed.

Lemma bitmap_cons (p : Pixel) (px : list Pixel) :
  bitmap (p :: px) = red p :: green p :: blue p :: alpha p :: bitmap px.
Proof. reflexivity. Qed.

(** The loop at index [i] reads the buffer from [i] on. *)
Lemma chalkboard_loop_drop (trips i : nat) (d : list Z) :
  Chalkboard.isEmpty_loop trips i d = Chalkboard.isEmpty_loop trips 0 (drop i d).
Proof.
  revert i d. induction trips as [| trips IH]; intros i d; [reflexivity |].
  simpl. rewrite !lookup_drop, Nat.add_0_r.
  rewrite (IH (i + 4)%nat d), (IH 4%nat (drop i d)), drop_drop.
  reflexivity.
Qed.

Lemma whiteboard_loop_drop (trips i : nat) (d : list Z) :
  Whiteboard.isEmpty_loop trips i d = Whiteboard.isEmpty_loop trips 0 (drop i d).
Proof.
  revert i d. induction trips as [| trips IH]; intros i d; [reflexivity |].
  simpl. rewrite !lookup_drop, Nat.add_0_r.
  rewrite (IH (i + 4)%nat d), (IH 4%nat (drop i d)), drop_drop.
  reflexivity.
Qed.

Lemma exceeds_false_iff (v bg : Z) :
  Chalkboard.exceeds (Some v) bg = false <-> within 5 v bg.
Proof. unfold Chalkboard.exceeds, within. rewrite Z.ltb_ge. reflexivity. Qed.

Lemma differs_false_iff (v : Z) :
  Whiteboard.differs (Some v) = false <-> v = 255.
Proof.
  unfold Whiteboard.differs. rewrite negb_false_iff, Z.eqb_eq. reflexivity.
Qed.

Lemma chalkboard_loop_bitmap (px : list Pixel) :
  Chalkboard.isEmpty_loop (length px) 0 (bitmap px) = true <->
  Forall (pixel_within 5 Chalkboard.bgR Chalkboard.bgG Chalkboard.bgB) px.
Proof.
  induction px as [| p px IH].
  - split; [constructor | reflexivity].
  - rewrite bitmap_cons, Forall_cons. cbn [length Chalkboard.isEmpty_loop].
    rewrite chalkboard_loop_drop. cbn [lookup list_lookup Nat.add drop].
    unfold pixel_within. rewrite <- IH, <- !exceeds_false_iff.
    destruct (Chalkboard.exceeds (Some (red p)) _),
             (Chalkboard.exceeds (Some (green p)) _),
             (Chalkboard.exceeds (Some (blue p)) _); cbn; intuition congruence.
Qed.

Lemma whiteboard_loop_bitmap (px : list Pixel) :
  Whiteboard.isEmpty_loop (length px) 0 (bitmap px) = true <->
  Forall (fun p => red p = 255 /\ green p = 255 /\ blue p = 255) px.
Proof.
  induction px as [| p px IH].
  - split; [constructor | reflexivity].
  - rewrite bitmap_cons, Forall_cons. cbn [length Whiteboard.isEmpty_loop].
    rewrite whiteboard_loop_drop. cbn [lookup list_lookup Nat.add drop].
    rewrite <- IH, <- !differs_false_iff.
    destruct (Whiteboard.differs (Some (red p))),
             (Whiteboard.differs (Some (green p))),
             (Whiteboard.differs (Some (blue p))); cbn; intuition congruence.
Qed.

(** C3, for the code as it is. On a bitmap of whole pixels, the chalkboard
    [isEmpty] answers true exactly when every pixel has its R, G and B
    within 5 of the background (45, 52, 54), whatever the alpha: pixels
    that are all off by at most 5 give true, and a pixel with a channel off
    by 6 gives false. The white-background [isEmpty] has no tolerance: it
    answers true exactly when every pixel has R, G and B equal to 255. *)
Theorem isEmpty_by_variant (this : DrawingCanvas) (px : list Pixel) :
  data (ctx (canvas this)) = bitmap px ->
  (Chalkboard.isEmpty this = true <-> Forall (pixel_within 5 45 52 54) px) /\
  (Forall (fun p => Z.abs (red p - 45) = 5 /\ Z.abs (green p - 52) = 5
                    /\ Z.abs (blue p - 54) = 5) px ->
   Chalkboard.isEmpty this = true) /\
  (Exists (pixel_off_by 6 45 52 54) px -> Chalkboard.isEmpty this = false) /\
  (Whiteboard.isEmpty this = true <->
   Forall (fun p => red p = 255 /\ green p = 255 /\ blue p = 255) px).
Proof.
  intros Hdata.
  assert (Hchalk : Chalkboard.isEmpty this = true <-> Forall (pixel_within 5 45 52 54) px).
  { unfold Chalkboard.isEmpty, Chalkboard.getImageData.
    rewrite Hdata, trip_count_bitmap. apply chalkboard_loop_bitmap. }
  split; [exact Hchalk |]. split; [| split].
  - intros Hall. apply Hchalk. eapply Forall_impl; [exact Hall |].
    intros p (Hr & Hg & Hb). unfold pixel_within, within. lia.
  - intros Hsome. apply not_true_is_false. intros Hempty.
    apply Hchalk in Hempty. apply Exists_exists in Hsome as (p & Hin & Hoff).
    rewrite Forall_forall in Hempty. specialize (Hempty p Hin).
    unfold pixel_within, within in Hempty. unfold pixel_off_by in Hoff. lia.
  - unfold Whiteboard.isEmpty, Whiteboard.getImageData.
    rewrite Hdata, trip_count_bitmap. apply whiteboard_loop_bitmap.
Qed.

Lemma isEmpty_by_variant_witness :
  let px := [ {| red := 50; green := 47; blue := 59; alpha := 255 |};
              {| red := 40; green := 57; blue := 49; alpha := 0 |} ] in
  let this := surface 2 1 half_size_box false (bitmap px) in
  Chalkboard.isEmpty this = true /\ Whiteboard.isEmpty this = false.
Proof.
  intros px this.
  destruct (isEmpty_by_variant this px eq_refl) as (_ & Hfive & _ & Hwhite).
  split.
  - apply Hfive. repeat constructor.
  - apply not_true_is_false. intros Hempty. apply Hwhite in Hempty.
    inversion Hempty as [| ? ? (Hred & _) _]. discriminate Hred.
Defined.

(** C3 as stated fails on the white-background variant: a pixel whose red
    is 250 has every channel within 5 of the white background, and
    [isEmpty] answers false. *)
Lemma isEmpty_white_has_no_tolerance :
  let px := [ {| red := 250; green := 255; blue := 255; alpha := 255 |} ] in
  let this := surface 1 1 half_size_box false (bitmap px) in
  ~ (Whiteboard.isEmpty this = true <-> Forall (pixel_within 5 255 255 255) px).
Proof.
  intros px this [_ Hback].
  assert (Hnear : Forall (pixel_within 5 255 255 255) px).
  { repeat constructor; unfold within; simpl; lia. }
  apply Hback in Hnear. vm_compute in Hnear. discriminate Hnear.
Qed.

(** ** The cases of the canvas test suite *)

Example getPosition_with_offset :
  Chalkboard.getPosition {| clientX := 150; clientY := 150 |}
    (surface 800 600
       {| rect_left := 50; rect_top := 50; rect_width := 800; rect_height := 600 |}
       false chalk)
  = {| x := 100; y := 100 |}.
Proof. reflexivity. Qed.

Example getPosition_scaled_and_offset :
  Chalkboard.getPosition {| clientX := 125; clientY := 125 |}
    (surface 800 600
       {| rect_left := 25; rect_top := 25; rect_width := 400; rect_height := 300 |}
       false chalk)
  = {| x := 200; y := 200 |}.
Proof. reflexivity. Qed.

Example getPosition_white_offset :
  Whiteboard.getPosition {| clientX := 350; clientY := 450 |}
    (surface 600 400
       {| rect_left := 100; rect_top := 200; rect_width := 600; rect_height := 400 |}
       false [])
  = {| x := 250; y := 250 |}.
Proof. reflexivity. Qed.

Example isEmpty_background :
  Chalkboard.isEmpty (surface 2 2 half_size_box false (chalk ++ chalk ++ chalk ++ chalk)) = true.
Proof. reflexivity. Qed.

Example isEmpty_white_stroke :
  Chalkboard.isEmpty
    (surface 2 2 half_size_box false ([255; 255; 255; 255] ++ chalk ++ chalk ++ chalk)) = false.
Proof. reflexivity. Qed.

Example isEmpty_small_variance :
  Chalkboard.isEmpty
    (surface 2 1 half_size_box false [47; 50; 56; 255; 47; 50; 56; 255]) = true.
Proof. reflexivity. Qed.

Example isEmpty_outside_tolerance :
  Chalkboard.isEmpty
    (surface 2 1 half_size_box false [51; 52; 54; 255; 51; 52; 54; 255]) = false.
Proof. reflexivity. Qed.

Example isEmpty_white_one_dark_channel :
  Whiteboard.isEmpty
    (surface 2 2 half_size_box false
       [255; 255; 255; 255; 0; 255; 255; 255; 255; 255; 255; 255; 255; 255; 255; 255])
  = false.
Proof. reflexivity. Qed.

(** * Properties of GameManager *)

Import GameManager.

(** ** The random index *)

Lemma random_index_range (r : Q) (n : nat) :
  unit_draw r -> (0 < n)%nat -> 0 <= random_index r n < Z.of_nat n.
Proof.
  intros [Hlo Hhi] Hn. unfold random_index.
  set (m := inject_Z (Z.of_nat n)).
  assert (Hm : (0 < m)%Q).
  { unfold m. change 0%Q with (inject_Z 0). rewrite <- Zlt_Qlt. lia. }
  split.
  - change 0 with (Qfloor 0). apply Qfloor_resp_le.
    apply Qmult_le_0_compat; [exact Hlo | apply Qlt_le_weak, Hm].
  - rewrite Zlt_Qlt. fold m.
    apply Qle_lt_trans with (r * m)%Q; [apply Qfloor_le |].
    rewrite <- (Qmult_1_l m) at 2.
    apply Qmult_lt_compat_r; assumption.
Qed.

(** The draw [i / n] picks the index [i]. *)
Lemma random_index_hit (i n : nat) :
  (i < n)%nat ->
  unit_draw (Z.of_nat i # Pos.of_nat n) /\
  random_index (Z.of_nat i # Pos.of_nat n) n = Z.of_nat i.
Proof.
  intros Hin.
  assert (Hpos : Z.pos (Pos.of_nat n) = Z.of_nat n).
  { rewrite <- positive_nat_Z, Nat2Pos.id by lia. reflexivity. }
  split.
  - split.
    + unfold Qle. simpl. lia.
    + unfold Qlt. simpl. lia.
  - unfold random_index.
    assert (Heq : ((Z.of_nat i # Pos.of_nat n) * inject_Z (Z.of_nat n) == inject_Z (Z.of_nat i))%Q).
    { unfold Qeq, Qmult, inject_Z. simpl. rewrite Pos.mul_1_r, Hpos. lia. }
    rewrite Heq. apply Qfloor_Z.
Qed.

Lemma word_at_lookup (l : list string) (i : nat) (s : string) :
  l !! i = Some s -> word_at l (Z.of_nat i) = VString s.
Proof.
  intros Hl. unfold word_at, js_index.
  destruct (Z.ltb_spec (Z.of_nat i) 0); [lia |].
  now rewrite Nat2Z.id, Hl.
Qed.

(** A draw in range picks a word of a non-empty array. *)
Lemma word_at_random (l : list string) (r : Q) :
  unit_draw r -> l <> [] ->
  exists s, s ∈ l /\ word_at l (random_index r (length l)) = VString s.
Proof.
  intros Hr Hl.
  assert (Hlen : (0 < length l)%nat) by (destruct l; [congruence | simpl; lia]).
  pose proof (random_index_range r (length l) Hr Hlen) as [Hlo Hhi].
  destruct (lookup_lt_is_Some_2 l (Z.to_nat (random_index r (length l)))) as [s Hs];
    [lia |].
  exists s. split; [eapply list_elem_of_lookup_2; exact Hs |].
  rewrite <- (Z2Nat.id (random_index r (length l))) by lia.
  now apply word_at_lookup.
Qed.

(** ** One call of [getRandomWord] *)

Section ManagerFacts.
Context {C : Type} `{CanvasLike C}.
Implicit Types (w : World C) (r : Q).

Lemma getRandomWord_retry stack r w :
  candidates w = [] ->
  getRandomWord (S stack) r w = getRandomWord stack r (reset_used w).
Proof.
  intros Hnone. unfold candidates in Hnone. cbn [getRandomWord].
  unfold mbind, M_bind, read. cbn. rewrite Hnone. reflexivity.
Qed.

Lemma getRandomWord_pick stack r w :
  candidates w <> [] ->
  getRandomWord (S stack) r w =
    let v := word_at (candidates w) (random_index r (length (candidates w))) in
    (Return v, mark_used v w).
Proof.
  intros Hsome. unfold candidates in *. cbn [getRandomWord].
  unfold mbind, M_bind, read. cbn.
  destruct (availableWords (this w)) as [| s l] eqn:Hav; [congruence |].
  reflexivity.
Qed.

Lemma candidates_reset w : candidates (reset_used w) = pool w.
Proof.
  unfold candidates, pool, availableWords. cbn.
  induction (allWords (wordList (this w))) as [| s l IH]; [reflexivity |].
  rewrite filter_cons_True by set_solver. now rewrite IH.
Qed.

Lemma candidates_subseteq w s : s ∈ candidates w -> s ∈ pool w.
Proof. unfold candidates, availableWords, pool. rewrite list_elem_of_filter. tauto. Qed.

Lemma candidates_mark w s :
  candidates (mark_used (VString s) w) = filter (fun t => t <> s) (candidates w).
Proof.
  unfold candidates, availableWords. cbn.
  rewrite list_filter_filter. apply list_filter_iff.
  intros t. rewrite not_elem_of_union, not_elem_of_singleton.
  naive_solver.
Qed.

Lemma NoDup_remove_one (l : list string) (s : string) :
  NoDup l -> s ∈ l -> l ≡ₚ s :: filter (fun t => t <> s) l.
Proof.
  intros Hnd Hin. apply NoDup_Permutation; [exact Hnd | |].
  - apply NoDup_cons. split; [| now apply NoDup_filter].
    rewrite list_elem_of_filter. tauto.
  - intros t. rewrite elem_of_cons, list_elem_of_filter.
    destruct (decide (t = s)) as [-> | Hne]; naive_solver.
Qed.

Lemma candidates_NoDup w : NoDup (pool w) -> NoDup (candidates w).
Proof. intros Hnd. now apply NoDup_filter. Qed.

(** Every word that [getRandomWord] returns is in [usedWords] afterwards. *)
Lemma getRandomWord_marks stack r w v w' :
  getRandomWord stack r w = (Return v, w') -> v ∈ usedWords (this w').
Proof.
  revert w. induction stack as [| stack IH]; intros w Hrun; [discriminate Hrun |].
  destruct (decide (candidates w = [])) as [Hnone | Hsome].
  - rewrite getRandomWord_retry in Hrun by exact Hnone. now apply IH in Hrun.
  - rewrite getRandomWord_pick in Hrun by exact Hsome. cbn in Hrun.
    injection Hrun as <- <-. cbn. set_solver.
Qed.

(** With a non-empty pool two frames are enough, whatever the draw. *)
Lemma getRandomWord_two_frames stack r w :
  pool w <> [] ->
  exists v w',
    getRandomWord (S (S stack)) r w = (Return v, w') /\
    getRandomWord 2 r w = (Return v, w') /\
    (candidates w <> [] -> getRandomWord 1 r w = (Return v, w')
       /\ v = word_at (candidates w) (random_index r (length (candidates w)))
       /\ w' = mark_used v w) /\
    (candidates w = [] -> getRandomWord 1 r w = (Throw RangeError, reset_used w)
       /\ getRandomWord 1 r (reset_used w) = (Return v, w')
       /\ v = word_at (pool w) (random_index r (length (pool w)))
       /\ w' = mark_used v (reset_used w)).
Proof.
  intros Hpool.
  destruct (decide (candidates w = [])) as [Hnone | Hsome].
  - assert (Hfull : candidates (reset_used w) <> [])
      by (rewrite candidates_reset; exact Hpool).
    eexists _, _. rewrite !(getRandomWord_retry _ r w Hnone).
    rewrite !(getRandomWord_pick _ r _ Hfull). cbn zeta.
    rewrite candidates_reset.
    split; [reflexivity |]. split; [reflexivity |].
    split; [intros Hne; contradiction |]. intros _. repeat split.
  - eexists _, _. rewrite !(getRandomWord_pick _ r w Hsome). cbn zeta.
    split; [reflexivity |]. split; [reflexivity |].
    split; [intros _; repeat split | intros Hnone; contradiction].
Qed.

(** ** Successive calls *)

Lemma getRandomWords_cons stack r rs w v w1 vs w2 :
  getRandomWord stack r w = (Return v, w1) ->
  getRandomWords stack rs w1 = (Return vs, w2) ->
  getRandomWords stack (r :: rs) w = (Return (v :: vs), w2).
Proof.
  intros Hone Hrest. cbn [getRandomWords]. unfold mbind, M_bind.
  rewrite Hone. cbn. rewrite Hrest. reflexivity.
Qed.

Lemma getRandomWords_one stack r w v w1 :
  getRandomWord stack r w = (Return v, w1) ->
  getRandomWords stack [r] w = (Return ([] ++ [v]), w1).
Proof. intros Hone. now apply getRandomWords_cons with (w1 := w1). Qed.

(** As long as candidates are left, the calls hand them out one by one. *)
Lemma getRandomWords_distinct stack rs w :
  NoDup (pool w) -> Forall unit_draw rs ->
  (length rs <= length (candidates w))%nat ->
  exists words w',
    getRandomWords (S stack) rs w = (Return (VString <$> words), w') /\
    length words = length rs /\
    words ++ candidates w' ≡ₚ candidates w /\
    usedWords (this w') = usedWords (this w) ∪ list_to_set (VString <$> words) /\
    pool w' = pool w.
Proof.
  intros Hnd Hrs. revert w Hnd.
  induction Hrs as [| r rs Hr Hrs IH]; intros w Hnd Hlen.
  - exists [], w. cbn. repeat split; [reflexivity | set_solver].
  - assert (Hsome : candidates w <> []).
    { intros Hnone. rewrite Hnone in Hlen. cbn in Hlen. lia. }
    destruct (word_at_random (candidates w) r Hr Hsome) as (s & Hs & Hat).
    pose proof (getRandomWord_pick stack r w Hsome) as Hpick.
    cbn zeta in Hpick. rewrite Hat in Hpick.
    pose proof (NoDup_remove_one _ s (candidates_NoDup w Hnd) Hs) as Hperm.
    rewrite <- candidates_mark in Hperm.
    destruct (IH (mark_used (VString s) w)) as (words & w' & Hrun & Hlw & Hp & Hu & Hpool).
    + exact Hnd.
    + apply Permutation_length in Hperm. cbn in Hperm, Hlen. lia.
    + exists (s :: words), w'. split; [| split; [| split; [| split]]].
      * exact (getRandomWords_cons _ _ _ _ _ _ _ _ Hpick Hrun).
      * cbn. now rewrite Hlw.
      * cbn. rewrite Hp. symmetry. exact Hperm.
      * rewrite Hu. cbn. set_solver.
      * exact Hpool.
Qed.

(** From every state, every word of the pool can come up again. *)
Lemma getRandomWords_reach (n : nat) w (s : string) :
  (length (candidates w) <= n)%nat -> s ∈ pool w ->
  exists rs vs w',
    Forall unit_draw rs /\
    getRandomWords 2 rs w = (Return (vs ++ [VString s]), w').
Proof.
  revert w. induction n as [| n IH]; intros w Hlen Hs.
  - assert (Hnone : candidates w = []) by (destruct (candidates w); [reflexivity | cbn in Hlen; lia]).
    apply list_elem_of_lookup in Hs as [i Hi].
    pose proof (lookup_lt_Some _ _ _ Hi) as Hlt.
    destruct (random_index_hit i (length (pool w)) Hlt) as [Hunit Hidx].
    destruct (getRandomWord_two_frames 0 (Z.of_nat i # Pos.of_nat (length (pool w))) w)
      as (v & w' & _ & Hrun & _ & Hreset).
    { intros Hp. rewrite Hp in Hi. discriminate Hi. }
    destruct (Hreset Hnone) as (_ & _ & Hv & _).
    rewrite Hidx, (word_at_lookup _ _ _ Hi) in Hv. subst v.
    exists [Z.of_nat i # Pos.of_nat (length (pool w))]%Q, [], w'.
    split; [repeat constructor; apply Hunit |].
    exact (getRandomWords_one _ _ _ _ _ Hrun).
  - destruct (decide (s ∈ candidates w)) as [Hcand | Hused].
    + apply list_elem_of_lookup in Hcand as [i Hi].
      pose proof (lookup_lt_Some _ _ _ Hi) as Hlt.
      destruct (random_index_hit i (length (candidates w)) Hlt) as [Hunit Hidx].
      assert (Hsome : candidates w <> []).
      { intros Hp. rewrite Hp in Hi. discriminate Hi. }
      pose proof (getRandomWord_pick 1 (Z.of_nat i # Pos.of_nat (length (candidates w))) w Hsome) as Hpick.
      cbn zeta in Hpick. rewrite Hidx, (word_at_lookup _ _ _ Hi) in Hpick.
      exists [Z.of_nat i # Pos.of_nat (length (candidates w))]%Q, [], (mark_used (VString s) w).
      split; [repeat constructor; apply Hunit |].
      exact (getRandomWords_one _ _ _ _ _ Hpick).
    + destruct (candidates w) as [| h t] eqn:Hcands.
      { apply (IH w); [rewrite Hcands; cbn; lia | exact Hs]. }
      assert (Hlt : (0 < length (candidates w))%nat) by (rewrite Hcands; cbn; lia).
      destruct (random_index_hit 0 (length (candidates w)) Hlt) as [Hunit Hidx].
      assert (Hsome : candidates w <> []) by (rewrite Hcands; discriminate).
      pose proof (getRandomWord_pick 1 (Z.of_nat 0 # Pos.of_nat (length (candidates w))) w Hsome) as Hpick.
      cbn zeta in Hpick. rewrite Hidx in Hpick.
      rewrite (word_at_lookup (candidates w) 0 h) in Hpick by (rewrite Hcands; reflexivity).
      destruct (IH (mark_used (VString h) w)) as (rs & vs & w' & Hrs & Hrun).
      * rewrite candidates_mark, Hcands.
        rewrite filter_cons_False by tauto.
        pose proof (length_filter (fun t0 => t0 <> h) t). cbn in Hlen. lia.
      * exact Hs.
      * exists ((Z.of_nat 0 # Pos.of_nat (length (candidates w))) :: rs)%Q, (VString h :: vs), w'.
        split; [constructor; [apply Hunit | exact Hrs] |].
        exact (getRandomWords_cons _ _ _ _ _ _ _ _ Hpick Hrun).
Qed.

End ManagerFacts.

(** ** The claims on word selection *)

Lemma initWordList_NoDup : NoDup (allWords initWordList).
Proof. apply (bool_decide_unpack (NoDup (allWords initWordList))). vm_compute. exact I. Qed.

Lemma candidates_constructor {C} (canvas : C) (doc : Document) :
  candidates (constructor canvas doc) = allWords initWordList.
Proof. vm_compute. reflexivity. Qed.

(** C9. [getRandomWord] returns in every state whose pool is not empty,
    for every draw: two frames are enough for every call (the call itself
    and at most one call of itself). When candidates are left, the call
    returns without calling itself. When none is left, it clears
    [usedWords] and calls itself once; the candidates of that inner call
    are the whole pool, and it returns (with a single frame this state
    overflows the stack: the inner call is really made). For a draw in
    [0, 1) the value returned is a word of the pool. *)
Theorem getRandomWord_terminates {C} (w : World C) (r : Q) :
  pool w <> [] ->
  exists v w',
    (forall stack, (2 <= stack)%nat -> getRandomWord stack r w = (Return v, w')) /\
    (candidates w <> [] -> getRandomWord 1 r w = (Return v, w')) /\
    (candidates w = [] ->
       getRandomWord 1 r w = (Throw RangeError, reset_used w) /\
       candidates (reset_used w) = pool w /\
       getRandomWord 1 r (reset_used w) = (Return v, w')) /\
    (unit_draw r -> exists s, v = VString s /\ s ∈ pool w).
Proof.
  intros Hpool.
  destruct (getRandomWord_two_frames 0 r w Hpool) as (v & w' & _ & Htwo & Hpick & Hretry).
  exists v, w'. split; [| split; [| split]].
  - intros stack Hstack.
    destruct stack as [| [| stack]]; [lia | lia |].
    destruct (getRandomWord_two_frames stack r w Hpool) as (v2 & w2 & Hrun & Htwo' & _).
    rewrite Hrun. rewrite Htwo in Htwo'. symmetry. exact Htwo'.
  - intros Hsome. apply Hpick, Hsome.
  - intros Hnone. destruct (Hretry Hnone) as (Hthrow & Hinner & _).
    split; [exact Hthrow |]. split; [apply candidates_reset | exact Hinner].
  - intros Hr. destruct (decide (candidates w = [])) as [Hnone | Hsome].
    + destruct (Hretry Hnone) as (_ & _ & Hv & _).
      destruct (word_at_random (pool w) r Hr Hpool) as (s & Hs & Hat).
      exists s. split; [congruence | exact Hs].
    + destruct (Hpick Hsome) as (_ & Hv & _).
      destruct (word_at_random (candidates w) r Hr Hsome) as (s & Hs & Hat).
      exists s. split; [congruence | now apply candidates_subseteq].
Qed.

Lemma getRandomWord_terminates_witness :
  let w := constructor false blank_page in
  pool w <> [] /\
  exists v w', getRandomWord 2 (1 # 2) w = (Return v, w').
Proof.
  intros w.
  assert (Hpool : pool w <> []) by discriminate.
  split; [exact Hpool |].
  destruct (getRandomWord_terminates w (1 # 2) Hpool) as (v & w' & Hrun & _).
  exists v, w'. apply Hrun. lia.
Defined.

Lemma unit_draw_zero : unit_draw 0.
Proof. split; [apply Qle_refl | reflexivity]. Qed.

(** C2. Take a state whose pool has N words, no two alike, none of them
    in [usedWords] (a new manager is such a state, with the 30 words of the
    code). Then N calls of [getRandomWord] with draws in [0, 1) return the N
    words of the pool, each once, in some order, and add them to
    [usedWords]. The next call clears [usedWords] and returns a word of the
    pool, hence one returned before, after which [usedWords] holds that
    word alone. In every state a returned value is in [usedWords] after the
    call; and from every state, for every word of the pool there are draws
    after which that word is returned. *)
Theorem getRandomWord_exhaustion_cycle {C} (w : World C) (stack : nat)
    (rs : list Q) (r : Q) :
  NoDup (pool w) -> pool w <> [] -> candidates w = pool w ->
  (2 <= stack)%nat -> length rs = length (pool w) ->
  Forall unit_draw rs -> unit_draw r ->
  (exists words wN,
     getRandomWords stack rs w = (Return (VString <$> words), wN) /\
     words ≡ₚ pool w /\
     usedWords (this wN) = usedWords (this w) ∪ list_to_set (VString <$> words) /\
     exists s wN1,
       getRandomWord stack r wN = (Return (VString s), wN1) /\
       s ∈ words /\
       usedWords (this wN1) = {[VString s]}) /\
  (forall (canvas : C) doc,
     let w0 := constructor canvas doc in
     pool w0 = allWords initWordList /\ length (pool w0) = 30%nat /\
     NoDup (pool w0) /\ candidates w0 = pool w0 /\ usedWords (this w0) = ∅) /\
  (forall (w1 : World C) stack' r' v w2,
     getRandomWord stack' r' w1 = (Return v, w2) -> v ∈ usedWords (this w2)) /\
  (forall (w1 : World C) s,
     s ∈ pool w1 ->
     exists rs' vs w2,
       Forall unit_draw rs' /\
       getRandomWords 2 rs' w1 = (Return (vs ++ [VString s]), w2)).
Proof.
  intros Hnd Hne Hfresh Hstack Hlen Hrs Hr.
  split; [| split; [| split]].
  - destruct stack as [| [| stack]]; [lia | lia |].
    destruct (getRandomWords_distinct (S stack) rs w) as (words & wN & Hrun & Hlw & Hp & Hu & Hpool).
    { exact Hnd. }
    { exact Hrs. }
    { rewrite Hfresh, Hlen. reflexivity. }
    rewrite Hfresh in Hp.
    assert (Hnone : candidates wN = []).
    { apply Permutation_length in Hp. rewrite length_app, Hlw, Hlen in Hp.
      destruct (candidates wN); [reflexivity | cbn in Hp; lia]. }
    rewrite Hnone, app_nil_r in Hp.
    exists words, wN. split; [exact Hrun |]. split; [exact Hp |].
    split; [exact Hu |].
    assert (HneN : pool wN <> []) by (rewrite Hpool; exact Hne).
    destruct (getRandomWord_two_frames stack r wN HneN) as (v & wN1 & Hnext & _ & _ & Hretry).
    destruct (Hretry Hnone) as (_ & _ & Hv & HwN1).
    destruct (word_at_random (pool wN) r Hr HneN) as (s & Hs & Hat).
    rewrite Hat in Hv. subst v.
    exists s, wN1. split; [exact Hnext |]. split.
    + rewrite Hp. rewrite Hpool in Hs. exact Hs.
    + rewrite HwN1. cbn. set_solver.
  - intros canvas doc w0. subst w0.
    split; [reflexivity |]. split; [reflexivity |].
    split; [exact initWordList_NoDup |].
    split; [apply candidates_constructor | reflexivity].
  - intros w1 stack' r' v w2. apply getRandomWord_marks.
  - intros w1 s Hs.
    apply (getRandomWords_reach (length (candidates w1)) w1 s); [lia | exact Hs].
Qed.

Lemma getRandomWord_exhaustion_cycle_witness :
  exists words w30,
    getRandomWords 2 (repeat 0%Q 30) (constructor false blank_page)
      = (Return (VString <$> words), w30) /\
    words ≡ₚ allWords initWordList.
Proof.
  destruct (getRandomWord_exhaustion_cycle (constructor false blank_page) 2 (repeat 0%Q 30) 0)
    as ((words & w30 & Hrun & Hperm & _) & _).
  - exact initWordList_NoDup.
  - discriminate.
  - apply candidates_constructor.
  - lia.
  - reflexivity.
  - apply Forall_forall. intros q Hq. apply list_elem_of_In, repeat_spec in Hq.
    subst q. exact unit_draw_zero.
  - exact unit_draw_zero.
  - exists words, w30. split; assumption.
Defined.

(** ** Scoring *)

Ltac run_method :=
  unfold submitAnswer, skipWord, nextWord, evaluateDrawing, showResult, updateScore,
    updateWordDisplay, hideResult, emit, set_this, set_document, set_canvasObj,
    update, read, throw, mbind, M_bind, mret, M_ret;
  cbn -[js_index random_index scores length pretty result_markup js_add].

(** In the safe range the addition of binary64 is the addition. *)
Lemma js_add_safe (a b : Z) : - 2 ^ 53 <= a + b <= 2 ^ 53 -> js_add a b = a + b.
Proof.
  intros Hab. unfold js_add, round64.
  destruct (Z.leb_spec (Z.abs (a + b)) (2 ^ 53)) as [_ | Hout]; [reflexivity | lia].
Qed.

(** Beyond it the sum is rounded: to the even neighbour, up or down. *)
Example js_add_rounds :
  js_add (2 ^ 53) 7 = 2 ^ 53 + 8 /\ js_add (2 ^ 53) 5 = 2 ^ 53 + 4 /\
  js_add (2 ^ 53) 2 = 2 ^ 53 + 2 /\ js_add (2 ^ 53) 10 = 2 ^ 53 + 10 /\
  js_add (2 ^ 54) 2 = 2 ^ 54 /\ js_add (- 2 ^ 53 - 2) 7 = - 2 ^ 53 + 5.
Proof. repeat split; vm_compute; reflexivity. Qed.

Lemma random_index_scores (r : Q) :
  unit_draw r ->
  let i := random_index r (length scores) in
  i = 0 \/ i = 1 \/ i = 2 \/ i = 3.
Proof.
  intros Hr i. subst i. change (length scores) with 4%nat.
  pose proof (random_index_range r 4 Hr) as Hrange.
  change (Z.of_nat 4) with 4 in Hrange. lia.
Qed.

(** A draw in [0, 1) picks an entry of the table. *)
Lemma scores_at_draw (r : Q) :
  unit_draw r ->
  exists evaluation,
    js_index scores (random_index r (length scores)) = Some evaluation /\
    (success evaluation, points evaluation) ∈ tiers /\
    message evaluation <> EmptyString /\
    0 <= points evaluation.
Proof.
  intros Hr.
  destruct (random_index_scores r Hr) as [Hi | [Hi | [Hi | Hi]]];
    cbv zeta in Hi; rewrite Hi;
    (eexists; split; [reflexivity |]; split; [cbn; set_solver |];
     split; [discriminate | cbn; lia]).
Qed.

(** An entry of the table gives 2 to 10 points. *)
Lemma scores_points_range (i : Z) (evaluation : Evaluation) :
  js_index scores i = Some evaluation -> 2 <= points evaluation <= 10.
Proof.
  unfold js_index. destruct (i <? 0); [discriminate |].
  intros Hev. apply list_elem_of_lookup_2 in Hev. unfold scores in Hev.
  repeat (apply elem_of_cons in Hev as [-> | Hev]); cbn; try lia.
  inversion Hev.
Qed.

(** C6. For every draw in [0, 1), [evaluateDrawing] returns an entry of
    its table: success and points are one of (true, 10), (true, 7),
    (true, 5), (false, 2), the message is not empty and the points are not
    negative; it changes no state. Every one of the four tiers is returned
    for some draw, so the points are not constant: the draws 0 and 3/4
    give 10 and 2. *)
Theorem evaluateDrawing_outcomes {C} (w : World C) :
  (forall r, unit_draw r ->
     exists evaluation,
       evaluateDrawing r w
         = (Return (Some evaluation), with_events [Call_evaluateDrawing (Some evaluation)] w) /\
       (success evaluation, points evaluation) ∈ tiers /\
       message evaluation <> EmptyString /\
       0 <= points evaluation) /\
  (forall t, t ∈ tiers ->
     exists r evaluation,
       unit_draw r /\
       fst (evaluateDrawing r w) = Return (Some evaluation) /\
       (success evaluation, points evaluation) = t) /\
  (exists e1 e2,
     fst (evaluateDrawing 0 w) = Return (Some e1) /\
     fst (evaluateDrawing (3 # 4) w) = Return (Some e2) /\
     points e1 <> points e2).
Proof.
  split; [| split].
  - intros r Hr. destruct (scores_at_draw r Hr) as (evaluation & Hev & Hrest).
    exists evaluation. split; [| exact Hrest].
    unfold evaluateDrawing. rewrite Hev. reflexivity.
  - intros t Ht. unfold tiers in Ht.
    repeat (apply elem_of_cons in Ht as [-> | Ht]).
    + exists 0%Q. eexists. split; [exact unit_draw_zero | split; reflexivity].
    + exists (1 # 4)%Q. eexists. split; [split; reflexivity || discriminate | split; reflexivity].
    + exists (2 # 4)%Q. eexists. split; [split; reflexivity || discriminate | split; reflexivity].
    + exists (3 # 4)%Q. eexists. split; [split; reflexivity || discriminate | split; reflexivity].
    + inversion Ht.
  - eexists _, _. split; [reflexivity |]. split; [reflexivity |]. cbn. lia.
Qed.

Lemma evaluateDrawing_outcomes_witness :
  exists evaluation,
    fst (evaluateDrawing (C := bool) (1 # 2) (constructor false blank_page))
      = Return (Some evaluation) /\
    (success evaluation, points evaluation) ∈ tiers.
Proof.
  destruct (evaluateDrawing_outcomes (constructor false blank_page)) as (Hall & _).
  destruct (Hall (1 # 2)%Q) as (evaluation & Hrun & Htier & _).
  - split; [discriminate | reflexivity].
  - exists evaluation. rewrite Hrun. split; [reflexivity | exact Htier].
Defined.

(** ** Submitting and skipping *)

(** The guard [!this.currentWord] lets strings through that are not
    empty, and nothing else. *)
Lemma truthy_spec (v : value) :
  truthy v = true <-> exists s, v = VString s /\ s <> EmptyString.
Proof.
  destruct v as [| | s]; cbn.
  - split; [discriminate | intros (s & Hs & _); discriminate Hs].
  - split; [discriminate | intros (s & Hs & _); discriminate Hs].
  - rewrite negb_true_iff, bool_decide_eq_false.
    split; [intros Hne; exists s; split; [reflexivity | exact Hne] |].
    intros (t & Ht & Hne). injection Ht as ->. exact Hne.
Qed.

Section SubmitFacts.
Context {C : Type} `{CanvasLike C}.
Implicit Types (w : World C) (r : Q).

Lemma submitAnswer_no_round r w :
  truthy (currentWord (this w)) = false ->
  submitAnswer r w = (Return tt, with_events [Alert msg_noActiveRound] w).
Proof. intros Hcw. run_method. rewrite Hcw. reflexivity. Qed.

Lemma submitAnswer_empty_canvas r w :
  truthy (currentWord (this w)) = true -> canvas_isEmpty (canvasObj w) = true ->
  submitAnswer r w = (Return tt, with_events [Alert msg_emptyCanvas] w).
Proof. intros Hcw Hempty. run_method. rewrite Hcw. cbn. rewrite Hempty. reflexivity. Qed.

(** The state after a scored submission. *)
Lemma submitAnswer_scored r w evaluation :
  truthy (currentWord (this w)) = true -> canvas_isEmpty (canvasObj w) = false ->
  js_index scores (random_index r (length scores)) = Some evaluation ->
  submitAnswer r w =
    (Return tt,
     {| this := with_score (js_add (score (this w)) (points evaluation)) (this w);
        canvasObj := canvasObj w;
        document :=
          {| wordDisplay_textContent := wordDisplay_textContent (document w);
             wordDisplay_className := wordDisplay_className (document w);
             scoreDisplay_textContent := pretty (js_add (score (this w)) (points evaluation));
             resultArea_classList := resultArea_classList (document w) ∖ {["hidden"]};
             resultTitle_textContent :=
               if success evaluation then "🎉 恭喜！" else "😅 再试试吧！";
             resultMessage_innerHTML := result_markup evaluation (currentWord (this w)) |};
        events := events w ++ [Call_evaluateDrawing (Some evaluation);
                               Call_updateScore; Call_showResult evaluation] |}).
Proof.
  intros Hcw Hfull Hev. run_method. rewrite Hcw.
  cbn -[js_index random_index scores length pretty result_markup js_add].
  rewrite Hfull, Hev. cbn -[js_add pretty].
  rewrite <- !app_assoc. reflexivity.
Qed.

(** In the safe range a scored submission adds the points. *)
Lemma submitAnswer_adds r w evaluation :
  js_index scores (random_index r (length scores)) = Some evaluation ->
  safe_integers 1 w ->
  js_add (score (this w)) (points evaluation) = score (this w) + points evaluation.
Proof.
  intros Hev [Hlo Hhi]. pose proof (scores_points_range _ _ Hev) as Hpts.
  apply js_add_safe. lia.
Qed.

Lemma submitAnswer_undefined r w :
  truthy (currentWord (this w)) = true -> canvas_isEmpty (canvasObj w) = false ->
  js_index scores (random_index r (length scores)) = None ->
  submitAnswer r w = (Throw TypeError, with_events [Call_evaluateDrawing None] w).
Proof.
  intros Hcw Hfull Hev. run_method. rewrite Hcw. cbn -[js_index random_index scores length pretty result_markup]. rewrite Hfull, Hev. reflexivity.
Qed.

Lemma skipWord_no_round w :
  truthy (currentWord (this w)) = false ->
  skipWord w = (Return tt, with_events [Alert msg_noActiveRound] w).
Proof. intros Hcw. run_method. rewrite Hcw. reflexivity. Qed.

Lemma skipWord_shown w :
  truthy (currentWord (this w)) = true ->
  let evaluation := {| success := false; points := 0;
                       message := "正确答案是: " +:+ template (currentWord (this w)) |} in
  skipWord w =
    (Return tt,
     {| this := this w;
        canvasObj := canvasObj w;
        document :=
          {| wordDisplay_textContent := wordDisplay_textContent (document w);
             wordDisplay_className := wordDisplay_className (document w);
             scoreDisplay_textContent := scoreDisplay_textContent (document w);
             resultArea_classList := resultArea_classList (document w) ∖ {["hidden"]};
             resultTitle_textContent := "😅 再试试吧！";
             resultMessage_innerHTML := result_markup evaluation (currentWord (this w)) |};
        events := events w ++ [Call_showResult evaluation] |}).
Proof. intros Hcw. run_method. rewrite Hcw. reflexivity. Qed.

(** *** The states that runs reach *)

Lemma getRandomWord_returns_word stack r w v w' :
  unit_draw r -> getRandomWord stack r w = (Return v, w') ->
  exists s, v = VString s /\ s ∈ pool w.
Proof.
  intros Hr. revert w. induction stack as [| stack IH]; intros w Hrun; [discriminate Hrun |].
  destruct (decide (candidates w = [])) as [Hnone | Hsome].
  - rewrite getRandomWord_retry in Hrun by exact Hnone. exact (IH _ Hrun).
  - rewrite getRandomWord_pick in Hrun by exact Hsome. cbv zeta in Hrun.
    destruct (word_at_random (candidates w) r Hr Hsome) as (s & Hs & Hat).
    rewrite Hat in Hrun. injection Hrun as <- _.
    exists s. split; [reflexivity | now apply candidates_subseteq].
Qed.

Lemma getRandomWord_keeps stack r w :
  let w' := snd (getRandomWord stack r w) in
  wordList (this w') = wordList (this w) /\
  currentWord (this w') = currentWord (this w).
Proof.
  revert w. induction stack as [| stack IH]; intros w; [split; reflexivity |].
  destruct (decide (candidates w = [])) as [Hnone | Hsome].
  - rewrite getRandomWord_retry by exact Hnone. apply (IH (reset_used w)).
  - rewrite getRandomWord_pick by exact Hsome. split; reflexivity.
Qed.

Lemma nextWord_round_state stack r w :
  unit_draw r -> round_state w -> round_state (snd (nextWord stack r w)).
Proof.
  intros Hr [Hpool Hcw].
  pose proof (getRandomWord_keeps stack r w) as [Hwl Hsame].
  pose proof (getRandomWord_returns_word stack r w) as Hword.
  unfold nextWord, mbind, M_bind.
  destruct (getRandomWord stack r w) as [[v | e] w1]; cbn [snd] in Hwl, Hsame.
  - destruct (Hword v w1 Hr eq_refl) as (s & -> & Hs).
    run_method. unfold round_state. cbn.
    split; [congruence |]. right. exists s. split; [reflexivity |].
    unfold pool in Hs. rewrite Hpool in Hs. exact Hs.
  - unfold round_state. cbn. split; [congruence |]. rewrite Hsame. exact Hcw.
Qed.

Lemma submitAnswer_keeps r w :
  let w' := snd (submitAnswer r w) in
  wordList (this w') = wordList (this w) /\
  currentWord (this w') = currentWord (this w).
Proof.
  destruct (truthy (currentWord (this w))) eqn:Hcw.
  - destruct (canvas_isEmpty (canvasObj w)) eqn:Hempty.
    + rewrite (submitAnswer_empty_canvas r w Hcw Hempty). split; reflexivity.
    + destruct (js_index scores (random_index r (length scores))) as [evaluation |] eqn:Hev.
      * rewrite (submitAnswer_scored r w evaluation Hcw Hempty Hev). split; reflexivity.
      * rewrite (submitAnswer_undefined r w Hcw Hempty Hev). split; reflexivity.
  - rewrite (submitAnswer_no_round r w Hcw). split; reflexivity.
Qed.

Lemma skipWord_keeps w : this (snd (skipWord w)) = this w.
Proof.
  destruct (truthy (currentWord (this w))) eqn:Hcw.
  - rewrite (skipWord_shown w Hcw). reflexivity.
  - rewrite (skipWord_no_round w Hcw). reflexivity.
Qed.

Lemma run_op_round_state (op : Op) w :
  drawn_by_random op -> round_state w -> round_state (snd (run_op op w)).
Proof.
  intros Hop Hw. destruct op as [stack r | r | | f]; cbn [run_op].
  - now apply nextWord_round_state.
  - destruct (submitAnswer_keeps r w) as [Hwl Hcw].
    unfold round_state. rewrite Hwl, Hcw. exact Hw.
  - unfold round_state. rewrite skipWord_keeps. exact Hw.
  - exact Hw.
Qed.

Lemma run_ops_round_state (ops : list Op) w :
  Forall drawn_by_random ops -> round_state w -> round_state (snd (run_ops ops w)).
Proof.
  intros Hops. revert w. induction Hops as [| op ops Hop Hops IH]; intros w Hw; [exact Hw |].
  pose proof (run_op_round_state op w Hop Hw) as Hstep.
  cbn [run_ops]. unfold mbind, M_bind.
  destruct (run_op op w) as [[[] | e] w1]; cbn [snd] in Hstep |- *.
  - now apply IH.
  - exact Hstep.
Qed.

Lemma initWordList_words_nonempty (s : string) :
  s ∈ allWords initWordList -> s <> EmptyString.
Proof.
  revert s. apply Forall_forall.
  apply (bool_decide_unpack (Forall (fun s => s <> EmptyString) (allWords initWordList))).
  vm_compute. exact I.
Qed.

(** In the states that runs from a new manager reach, the guard fails on
    [null] and on nothing else. *)
Lemma reached_guard (canvas : C) (doc : Document) (ops : list Op) :
  Forall drawn_by_random ops ->
  let w := snd (run_ops ops (constructor canvas doc)) in
  truthy (currentWord (this w)) = false <-> currentWord (this w) = VNull.
Proof.
  intros Hops w.
  destruct (run_ops_round_state ops (constructor canvas doc) Hops) as [_ Hcw].
  { split; [reflexivity | left; reflexivity]. }
  fold w in Hcw. destruct Hcw as [Hnull | (s & Hs & Hin)].
  - rewrite Hnull. split; reflexivity.
  - rewrite Hs. apply initWordList_words_nonempty in Hin.
    split; [| discriminate]. intros Hfalse.
    assert (Htrue : truthy (VString s) = true)
      by (apply truthy_spec; exists s; split; [reflexivity | exact Hin]).
    congruence.
Qed.

End SubmitFacts.

(** C1. For every state and every draw in [0, 1), [submitAnswer] returns
    normally, and:
    - when [currentWord] does not pass the guard [!this.currentWord], the
      call alerts that no round is active and changes nothing else; [null]
      fails the guard, and in every state that a run of calls from a new
      manager reaches it is the only value that does (the guard also stops
      [undefined] and the empty string, which no run stores);
    - when [currentWord] is a word and the canvas answers that it is empty,
      the call alerts that the canvas is empty and changes nothing else:
      score, canvas and page are as before;
    - when [currentWord] is a word and the canvas is not empty, the scoring
      function is called once, the score display is refreshed and the
      result is shown with that evaluation's success, points and message;
      the fields other than [score] and the canvas are as before. When
      the old score is a safe integer with room for 10 points, [-2^53] to
      [2^53 - 10], where the [+=] of the code is the sum of the integers,
      the new score is the old one plus the points of the evaluation, and
      the display shows it. *)
Theorem submitAnswer_guards {C} `{CanvasLike C} (w : World C) (r : Q) :
  unit_draw r ->
  (truthy (currentWord (this w)) = false ->
     submitAnswer r w = (Return tt, with_events [Alert msg_noActiveRound] w)) /\
  (truthy (currentWord (this w)) = true -> canvas_isEmpty (canvasObj w) = true ->
     submitAnswer r w = (Return tt, with_events [Alert msg_emptyCanvas] w)) /\
  (truthy (currentWord (this w)) = true -> canvas_isEmpty (canvasObj w) = false ->
     exists evaluation w',
       fst (evaluateDrawing r w) = Return (Some evaluation) /\
       submitAnswer r w = (Return tt, w') /\
       this w' = with_score (score (this w')) (this w) /\
       canvasObj w' = canvasObj w /\
       events w' = events w ++ [Call_evaluateDrawing (Some evaluation);
                                Call_updateScore; Call_showResult evaluation] /\
       result_shown evaluation (currentWord (this w)) (document w') /\
       (safe_integers 1 w ->
          score (this w') = score (this w) + points evaluation /\
          scoreDisplay_textContent (document w')
            = pretty (score (this w) + points evaluation))) /\
  (currentWord (this w) = VNull -> truthy (currentWord (this w)) = false) /\
  (forall s, currentWord (this w) = VString s -> s <> EmptyString ->
     truthy (currentWord (this w)) = true) /\
  (forall (canvas : C) doc (ops : list Op),
     Forall drawn_by_random ops ->
     let w0 := snd (run_ops ops (constructor canvas doc)) in
     truthy (currentWord (this w0)) = false <-> currentWord (this w0) = VNull).
Proof.
  intros Hr. split; [| split; [| split; [| split; [| split]]]]; [| | | | | apply reached_guard].
  - apply submitAnswer_no_round.
  - apply submitAnswer_empty_canvas.
  - intros Hcw Hfull.
    destruct (scores_at_draw r Hr) as (evaluation & Hev & _).
    exists evaluation. eexists.
    split; [unfold evaluateDrawing; rewrite Hev; reflexivity |].
    split; [exact (submitAnswer_scored r w evaluation Hcw Hfull Hev) |].
    cbn -[js_add pretty]. do 3 (split; [reflexivity |]).
    split; [repeat split; set_solver |].
    intros Hsafe. rewrite (submitAnswer_adds r w evaluation Hev Hsafe). split; reflexivity.
  - intros ->. reflexivity.
  - intros s -> Hne. apply truthy_spec. exists s. split; [reflexivity | exact Hne].
Qed.

Lemma submitAnswer_guards_witness :
  let w := with_canvasObj false
             (snd (nextWord (C := bool) 2 0 (constructor true blank_page))) in
  unit_draw (1 # 4) /\
  truthy (currentWord (this w)) = true /\
  canvas_isEmpty (canvasObj w) = false /\
  safe_integers 1 w /\
  exists w', submitAnswer (1 # 4) w = (Return tt, w') /\ score (this w') = 7.
Proof.
  intros w.
  assert (Hr : unit_draw (1 # 4)) by (split; [discriminate | reflexivity]).
  assert (Hsafe : safe_integers 1 w) by (split; vm_compute; discriminate).
  split; [exact Hr |]. split; [reflexivity |]. split; [reflexivity |].
  split; [exact Hsafe |].
  destruct (submitAnswer_guards w (1 # 4) Hr) as (_ & _ & Hscore & _).
  destruct (Hscore eq_refl eq_refl)
    as (evaluation & w' & Hev & Hrun & _ & _ & _ & _ & Hsum).
  exists w'. split; [exact Hrun |].
  rewrite (proj1 (Hsum Hsafe)). injection Hev as <-. reflexivity.
Defined.

(** C5. [skipWord] returns normally in every state. When [currentWord]
    does not pass the guard [!this.currentWord], it alerts that no round is
    active and changes nothing else; [null] fails the guard, and in every
    state that a run of calls from a new manager reaches it is the only
    value that does. When
    [currentWord] is a word, it shows a result with success false, points 0
    and a message that ends with the word; no field of the manager and
    nothing of the canvas changes. In every state [score] is after the call
    what it was before. *)
Theorem skipWord_reveals_and_keeps_score {C} `{CanvasLike C} (w : World C) :
  (truthy (currentWord (this w)) = false ->
     skipWord w = (Return tt, with_events [Alert msg_noActiveRound] w)) /\
  (forall s, currentWord (this w) = VString s -> s <> EmptyString ->
     exists evaluation w',
       skipWord w = (Return tt, w') /\
       success evaluation = false /\ points evaluation = 0 /\
       message evaluation = "正确答案是: " +:+ s /\
       reveals (message evaluation) s /\
       events w' = events w ++ [Call_showResult evaluation] /\
       result_shown evaluation (VString s) (document w') /\
       this w' = this w /\ canvasObj w' = canvasObj w) /\
  (currentWord (this w) = VNull ->
     skipWord w = (Return tt, with_events [Alert msg_noActiveRound] w)) /\
  fst (skipWord w) = Return tt /\
  score (this (snd (skipWord w))) = score (this w) /\
  (forall (canvas : C) doc (ops : list Op),
     Forall drawn_by_random ops ->
     let w0 := snd (run_ops ops (constructor canvas doc)) in
     truthy (currentWord (this w0)) = false <-> currentWord (this w0) = VNull).
Proof.
  split; [| split; [| split; [| split; [| split]]]]; [| | | | | apply reached_guard].
  - apply skipWord_no_round.
  - intros s Hs Hne.
    assert (Hcw : truthy (currentWord (this w)) = true).
    { apply truthy_spec. exists s. split; assumption. }
    pose proof (skipWord_shown w Hcw) as Hrun. cbv zeta in Hrun. rewrite Hs in Hrun. cbn in Hrun.
    exists {| success := false; points := 0; message := "正确答案是: " +:+ s |}.
    eexists. split; [exact Hrun |]. cbn.
    do 3 (split; [reflexivity |]).
    split; [| repeat split; set_solver].
    exists "正确答案是: ", EmptyString. f_equal. clear.
    induction s as [| a s IH]; [reflexivity |].
    change (String a s +:+ EmptyString) with (String a (s +:+ EmptyString)).
    f_equal. exact IH.
  - intros Hnull. apply skipWord_no_round. rewrite Hnull. reflexivity.
  - destruct (truthy (currentWord (this w))) eqn:Hcw.
    + rewrite (skipWord_shown w Hcw). reflexivity.
    + rewrite (skipWord_no_round w Hcw). reflexivity.
  - destruct (truthy (currentWord (this w))) eqn:Hcw.
    + rewrite (skipWord_shown w Hcw). reflexivity.
    + rewrite (skipWord_no_round w Hcw). reflexivity.
Qed.

Lemma skipWord_reveals_and_keeps_score_witness :
  let w := snd (nextWord (C := bool) 2 (8 # 30) (constructor true blank_page)) in
  currentWord (this w) = VString "鱼" /\
  exists evaluation w',
    skipWord w = (Return tt, w') /\
    message evaluation = "正确答案是: 鱼" /\
    events w' = events w ++ [Call_showResult evaluation] /\
    score (this w') = 0.
Proof.
  intros w.
  assert (Hcw : currentWord (this w) = VString "鱼") by reflexivity.
  split; [exact Hcw |].
  destruct (skipWord_reveals_and_keeps_score w) as (_ & Hshow & _).
  destruct (Hshow "鱼" Hcw ltac:(discriminate))
    as (evaluation & w' & Hrun & _ & _ & Hmsg & _ & Hev & _ & Hthis & _).
  exists evaluation, w'. split; [exact Hrun |]. split; [exact Hmsg |].
  split; [exact Hev |]. rewrite Hthis. reflexivity.
Defined.

(** ** The score over a run *)

Section ScoreFacts.
Context {C : Type} `{CanvasLike C}.
Implicit Types (w : World C) (r : Q).

Lemma sum_awarded_app (es es' : list Event) :
  sum_awarded (es ++ es') = sum_awarded es + sum_awarded es'.
Proof.
  unfold sum_awarded. induction es as [| e es IH]; cbn; [reflexivity |].
  rewrite IH. lia.
Qed.

Lemma scores_points_nonneg (i : Z) (evaluation : Evaluation) :
  js_index scores i = Some evaluation -> 0 <= points evaluation.
Proof.
  unfold js_index. destruct (i <? 0); [discriminate |].
  intros Hev. apply list_elem_of_lookup_2 in Hev. unfold scores in Hev.
  repeat (apply elem_of_cons in Hev as [-> | Hev]); cbn; try lia.
  inversion Hev.
Qed.

(** [getRandomWord] touches [usedWords] only. *)
Lemma getRandomWord_frame stack r w :
  let w' := snd (getRandomWord stack r w) in
  score (this w') = score (this w) /\ events w' = events w /\
  currentWord (this w') = currentWord (this w) /\ canvasObj w' = canvasObj w.
Proof.
  revert w. induction stack as [| stack IH]; intros w; [repeat split |].
  destruct (decide (candidates w = [])) as [Hnone | Hsome].
  - rewrite getRandomWord_retry by exact Hnone. apply (IH (reset_used w)).
  - rewrite getRandomWord_pick by exact Hsome. repeat split.
Qed.

Lemma nextWord_frame stack r w :
  let w' := snd (nextWord stack r w) in
  score (this w') = score (this w) /\
  sum_awarded (events w') = sum_awarded (events w).
Proof.
  pose proof (getRandomWord_frame stack r w) as (Hs & He & _).
  unfold nextWord, mbind, M_bind.
  destruct (getRandomWord stack r w) as [[v | e] w1]; cbn in Hs, He.
  - run_method. rewrite Hs, He, <- !app_assoc, sum_awarded_app. cbn. split; lia.
  - cbn. rewrite Hs, He. split; reflexivity.
Qed.

Lemma submitAnswer_frame r w :
  safe_integers 1 w ->
  let w' := snd (submitAnswer r w) in
  score (this w') - sum_awarded (events w') = score (this w) - sum_awarded (events w) /\
  score (this w) <= score (this w') <= score (this w) + 10.
Proof.
  intros Hsafe.
  destruct (truthy (currentWord (this w))) eqn:Hcw.
  - destruct (canvas_isEmpty (canvasObj w)) eqn:Hempty.
    + rewrite (submitAnswer_empty_canvas r w Hcw Hempty). cbn.
      rewrite sum_awarded_app. cbn. lia.
    + destruct (js_index scores (random_index r (length scores))) as [evaluation |] eqn:Hev.
      * rewrite (submitAnswer_scored r w evaluation Hcw Hempty Hev). cbn -[js_add].
        rewrite (submitAnswer_adds r w evaluation Hev Hsafe).
        rewrite sum_awarded_app. cbn.
        pose proof (scores_points_range _ _ Hev). lia.
      * rewrite (submitAnswer_undefined r w Hcw Hempty Hev). cbn.
        rewrite sum_awarded_app. cbn. lia.
  - rewrite (submitAnswer_no_round r w Hcw). cbn. rewrite sum_awarded_app. cbn. lia.
Qed.

Lemma skipWord_frame w :
  let w' := snd (skipWord w) in
  score (this w') = score (this w) /\
  sum_awarded (events w') = sum_awarded (events w).
Proof.
  destruct (truthy (currentWord (this w))) eqn:Hcw.
  - rewrite (skipWord_shown w Hcw). cbn. rewrite sum_awarded_app. cbn. split; lia.
  - rewrite (skipWord_no_round w Hcw). cbn. rewrite sum_awarded_app. cbn. split; lia.
Qed.

Lemma run_op_frame (op : Op) w :
  safe_integers (submissions [op]) w ->
  let w' := snd (run_op op w) in
  score (this w') - sum_awarded (events w') = score (this w) - sum_awarded (events w) /\
  score (this w) <= score (this w') <= score (this w) + 10 * Z.of_nat (submissions [op]).
Proof.
  intros Hsafe. destruct op as [stack r | r | | f]; cbn [run_op submissions].
  - destruct (nextWord_frame stack r w) as [Hs He]. cbv zeta. rewrite Hs, He. lia.
  - apply (submitAnswer_frame r w Hsafe).
  - destruct (skipWord_frame w) as [Hs He]. cbv zeta. rewrite Hs, He. lia.
  - unfold set_canvasObj, update. cbn [snd this score events]. lia.
Qed.

Lemma submissions_cons (op : @Op C) (ops : list (@Op C)) :
  submissions (op :: ops) = (submissions [op] + submissions ops)%nat.
Proof. destruct op; reflexivity. Qed.

Lemma run_op_keeps_score (op : Op) w :
  (forall r, op <> OpSubmitAnswer r) ->
  score (this (snd (run_op op w))) = score (this w).
Proof.
  intros Hop. destruct op as [stack r | r | | f]; cbn [run_op].
  - apply nextWord_frame.
  - now destruct (Hop r).
  - apply skipWord_frame.
  - reflexivity.
Qed.

(** Over a run in the safe range: the score moves with the points that
    were awarded, it does not go down, and a submission adds 10 at most. *)
Lemma run_ops_frame (ops : list Op) w :
  safe_integers (submissions ops) w ->
  let w' := snd (run_ops ops w) in
  score (this w') - sum_awarded (events w') = score (this w) - sum_awarded (events w) /\
  score (this w) <= score (this w') <= score (this w) + 10 * Z.of_nat (submissions ops).
Proof.
  revert w. induction ops as [| op ops IH]; intros w Hsafe; [cbn; lia |].
  rewrite submissions_cons in Hsafe |- *. destruct Hsafe as [Hlo Hhi].
  assert (Hone : safe_integers (submissions [op]) w) by (split; lia).
  pose proof (run_op_frame op w Hone) as Hop. cbv zeta in Hop.
  cbn [run_ops]. unfold mbind, M_bind.
  destruct (run_op op w) as [[[] | e] w1]; cbn [snd] in Hop |- *.
  - assert (Hrest : safe_integers (submissions ops) w1) by (split; lia).
    specialize (IH w1 Hrest). cbv zeta in IH. lia.
  - lia.
Qed.

Lemma points_for_eq r (evaluation : Evaluation) :
  js_index scores (random_index r (length scores)) = Some evaluation ->
  points_for r = points evaluation.
Proof. unfold points_for. now intros ->. Qed.

(** Submissions that pass both guards, one after the other. *)
Lemma run_submissions (rs : list Q) w :
  truthy (currentWord (this w)) = true -> canvas_isEmpty (canvasObj w) = false ->
  Forall unit_draw rs -> safe_integers (length rs) w ->
  exists w',
    run_ops (OpSubmitAnswer <$> rs) w = (Return tt, w') /\
    score (this w') = score (this w) + sum_list (points_for <$> rs).
Proof.
  intros Hcw Hfull Hrs. revert w Hcw Hfull.
  induction Hrs as [| r rs Hr Hrs IH]; intros w Hcw Hfull Hsafe.
  - exists w. cbn. split; [reflexivity | lia].
  - destruct (scores_at_draw r Hr) as (evaluation & Hev & _).
    pose proof (scores_points_range _ _ Hev) as Hpts.
    assert (Hone : safe_integers 1 w).
    { destruct Hsafe as [Hlo Hhi]. cbn [length] in Hhi. split; lia. }
    pose proof (submitAnswer_adds r w evaluation Hev Hone) as Hadd.
    pose proof (submitAnswer_scored r w evaluation Hcw Hfull Hev) as Hsub.
    rewrite Hadd in Hsub.
    match type of Hsub with _ = (_, ?w1) =>
      destruct (IH w1 Hcw Hfull) as (w' & Hrest & Hscore) end.
    { destruct Hsafe as [Hlo Hhi]. cbn [length] in Hhi.
      split; cbn [score this with_score]; lia. }
    exists w'. split.
    + rewrite fmap_cons. cbn [run_ops run_op]. unfold mbind, M_bind.
      rewrite Hsub. exact Hrest.
    + rewrite Hscore, fmap_cons, (points_for_eq r evaluation Hev).
      unfold sum_list. cbn [foldr score this with_score]. lia.
Qed.

End ScoreFacts.

(** C4. A new manager has score 0. Where the score stays a safe integer
    ([safe_integers]: from [-2^53] on, and with room below [2^53] for 10
    points per submission):
    submissions that pass both guards, one after the other with draws in
    [0, 1), all return, and the score after them is the score before plus
    the sum of the points that the scoring function returned for their
    draws; over every run of calls from a new manager ([nextWord],
    [submitAnswer], [skipWord], and the player's changes to the canvas in
    between, in any order and with any draws), the score is the sum of the
    points returned by the scoring function in that run; and no run makes
    the score smaller. In every state a call other than [submitAnswer]
    leaves the score as it is. *)
Theorem score_is_sum_of_points {C} `{CanvasLike C} :
  (forall (canvas : C) doc, score (this (constructor canvas doc)) = 0) /\
  (forall (w : World C) rs,
     truthy (currentWord (this w)) = true -> canvas_isEmpty (canvasObj w) = false ->
     Forall unit_draw rs -> safe_integers (length rs) w ->
     exists w',
       run_ops (OpSubmitAnswer <$> rs) w = (Return tt, w') /\
       score (this w') = score (this w) + sum_list (points_for <$> rs)) /\
  (forall (canvas : C) doc ops,
     safe_integers (submissions ops) (constructor canvas doc) ->
     let w' := snd (run_ops ops (constructor canvas doc)) in
     score (this w') = sum_awarded (events w')) /\
  (forall (op : Op) (w : World C),
     (forall r, op <> OpSubmitAnswer r) ->
     score (this (snd (run_op op w))) = score (this w)) /\
  (forall (ops : list Op) (w : World C),
     safe_integers (submissions ops) w ->
     score (this w) <= score (this (snd (run_ops ops w)))).
Proof.
  split; [reflexivity |]. split; [intros w rs; apply run_submissions |].
  split; [| split].
  - intros canvas doc ops Hsafe w'.
    pose proof (run_ops_frame ops (constructor canvas doc) Hsafe) as [Hinv _].
    fold w' in Hinv. cbn in Hinv. lia.
  - apply run_op_keeps_score.
  - intros ops w Hsafe. apply (run_ops_frame ops w Hsafe).
Qed.

Lemma score_is_sum_of_points_witness :
  let w := with_canvasObj false
             (snd (nextWord (C := bool) 2 0 (constructor true blank_page))) in
  safe_integers 3 w /\
  exists w',
    run_ops (OpSubmitAnswer <$> [0; 1 # 4; 3 # 4]%Q) w = (Return tt, w') /\
    score (this w') = 10 + 7 + 2.
Proof.
  intros w.
  assert (Hsafe : safe_integers 3 w) by (split; vm_compute; discriminate).
  split; [exact Hsafe |].
  destruct (@score_is_sum_of_points bool _) as (_ & Hsum & _).
  destruct (Hsum w [0; 1 # 4; 3 # 4]%Q) as (w' & Hrun & Hscore).
  - reflexivity.
  - reflexivity.
  - repeat constructor; discriminate.
  - exact Hsafe.
  - exists w'. split; [exact Hrun | rewrite Hscore; reflexivity].
Defined.

(** C10. Two states that differ in the canvas object only, both with a
    canvas that is not empty: [submitAnswer] on the same draw has the same
    outcome, leaves the same manager fields (the same score), the same page
    and the same events (the same evaluation shown), and each canvas as it
    was. The scoring function gives the same result and events whatever the
    canvas, empty or not. *)
Theorem submitAnswer_ignores_drawing {C} `{CanvasLike C} (w : World C) (c1 c2 : C) (r : Q) :
  canvas_isEmpty c1 = false -> canvas_isEmpty c2 = false ->
  let after1 := submitAnswer r (with_canvasObj c1 w) in
  let after2 := submitAnswer r (with_canvasObj c2 w) in
  fst after1 = fst after2 /\
  this (snd after1) = this (snd after2) /\
  document (snd after1) = document (snd after2) /\
  events (snd after1) = events (snd after2) /\
  canvasObj (snd after1) = c1 /\ canvasObj (snd after2) = c2 /\
  (forall (c c' : C) r',
     fst (evaluateDrawing r' (with_canvasObj c w)) = fst (evaluateDrawing r' (with_canvasObj c' w)) /\
     snd (evaluateDrawing r' (with_canvasObj c w))
       = with_canvasObj c (snd (evaluateDrawing r' (with_canvasObj c' w)))).
Proof.
  intros Hfull1 Hfull2 after1 after2. subst after1 after2.
  assert (Heval : forall (c c' : C) r',
     fst (evaluateDrawing r' (with_canvasObj c w)) = fst (evaluateDrawing r' (with_canvasObj c' w)) /\
     snd (evaluateDrawing r' (with_canvasObj c w))
       = with_canvasObj c (snd (evaluateDrawing r' (with_canvasObj c' w)))).
  { intros c c' r'. split; reflexivity. }
  destruct (truthy (currentWord (this w))) eqn:Hcw.
  - destruct (js_index scores (random_index r (length scores))) as [evaluation |] eqn:Hev.
    + rewrite (submitAnswer_scored r (with_canvasObj c1 w) evaluation Hcw Hfull1 Hev).
      rewrite (submitAnswer_scored r (with_canvasObj c2 w) evaluation Hcw Hfull2 Hev).
      repeat split; apply Heval.
    + rewrite (submitAnswer_undefined r (with_canvasObj c1 w) Hcw Hfull1 Hev).
      rewrite (submitAnswer_undefined r (with_canvasObj c2 w) Hcw Hfull2 Hev).
      repeat split; apply Heval.
  - rewrite (submitAnswer_no_round r (with_canvasObj c1 w) Hcw).
    rewrite (submitAnswer_no_round r (with_canvasObj c2 w) Hcw).
    repeat split; apply Heval.
Qed.

Lemma submitAnswer_ignores_drawing_witness :
  let sun := surface 1 1 half_size_box false [255; 255; 255; 255] in
  let moon := surface 1 1 half_size_box false [250; 250; 210; 255] in
  let w := snd (@nextWord _ sample_chalkboard 2 0 (constructor sun blank_page)) in
  @canvas_isEmpty _ sample_chalkboard sun = false /\
  @canvas_isEmpty _ sample_chalkboard moon = false /\
  this (snd (@submitAnswer _ sample_chalkboard (1 # 2) (with_canvasObj sun w)))
    = this (snd (@submitAnswer _ sample_chalkboard (1 # 2) (with_canvasObj moon w))).
Proof.
  intros sun moon w.
  assert (Hsun : @canvas_isEmpty _ sample_chalkboard sun = false) by reflexivity.
  assert (Hmoon : @canvas_isEmpty _ sample_chalkboard moon = false) by reflexivity.
  split; [exact Hsun |]. split; [exact Hmoon |].
  destruct (@submitAnswer_ignores_drawing _ sample_chalkboard w sun moon (1 # 2) Hsun Hmoon)
    as (_ & Hthis & _).
  exact Hthis.
Defined.

(** ** The cases of the manager test suite *)

Example constructor_defaults :
  let w := constructor false blank_page in
  currentWord (this w) = VNull /\ score (this w) = 0 /\ size (usedWords (this w)) = 0%nat.
Proof. repeat split. Qed.

Example submitAnswer_without_word :
  events (snd (submitAnswer 0 (playing VNull 0 false))) = [Alert msg_noActiveRound].
Proof. reflexivity. Qed.

Example submitAnswer_on_empty_canvas :
  events (snd (submitAnswer 0 (playing (VString "太阳") 0 true))) = [Alert msg_emptyCanvas].
Proof. reflexivity. Qed.

Example submitAnswer_adds_points :
  score (this (snd (submitAnswer 0 (playing (VString "太阳") 5 false)))) = 15.
Proof. reflexivity. Qed.

Example skipWord_shows_answer :
  events (snd (skipWord (playing (VString "鱼") 0 false)))
  = [Call_showResult {| success := false; points := 0; message := "正确答案是: 鱼" |}].
Proof. reflexivity. Qed.

Example usedWords_reset_after_last_word :
  let w30 := snd (getRandomWords 2 (repeat (1 # 2)%Q 30) (constructor false blank_page)) in
  size (usedWords (this w30)) = 30%nat /\
  size (usedWords (this (snd (getRandomWord 2 (1 # 2) w30)))) = 1%nat.
Proof. split; vm_compute; reflexivity. Qed.

Example nextWord_shows_word :
  let w := snd (nextWord 2 0 (constructor false blank_page)) in
  currentWord (this w) = VString "太阳" /\
  wordDisplay_textContent (document w) = "太阳" /\
  wordDisplay_className (document w) = "word active" /\
  "hidden" ∈ resultArea_classList (document w).
Proof. do 3 (split; [reflexivity |]). cbn. set_solver. Qed.

(** * More on DrawingCanvas *)

Section GestureFacts.
Context `{Rasterizer}.

Lemma chalkboard_getPosition_geometry e this this' :
  same_geometry (canvas this) (canvas this') ->
  Chalkboard.getPosition e this' = Chalkboard.getPosition e this.
Proof.
  intros (Hw & Hh & Hr). unfold Chalkboard.getPosition. now rewrite Hw, Hh, Hr.
Qed.

Lemma whiteboard_getPosition_geometry e this this' :
  same_geometry (canvas this) (canvas this') ->
  Whiteboard.getPosition e this' = Whiteboard.getPosition e this.
Proof.
  intros (Hw & Hh & Hr). unfold Whiteboard.getPosition. now rewrite Hr.
Qed.

(** What a run of moves does to a canvas that is drawing. *)
Lemma chalkboard_moves_while_drawing (es : list MouseEvent) this :
  isDrawing this = true ->
  let after := Chalkboard.dispatch (mousemove <$> es) this in
  isDrawing after = true /\
  currentColor after = currentColor this /\ brushSize after = brushSize this /\
  same_geometry (canvas this) (canvas after) /\
  path (ctx (canvas after))
    = path (ctx (canvas this)) ++ ((fun e => LineTo (Chalkboard.getPosition e this)) <$> es).
Proof.
  revert this. induction es as [| e es IH]; intros this Hdrawing.
  - cbn. rewrite app_nil_r. repeat split; try reflexivity; assumption.
  - cbn [fmap list_fmap]. unfold Chalkboard.dispatch. cbn [foldl].
    fold (Chalkboard.dispatch (mousemove <$> es)
            (snd (Chalkboard.handle (mousemove e) this))).
    set (next := snd (Chalkboard.handle (mousemove e) this)).
    assert (Hnext : isDrawing next = true /\ currentColor next = currentColor this /\
                    brushSize next = brushSize this /\
                    same_geometry (canvas this) (canvas next) /\
                    path (ctx (canvas next))
                      = path (ctx (canvas this)) ++ [LineTo (Chalkboard.getPosition e this)]).
    { subst next. unfold Chalkboard.handle, Chalkboard.draw. rewrite Hdrawing.
      cbn. repeat split. exact Hdrawing. }
    destruct Hnext as (Hd & Hc & Hb & Hg & Hp).
    destruct (IH next Hd) as (Hd' & Hc' & Hb' & Hg' & Hp').
    split; [exact Hd' |]. split; [congruence |]. split; [congruence |].
    split.
    + destruct Hg as (? & ? & ?), Hg' as (? & ? & ?). repeat split; congruence.
    + rewrite Hp', Hp, <- app_assoc. cbn. do 2 f_equal.
      apply list_fmap_ext. intros _ e' _.
      now rewrite (chalkboard_getPosition_geometry e' this next Hg).
Qed.

Lemma whiteboard_moves_while_drawing (es : list MouseEvent) this :
  isDrawing this = true ->
  let after := Whiteboard.dispatch (mousemove <$> es) this in
  isDrawing after = true /\
  currentColor after = currentColor this /\ brushSize after = brushSize this /\
  same_geometry (canvas this) (canvas after) /\
  path (ctx (canvas after))
    = path (ctx (canvas this)) ++ ((fun e => LineTo (Whiteboard.getPosition e this)) <$> es).
Proof.
  revert this. induction es as [| e es IH]; intros this Hdrawing.
  - cbn. rewrite app_nil_r. repeat split; try reflexivity; assumption.
  - cbn [fmap list_fmap]. unfold Whiteboard.dispatch. cbn [foldl].
    fold (Whiteboard.dispatch (mousemove <$> es)
            (snd (Whiteboard.handle (mousemove e) this))).
    set (next := snd (Whiteboard.handle (mousemove e) this)).
    assert (Hnext : isDrawing next = true /\ currentColor next = currentColor this /\
                    brushSize next = brushSize this /\
                    same_geometry (canvas this) (canvas next) /\
                    path (ctx (canvas next))
                      = path (ctx (canvas this)) ++ [LineTo (Whiteboard.getPosition e this)]).
    { subst next. unfold Whiteboard.handle, Whiteboard.draw. rewrite Hdrawing.
      cbn. repeat split. exact Hdrawing. }
    destruct Hnext as (Hd & Hc & Hb & Hg & Hp).
    destruct (IH next Hd) as (Hd' & Hc' & Hb' & Hg' & Hp').
    split; [exact Hd' |]. split; [congruence |]. split; [congruence |].
    split.
    + destruct Hg as (? & ? & ?), Hg' as (? & ? & ?). repeat split; congruence.
    + rewrite Hp', Hp, <- app_assoc. cbn. do 2 f_equal.
      apply list_fmap_ext. intros _ e' _.
      now rewrite (whiteboard_getPosition_geometry e' this next Hg).
Qed.

End GestureFacts.

Section StrokeFacts.
Context `{Rasterizer}.

Lemma chalkboard_dispatch_snoc evs ev this :
  Chalkboard.dispatch (evs ++ [ev]) this
  = snd (Chalkboard.handle ev (Chalkboard.dispatch evs this)).
Proof. unfold Chalkboard.dispatch. now rewrite foldl_app. Qed.

Lemma whiteboard_dispatch_snoc evs ev this :
  Whiteboard.dispatch (evs ++ [ev]) this
  = snd (Whiteboard.handle ev (Whiteboard.dispatch evs this)).
Proof. unfold Whiteboard.dispatch. now rewrite foldl_app. Qed.

Lemma chalkboard_press e0 this :
  let pressed := snd (Chalkboard.handle (mousedown e0) this) in
  isDrawing pressed = true /\
  currentColor pressed = currentColor this /\ brushSize pressed = brushSize this /\
  same_geometry (canvas this) (canvas pressed) /\
  path (ctx (canvas pressed)) = [MoveTo (Chalkboard.getPosition e0 this)] /\
  data (ctx (canvas pressed)) = data (ctx (canvas this)).
Proof. destruct this as [[w h rect k] d c b]. repeat split. Qed.

Lemma whiteboard_press e0 this :
  let pressed := snd (Whiteboard.handle (mousedown e0) this) in
  isDrawing pressed = true /\
  currentColor pressed = currentColor this /\ brushSize pressed = brushSize this /\
  same_geometry (canvas this) (canvas pressed) /\
  path (ctx (canvas pressed)) = [MoveTo (Whiteboard.getPosition e0 this)] /\
  data (ctx (canvas pressed)) = data (ctx (canvas this)).
Proof. destruct this as [[w h rect k] d c b]. repeat split. Qed.

Lemma chalkboard_gesture e0 (es : list MouseEvent) this :
  let after := Chalkboard.dispatch (mousedown e0 :: (mousemove <$> es)) this in
  isDrawing after = true /\
  currentColor after = currentColor this /\ brushSize after = brushSize this /\
  same_geometry (canvas this) (canvas after) /\
  path (ctx (canvas after)) = gesture_path (fun e => Chalkboard.getPosition e this) e0 es.
Proof.
  destruct (chalkboard_press e0 this) as (Hd & Hc & Hb & Hg & Hp & _).
  set (pressed := snd (Chalkboard.handle (mousedown e0) this)) in *.
  destruct (chalkboard_moves_while_drawing es pressed Hd) as (Hd' & Hc' & Hb' & Hg' & Hp').
  change (Chalkboard.dispatch (mousedown e0 :: (mousemove <$> es)) this)
    with (Chalkboard.dispatch (mousemove <$> es) pressed).
  split; [exact Hd' |]. split; [congruence |]. split; [congruence |]. split.
  - destruct Hg as (? & ? & ?), Hg' as (? & ? & ?). repeat split; congruence.
  - rewrite Hp', Hp. reflexivity.
Qed.

Lemma whiteboard_gesture e0 (es : list MouseEvent) this :
  let after := Whiteboard.dispatch (mousedown e0 :: (mousemove <$> es)) this in
  isDrawing after = true /\
  currentColor after = currentColor this /\ brushSize after = brushSize this /\
  same_geometry (canvas this) (canvas after) /\
  path (ctx (canvas after)) = gesture_path (fun e => Whiteboard.getPosition e this) e0 es.
Proof.
  destruct (whiteboard_press e0 this) as (Hd & Hc & Hb & Hg & Hp & _).
  set (pressed := snd (Whiteboard.handle (mousedown e0) this)) in *.
  destruct (whiteboard_moves_while_drawing es pressed Hd) as (Hd' & Hc' & Hb' & Hg' & Hp').
  change (Whiteboard.dispatch (mousedown e0 :: (mousemove <$> es)) this)
    with (Whiteboard.dispatch (mousemove <$> es) pressed).
  split; [exact Hd' |]. split; [congruence |]. split; [congruence |]. split.
  - destruct Hg as (? & ? & ?), Hg' as (? & ? & ?). repeat split; congruence.
  - rewrite Hp', Hp. reflexivity.
Qed.

(** What [draw] hands to the platform while drawing. *)
Lemma chalkboard_draw_strokes e this :
  isDrawing this = true ->
  exists k,
    data (ctx (canvas (snd (Chalkboard.draw (Some e) this)))) = stroke_pixels k /\
    path k = path (ctx (canvas this)) ++ [LineTo (Chalkboard.getPosition e this)] /\
    strokeStyle k = currentColor this /\ lineWidth k = brushSize this /\
    data k = data (ctx (canvas this)).
Proof.
  intros Hd. unfold Chalkboard.draw. rewrite Hd. cbn.
  eexists. split; [reflexivity |]. repeat split.
Qed.

Lemma whiteboard_draw_strokes e this :
  isDrawing this = true ->
  exists k,
    data (ctx (canvas (snd (Whiteboard.draw (Some e) this)))) = stroke_pixels k /\
    path k = path (ctx (canvas this)) ++ [LineTo (Whiteboard.getPosition e this)] /\
    strokeStyle k = currentColor this /\ lineWidth k = brushSize this /\
    data k = data (ctx (canvas this)).
Proof.
  intros Hd. unfold Whiteboard.draw. rewrite Hd. cbn.
  eexists. split; [reflexivity |]. repeat split.
Qed.

End StrokeFacts.

(** X1. In both variants a stroke is one path: after a press at [e0] and
    moves through [es], the canvas is drawing, colour, brush size and
    geometry are as before, and the path of the context is the move to the
    position of [e0] followed by one line per move, none dropped. The path
    is not reopened between moves: at the last move the platform strokes
    the path of the whole stroke, with the colour and width of the canvas
    at that moment. *)
Theorem stroke_is_one_growing_path (R : Rasterizer) (e0 e : MouseEvent)
    (es : list MouseEvent) (this : DrawingCanvas) :
  (let after := Chalkboard.dispatch (mousedown e0 :: (mousemove <$> es ++ [e])) this in
   let pos := fun e => Chalkboard.getPosition e this in
   isDrawing after = true /\
   currentColor after = currentColor this /\ brushSize after = brushSize this /\
   same_geometry (canvas this) (canvas after) /\
   path (ctx (canvas after)) = gesture_path pos e0 (es ++ [e]) /\
   exists k,
     data (ctx (canvas after)) = stroke_pixels k /\
     path k = gesture_path pos e0 (es ++ [e]) /\
     strokeStyle k = currentColor this /\ lineWidth k = brushSize this) /\
  (let after := Whiteboard.dispatch (mousedown e0 :: (mousemove <$> es ++ [e])) this in
   let pos := fun e => Whiteboard.getPosition e this in
   isDrawing after = true /\
   currentColor after = currentColor this /\ brushSize after = brushSize this /\
   same_geometry (canvas this) (canvas after) /\
   path (ctx (canvas after)) = gesture_path pos e0 (es ++ [e]) /\
   exists k,
     data (ctx (canvas after)) = stroke_pixels k /\
     path k = gesture_path pos e0 (es ++ [e]) /\
     strokeStyle k = currentColor this /\ lineWidth k = brushSize this).
Proof.
  split.
  - intros after pos.
    destruct (chalkboard_gesture e0 (es ++ [e]) this) as (Hd & Hc & Hb & Hg & Hp).
    fold after in Hd, Hc, Hb, Hg, Hp.
    do 4 (split; [assumption |]). split; [exact Hp |].
    destruct (chalkboard_gesture e0 es this) as (Hd1 & Hc1 & Hb1 & Hg1 & Hp1).
    set (before := Chalkboard.dispatch (mousedown e0 :: (mousemove <$> es)) this) in *.
    assert (Hafter : after = snd (Chalkboard.draw (Some e) before)).
    { subst after before. rewrite fmap_app, app_comm_cons.
      exact (chalkboard_dispatch_snoc _ (mousemove e) this). }
    destruct (chalkboard_draw_strokes e before Hd1) as (k & Hk & Hpk & Hsk & Hwk & _).
    exists k. rewrite Hafter. split; [exact Hk |].
    split; [| split; congruence].
    rewrite Hpk, Hp1, (chalkboard_getPosition_geometry e this before Hg1).
    unfold gesture_path. now rewrite fmap_app.
  - intros after pos.
    destruct (whiteboard_gesture e0 (es ++ [e]) this) as (Hd & Hc & Hb & Hg & Hp).
    fold after in Hd, Hc, Hb, Hg, Hp.
    do 4 (split; [assumption |]). split; [exact Hp |].
    destruct (whiteboard_gesture e0 es this) as (Hd1 & Hc1 & Hb1 & Hg1 & Hp1).
    set (before := Whiteboard.dispatch (mousedown e0 :: (mousemove <$> es)) this) in *.
    assert (Hafter : after = snd (Whiteboard.draw (Some e) before)).
    { subst after before. rewrite fmap_app, app_comm_cons.
      exact (whiteboard_dispatch_snoc _ (mousemove e) this). }
    destruct (whiteboard_draw_strokes e before Hd1) as (k & Hk & Hpk & Hsk & Hwk & _).
    exists k. rewrite Hafter. split; [exact Hk |].
    split; [| split; congruence].
    rewrite Hpk, Hp1, (whiteboard_getPosition_geometry e this before Hg1).
    unfold gesture_path. now rewrite fmap_app.
Qed.

Section IdleFacts.
Context `{Rasterizer}.

(** A canvas that is idle stays idle, keeps its bitmap and throws nothing
    over events that are no press. *)
Lemma chalkboard_idle_run (evs : list CanvasEvent) this :
  isDrawing this = false -> Forall (fun ev => is_press ev = false) evs ->
  let after := Chalkboard.dispatch evs this in
  isDrawing after = false /\
  data (ctx (canvas after)) = data (ctx (canvas this)) /\
  currentColor after = currentColor this /\ brushSize after = brushSize this /\
  handled_normally Chalkboard.handle evs this.
Proof.
  intros Hidle Hevs. revert this Hidle.
  induction Hevs as [| ev evs Hev Hevs IH]; intros this Hidle; [repeat split; assumption |].
  assert (Hstep : fst (Chalkboard.handle ev this) = Return tt /\
                  isDrawing (snd (Chalkboard.handle ev this)) = false /\
                  data (ctx (canvas (snd (Chalkboard.handle ev this)))) = data (ctx (canvas this)) /\
                  currentColor (snd (Chalkboard.handle ev this)) = currentColor this /\
                  brushSize (snd (Chalkboard.handle ev this)) = brushSize this).
  { destruct ev as [e | e | | | ts | ts |]; try discriminate Hev;
      cbn [Chalkboard.handle]; unfold Chalkboard.draw; rewrite ?Hidle; repeat split;
      assumption. }
  destruct Hstep as (Hret & Hd & Hdata & Hc & Hb).
  destruct (IH _ Hd) as (Hd' & Hdata' & Hc' & Hb' & Hn').
  change (Chalkboard.dispatch (ev :: evs) this)
    with (Chalkboard.dispatch evs (snd (Chalkboard.handle ev this))).
  repeat split; try congruence; assumption.
Qed.

Lemma whiteboard_idle_run (evs : list CanvasEvent) this :
  isDrawing this = false -> Forall (fun ev => is_press ev = false) evs ->
  let after := Whiteboard.dispatch evs this in
  isDrawing after = false /\
  data (ctx (canvas after)) = data (ctx (canvas this)) /\
  currentColor after = currentColor this /\ brushSize after = brushSize this /\
  handled_normally Whiteboard.handle evs this.
Proof.
  intros Hidle Hevs. revert this Hidle.
  induction Hevs as [| ev evs Hev Hevs IH]; intros this Hidle; [repeat split; assumption |].
  assert (Hstep : fst (Whiteboard.handle ev this) = Return tt /\
                  isDrawing (snd (Whiteboard.handle ev this)) = false /\
                  data (ctx (canvas (snd (Whiteboard.handle ev this)))) = data (ctx (canvas this)) /\
                  currentColor (snd (Whiteboard.handle ev this)) = currentColor this /\
                  brushSize (snd (Whiteboard.handle ev this)) = brushSize this).
  { destruct ev as [e | e | | | ts | ts |]; try discriminate Hev;
      cbn [Whiteboard.handle]; unfold Whiteboard.draw; rewrite ?Hidle; repeat split;
      assumption. }
  destruct Hstep as (Hret & Hd & Hdata & Hc & Hb).
  destruct (IH _ Hd) as (Hd' & Hdata' & Hc' & Hb' & Hn').
  change (Whiteboard.dispatch (ev :: evs) this)
    with (Whiteboard.dispatch evs (snd (Whiteboard.handle ev this))).
  repeat split; try congruence; assumption.
Qed.

End IdleFacts.

(** X2. In both variants, whatever the canvas was doing, a release
    ([mouseup], [mouseout] or [touchend]) followed by any events that are
    no press (moves, also touch moves with no touch at all, and further
    releases) throws nothing, ends idle, and leaves the bitmap, the colour
    and the brush size as they were before the release: nothing is drawn
    until the next press. *)
Theorem nothing_drawn_between_release_and_press (R : Rasterizer)
    (ev : CanvasEvent) (evs : list CanvasEvent) (this : DrawingCanvas) :
  is_release ev = true -> Forall (fun ev' => is_press ev' = false) evs ->
  (let after := Chalkboard.dispatch (ev :: evs) this in
   handled_normally Chalkboard.handle (ev :: evs) this /\
   isDrawing after = false /\
   data (ctx (canvas after)) = data (ctx (canvas this)) /\
   currentColor after = currentColor this /\ brushSize after = brushSize this) /\
  (let after := Whiteboard.dispatch (ev :: evs) this in
   handled_normally Whiteboard.handle (ev :: evs) this /\
   isDrawing after = false /\
   data (ctx (canvas after)) = data (ctx (canvas this)) /\
   currentColor after = currentColor this /\ brushSize after = brushSize this).
Proof.
  intros Hrel Hevs. split.
  - assert (Hstop : Chalkboard.handle ev this = (Return tt, Chalkboard.stopDrawing this))
      by (destruct ev; try discriminate Hrel; reflexivity).
    destruct (chalkboard_idle_run evs (Chalkboard.stopDrawing this) eq_refl Hevs)
      as (Hd & Hdata & Hc & Hb & Hn).
    change (Chalkboard.dispatch (ev :: evs) this)
      with (Chalkboard.dispatch evs (snd (Chalkboard.handle ev this))).
    cbn [handled_normally]. rewrite Hstop. cbn [fst snd].
    split; [split; [reflexivity | exact Hn] |].
    split; [exact Hd |]. split; [exact Hdata |]. split; assumption.
  - assert (Hstop : Whiteboard.handle ev this = (Return tt, Whiteboard.stopDrawing this))
      by (destruct ev; try discriminate Hrel; reflexivity).
    destruct (whiteboard_idle_run evs (Whiteboard.stopDrawing this) eq_refl Hevs)
      as (Hd & Hdata & Hc & Hb & Hn).
    change (Whiteboard.dispatch (ev :: evs) this)
      with (Whiteboard.dispatch evs (snd (Whiteboard.handle ev this))).
    cbn [handled_normally]. rewrite Hstop. cbn [fst snd].
    split; [split; [reflexivity | exact Hn] |].
    split; [exact Hd |]. split; [exact Hdata |]. split; assumption.
Qed.

Lemma nothing_drawn_between_release_and_press_witness :
  let this := surface 800 600 half_size_box true chalk in
  let evs := [mousemove {| clientX := 10; clientY := 10 |}; touchmove []; touchend] in
  is_release mouseout = true /\
  @Chalkboard.dispatch sample_rasterizer (mouseout :: evs) this
    = Chalkboard.stopDrawing this.
Proof.
  intros this evs. split; [reflexivity |].
  destruct (nothing_drawn_between_release_and_press sample_rasterizer mouseout evs this)
    as ((_ & Hd & _) & _).
  - reflexivity.
  - repeat constructor.
  - reflexivity.
Defined.

(** X3. In both variants [setColor] and [setBrushSize] change their field
    and nothing of the canvas element. While drawing, the next [draw]
    copies them to the context and has the platform stroke the whole path
    of the stroke so far, extended to the new position, in the new colour
    and width: the segments drawn before the change are stroked again in
    the new style. *)
Theorem style_change_restrokes_path (R : Rasterizer) (color : string) (size : float)
    (e : MouseEvent) (this : DrawingCanvas) :
  isDrawing this = true ->
  (canvas (Chalkboard.setBrushSize size (Chalkboard.setColor color this)) = canvas this /\
   exists k,
     data (ctx (canvas (snd (Chalkboard.draw (Some e)
             (Chalkboard.setBrushSize size (Chalkboard.setColor color this))))))
       = stroke_pixels k /\
     path k = path (ctx (canvas this)) ++ [LineTo (Chalkboard.getPosition e this)] /\
     strokeStyle k = color /\ lineWidth k = size /\
     data k = data (ctx (canvas this))) /\
  (canvas (Whiteboard.setBrushSize size (Whiteboard.setColor color this)) = canvas this /\
   exists k,
     data (ctx (canvas (snd (Whiteboard.draw (Some e)
             (Whiteboard.setBrushSize size (Whiteboard.setColor color this))))))
       = stroke_pixels k /\
     path k = path (ctx (canvas this)) ++ [LineTo (Whiteboard.getPosition e this)] /\
     strokeStyle k = color /\ lineWidth k = size /\
     data k = data (ctx (canvas this))).
Proof.
  intros Hd. split; (split; [reflexivity |]).
  - apply (chalkboard_draw_strokes e
             (Chalkboard.setBrushSize size (Chalkboard.setColor color this)) Hd).
  - apply (whiteboard_draw_strokes e
             (Whiteboard.setBrushSize size (Whiteboard.setColor color this)) Hd).
Qed.

Lemma style_change_restrokes_path_witness :
  let this :=
    @Chalkboard.dispatch sample_rasterizer
      [mousedown {| clientX := 1; clientY := 1 |}; mousemove {| clientX := 2; clientY := 2 |}]
      (surface 2 2 half_size_box false (chalk ++ chalk ++ chalk ++ chalk)) in
  isDrawing this = true /\
  exists k,
    data (ctx (canvas (snd (@Chalkboard.draw sample_rasterizer
            (Some {| clientX := 3; clientY := 3 |})
            (Chalkboard.setBrushSize 9 (Chalkboard.setColor "#ff0000" this))))))
      = @stroke_pixels sample_rasterizer k /\
    length (path k) = 3%nat /\ strokeStyle k = "#ff0000" /\ lineWidth k = 9%float.
Proof.
  intros this.
  assert (Hd : isDrawing this = true) by reflexivity.
  split; [exact Hd |].
  destruct (style_change_restrokes_path sample_rasterizer "#ff0000" 9
              {| clientX := 3; clientY := 3 |} this Hd)
    as ((_ & k & Hk & Hp & Hs & Hw & _) & _).
  exists k. split; [exact Hk |]. split; [rewrite Hp; reflexivity |]. split; assumption.
Defined.

(** ** Clearing and construction *)

Lemma sample_rasterizer_fills (c : CanvasElement) :
  @fills_whole_canvas sample_rasterizer c.
Proof.
  intros k rgb Hrgb. cbn. rewrite Hrgb. eexists. reflexivity.
Qed.

Lemma solid_length (rgb : Z * Z * Z) (n : nat) : length (solid rgb n) = (4 * n)%nat.
Proof.
  unfold solid, bitmap. induction n as [| n IH]; [reflexivity |].
  cbn [repeat]. rewrite bind_cons, length_app, IH. cbn. lia.
Qed.

Lemma chalkboard_isEmpty_solid (this : DrawingCanvas) (rgb : Z * Z * Z) (n : nat) :
  data (ctx (canvas this)) = solid rgb n ->
  Chalkboard.isEmpty this = true <->
  (n = 0%nat \/ pixel_within 5 45 52 54
                  {| red := rgb.1.1; green := rgb.1.2; blue := rgb.2; alpha := 255 |}).
Proof.
  intros Hdata. unfold Chalkboard.isEmpty, Chalkboard.getImageData.
  rewrite Hdata. unfold solid. rewrite trip_count_bitmap, chalkboard_loop_bitmap.
  destruct n as [| n]; [split; [now left | constructor] |].
  split.
  - intros Hall. right. now inversion Hall.
  - intros [Hn | Hpx]; [discriminate Hn |]. apply Forall_forall.
    intros p Hp. apply list_elem_of_In, repeat_spec in Hp. now subst p.
Qed.

Lemma whiteboard_isEmpty_solid (this : DrawingCanvas) (rgb : Z * Z * Z) (n : nat) :
  data (ctx (canvas this)) = solid rgb n ->
  Whiteboard.isEmpty this = true <-> (n = 0%nat \/ rgb = (255, 255, 255)).
Proof.
  intros Hdata. unfold Whiteboard.isEmpty, Whiteboard.getImageData.
  rewrite Hdata. unfold solid. rewrite trip_count_bitmap, whiteboard_loop_bitmap.
  destruct rgb as [[r g] b]. cbn [fst snd].
  destruct n as [| n]; [split; [now left | constructor] |].
  split.
  - intros Hall. right. inversion Hall as [| ? ? (Hr & Hg & Hb) _].
    cbn in Hr, Hg, Hb. congruence.
  - intros [Hn | Hpx]; [discriminate Hn |]. injection Hpx as -> -> ->.
    apply Forall_forall.
    intros p Hp. apply list_elem_of_In, repeat_spec in Hp. now subst p.
Qed.

Section ClearFacts.
Context `{Rasterizer}.

Lemma chalkboard_clear_data this :
  fills_whole_canvas (canvas this) ->
  exists n, data (ctx (canvas (Chalkboard.clear this))) = solid (45, 52, 54) n.
Proof. intros Hfill. apply (Hfill _ (45, 52, 54)). reflexivity. Qed.

Lemma whiteboard_clear_data this :
  fills_whole_canvas (canvas this) ->
  exists n, data (ctx (canvas (Whiteboard.clear this))) = solid (255, 255, 255) n.
Proof. intros Hfill. apply (Hfill _ (255, 255, 255)). reflexivity. Qed.

End ClearFacts.

(** X4. On a platform whose [fillRect] over the whole canvas paints every
    pixel in the fill colour, [clear()] followed by [isEmpty()] answers
    true, in each variant: the colour that [clear] fills with is the one
    that [isEmpty] compares with. [clear] touches the fill style and the
    bitmap only: it does not end a stroke in progress, and the path of that
    stroke stays in the context. The two variants do not mix: a canvas that
    one variant has cleared, with at least one pixel, is not empty for the
    other. *)
Theorem clear_then_isEmpty (R : Rasterizer) (this : DrawingCanvas) :
  fills_whole_canvas (canvas this) ->
  (Chalkboard.isEmpty (Chalkboard.clear this) = true /\
   Whiteboard.isEmpty (Whiteboard.clear this) = true) /\
  (isDrawing (Chalkboard.clear this) = isDrawing this /\
   path (ctx (canvas (Chalkboard.clear this))) = path (ctx (canvas this)) /\
   currentColor (Chalkboard.clear this) = currentColor this /\
   brushSize (Chalkboard.clear this) = brushSize this /\
   strokeStyle (ctx (canvas (Chalkboard.clear this))) = strokeStyle (ctx (canvas this)) /\
   same_geometry (canvas this) (canvas (Chalkboard.clear this))) /\
  (isDrawing (Whiteboard.clear this) = isDrawing this /\
   path (ctx (canvas (Whiteboard.clear this))) = path (ctx (canvas this)) /\
   currentColor (Whiteboard.clear this) = currentColor this /\
   brushSize (Whiteboard.clear this) = brushSize this /\
   strokeStyle (ctx (canvas (Whiteboard.clear this))) = strokeStyle (ctx (canvas this)) /\
   same_geometry (canvas this) (canvas (Whiteboard.clear this))) /\
  (data (ctx (canvas (Chalkboard.clear this))) <> [] ->
   Whiteboard.isEmpty (Chalkboard.clear this) = false) /\
  (data (ctx (canvas (Whiteboard.clear this))) <> [] ->
   Chalkboard.isEmpty (Whiteboard.clear this) = false).
Proof.
  intros Hfill.
  destruct (chalkboard_clear_data this Hfill) as (n & Hn).
  destruct (whiteboard_clear_data this Hfill) as (m & Hm).
  split; [split |]; [| | split; [| split; [| split]]].
  - apply (chalkboard_isEmpty_solid _ _ _ Hn). right.
    unfold pixel_within, within. cbn. lia.
  - apply (whiteboard_isEmpty_solid _ _ _ Hm). now right.
  - repeat split.
  - repeat split.
  - intros Hne. apply not_true_is_false. intros Hempty.
    apply (whiteboard_isEmpty_solid _ _ _ Hn) in Hempty as [-> | Hrgb].
    + rewrite Hn in Hne. now apply Hne.
    + discriminate Hrgb.
  - intros Hne. apply not_true_is_false. intros Hempty.
    apply (chalkboard_isEmpty_solid _ _ _ Hm) in Hempty as [-> | Hpx].
    + rewrite Hm in Hne. now apply Hne.
    + destruct Hpx as (Hr & _). unfold within in Hr. cbn in Hr. lia.
Qed.

Lemma clear_then_isEmpty_witness :
  let this := surface 2 1 half_size_box true [255; 255; 255; 255; 0; 0; 0; 255] in
  @fills_whole_canvas sample_rasterizer (canvas this) /\
  @Chalkboard.isEmpty (@Chalkboard.clear sample_rasterizer this) = true /\
  Chalkboard.isEmpty this = false.
Proof.
  intros this.
  pose proof (sample_rasterizer_fills (canvas this)) as Hfill.
  split; [exact Hfill |].
  destruct (clear_then_isEmpty sample_rasterizer this Hfill) as ((Hempty & _) & _).
  split; [exact Hempty | reflexivity].
Defined.

(** X5. On such a platform a new canvas is idle, has the defaults of its
    variant (chalkboard: 800 by 600, white chalk; white background: 600 by
    400, black pen; brush size 3, round caps and joins, the background as
    fill style), and [isEmpty()] answers true for it. *)
Theorem new_canvas_is_idle_and_empty (R : Rasterizer) (S : Resizer) (c : CanvasElement) :
  fills_whole_canvas (canvas_set_height 600 (canvas_set_width 800 c)) ->
  fills_whole_canvas (canvas_set_height 400 (canvas_set_width 600 c)) ->
  (let this := Chalkboard.constructor c in
   isDrawing this = false /\ currentColor this = "#ffffff" /\ brushSize this = 3%float /\
   width (canvas this) = 800%float /\ height (canvas this) = 600%float /\
   lineCap (ctx (canvas this)) = "round" /\ lineJoin (ctx (canvas this)) = "round" /\
   fillStyle (ctx (canvas this)) = "#2d3436" /\
   Chalkboard.isEmpty this = true) /\
  (let this := Whiteboard.constructor c in
   isDrawing this = false /\ currentColor this = "#000000" /\ brushSize this = 3%float /\
   width (canvas this) = 600%float /\ height (canvas this) = 400%float /\
   lineCap (ctx (canvas this)) = "round" /\ lineJoin (ctx (canvas this)) = "round" /\
   fillStyle (ctx (canvas this)) = "#ffffff" /\
   Whiteboard.isEmpty this = true).
Proof.
  intros Hchalk Hwhite. split.
  - intros this. do 8 (split; [reflexivity |]).
    subst this. unfold Chalkboard.constructor, Chalkboard.setupCanvas.
    match goal with |- Chalkboard.isEmpty (Chalkboard.clear ?t) = true =>
      destruct (chalkboard_clear_data t Hchalk) as (n & Hn);
      apply (chalkboard_isEmpty_solid _ _ _ Hn)
    end.
    right. unfold pixel_within, within. cbn. lia.
  - intros this. do 8 (split; [reflexivity |]).
    subst this. unfold Whiteboard.constructor, Whiteboard.setupCanvas.
    match goal with |- Whiteboard.isEmpty (Whiteboard.clear ?t) = true =>
      destruct (whiteboard_clear_data t Hwhite) as (n & Hn);
      apply (whiteboard_isEmpty_solid _ _ _ Hn)
    end.
    now right.
Qed.

Lemma new_canvas_is_idle_and_empty_witness :
  let c := canvas (surface 300 150 half_size_box false []) in
  @Chalkboard.isEmpty (@Chalkboard.constructor sample_rasterizer sample_resizer c) = true /\
  length (data (ctx (canvas (@Chalkboard.constructor sample_rasterizer sample_resizer c))))
    = 16%nat.
Proof.
  intros c.
  destruct (new_canvas_is_idle_and_empty sample_rasterizer sample_resizer c)
    as ((_ & _ & _ & _ & _ & _ & _ & _ & Hempty) & _).
  - apply sample_rasterizer_fills.
  - apply sample_rasterizer_fills.
  - split; [exact Hempty | reflexivity].
Defined.

(** * More on GameManager *)

Section RoundFacts.
Context {C : Type} `{CanvasLike C}.
Implicit Types (w : World C) (r : Q).

Lemma candidates_not_used w s : s ∈ candidates w -> VString s ∉ usedWords (this w).
Proof. unfold candidates, availableWords. rewrite list_elem_of_filter. tauto. Qed.

(** What one call of [getRandomWord] returns and leaves, with room for
    two frames and a draw in range. *)
Lemma getRandomWord_result stack r w :
  pool w <> [] -> (2 <= stack)%nat -> unit_draw r ->
  exists s w',
    getRandomWord stack r w = (Return (VString s), w') /\
    s ∈ pool w /\ (candidates w <> [] -> s ∈ candidates w) /\
    w' = mark_used (VString s) (if decide (candidates w = []) then reset_used w else w).
Proof.
  intros Hpool Hstack Hr. destruct stack as [| [| stack]]; [lia | lia |].
  destruct (getRandomWord_two_frames stack r w Hpool) as (v & w' & Hrun & _ & Hpick & Hretry).
  destruct (decide (candidates w = [])) as [Hnone | Hsome].
  - destruct (Hretry Hnone) as (_ & _ & Hv & Hw').
    destruct (word_at_random (pool w) r Hr Hpool) as (s & Hs & Hat).
    rewrite Hat in Hv. subst v. exists s, w'.
    split; [exact Hrun |]. split; [exact Hs |]. split; [intros Hne; contradiction | exact Hw'].
  - destruct (Hpick Hsome) as (_ & Hv & Hw').
    destruct (word_at_random (candidates w) r Hr Hsome) as (s & Hs & Hat).
    rewrite Hat in Hv. subst v. exists s, w'.
    split; [exact Hrun |]. split; [now apply candidates_subseteq |].
    split; [intros _; exact Hs | exact Hw'].
Qed.

Lemma nextWord_after_word stack r w s w1 :
  getRandomWord stack r w = (Return (VString s), w1) ->
  nextWord stack r w =
    (Return tt,
     {| this := with_currentWord (VString s) (this w1);
        canvasObj := canvas_clear (canvasObj w1);
        document :=
          {| wordDisplay_textContent :=
               if truthy (VString s) then s else "点击开始游戏";
             wordDisplay_className :=
               if truthy (VString s) then "word active" else "word";
             scoreDisplay_textContent := scoreDisplay_textContent (document w1);
             resultArea_classList := resultArea_classList (document w1) ∪ {["hidden"]};
             resultTitle_textContent := resultTitle_textContent (document w1);
             resultMessage_innerHTML := resultMessage_innerHTML (document w1) |};
        events := events w1 ++ [Call_updateWordDisplay; Call_hideResult;
                                ConsoleLog "📝 新词汇:" (VString s)] |}).
Proof.
  intros Hword. unfold nextWord, mbind, M_bind. rewrite Hword.
  run_method. rewrite <- !app_assoc. reflexivity.
Qed.

End RoundFacts.

(** X6. In a state whose pool is not empty, with room for two frames and
    a draw in [0, 1), [nextWord] returns normally. Afterwards [currentWord]
    is a word of the pool that is in [usedWords], and one that was not in
    [usedWords] before unless all were; the shared canvas is the old one
    cleared; the result area is hidden; score and pool are as before; the
    word display and the console have been written once each, and when the
    word is not the empty string the word display shows it with the class
    [word active]. *)
Theorem nextWord_starts_round {C} `{CanvasLike C} (w : World C) (stack : nat) (r : Q) :
  pool w <> [] -> (2 <= stack)%nat -> unit_draw r ->
  exists s w',
    nextWord stack r w = (Return tt, w') /\
    s ∈ pool w /\
    currentWord (this w') = VString s /\
    VString s ∈ usedWords (this w') /\
    (candidates w <> [] -> VString s ∉ usedWords (this w)) /\
    canvasObj w' = canvas_clear (canvasObj w) /\
    "hidden" ∈ resultArea_classList (document w') /\
    score (this w') = score (this w) /\
    wordList (this w') = wordList (this w) /\
    events w' = events w ++ [Call_updateWordDisplay; Call_hideResult;
                             ConsoleLog "📝 新词汇:" (VString s)] /\
    (s <> EmptyString ->
     wordDisplay_textContent (document w') = s /\
     wordDisplay_className (document w') = "word active").
Proof.
  intros Hpool Hstack Hr.
  destruct (getRandomWord_result stack r w Hpool Hstack Hr) as (s & w1 & Hrun & Hs & Hfresh & Hw1).
  exists s. eexists. split; [apply (nextWord_after_word stack r w s w1 Hrun) |].
  split; [exact Hs |]. split; [reflexivity |]. cbn.
  split; [rewrite Hw1; cbn; set_solver |].
  split; [intros Hsome; apply candidates_not_used, Hfresh, Hsome |].
  split; [rewrite Hw1; destruct (decide (candidates w = [])); reflexivity |].
  split; [set_solver |].
  split; [rewrite Hw1; destruct (decide (candidates w = [])); reflexivity |].
  split; [rewrite Hw1; destruct (decide (candidates w = [])); reflexivity |].
  split; [rewrite Hw1; destruct (decide (candidates w = [])); reflexivity |].
  intros Hne.
  assert (Htruthy : negb (bool_decide (s = EmptyString)) = true)
    by (apply negb_true_iff, bool_decide_eq_false; exact Hne).
  rewrite Htruthy. split; reflexivity.
Qed.

Lemma nextWord_starts_round_witness :
  let w := constructor false blank_page in
  exists w',
    nextWord 2 (16 # 30) w = (Return tt, w') /\
    currentWord (this w') = VString "眼镜" /\
    wordDisplay_textContent (document w') = "眼镜".
Proof.
  intros w.
  destruct (nextWord_starts_round w 2 (16 # 30)) as (s & w' & Hrun & _ & Hcw & _).
  - discriminate.
  - lia.
  - split; [discriminate | reflexivity].
  - exists w'. split; [exact Hrun |].
    assert (Hw' : w' = snd (nextWord 2 (16 # 30) w)) by (rewrite Hrun; reflexivity).
    rewrite Hw'. split; reflexivity.
Defined.

(** X7. Two calls of [getRandomWord] in a row (two frames, draws in
    [0, 1), a pool that is not empty) return two words, and the two differ
    whenever a candidate is left after the first call. When the first call
    takes the last candidate, the second one clears [usedWords] and picks
    from the whole pool: for some draw it returns the very same word
    again. *)
Theorem successive_words_differ {C} (w : World C) (stack : nat) (r1 r2 : Q) :
  pool w <> [] -> (2 <= stack)%nat -> unit_draw r1 -> unit_draw r2 ->
  (exists s1 w1 s2 w2,
     getRandomWord stack r1 w = (Return (VString s1), w1) /\
     getRandomWord stack r2 w1 = (Return (VString s2), w2) /\
     (candidates w1 <> [] -> s1 <> s2)) /\
  (forall s, candidates w = [s] ->
     exists w1 r w2,
       unit_draw r /\
       getRandomWord stack r1 w = (Return (VString s), w1) /\
       candidates w1 = [] /\
       getRandomWord stack r w1 = (Return (VString s), w2) /\
       usedWords (this w2) = {[VString s]}).
Proof.
  intros Hpool Hstack Hr1 Hr2.
  destruct (getRandomWord_result (C := C) stack r1 w Hpool Hstack Hr1)
    as (s1 & w1 & Hrun1 & Hs1 & Hfresh1 & Hw1).
  assert (Hpool1 : pool w1 = pool w).
  { rewrite Hw1. destruct (decide (candidates w = [])); reflexivity. }
  assert (Hne1 : pool w1 <> []) by (rewrite Hpool1; exact Hpool).
  split.
  - destruct (getRandomWord_result (C := C) stack r2 w1 Hne1 Hstack Hr2)
      as (s2 & w2 & Hrun2 & Hs2 & Hfresh2 & Hw2).
    exists s1, w1, s2, w2. split; [exact Hrun1 |]. split; [exact Hrun2 |].
    intros Hsome Heq. subst s2.
    apply (candidates_not_used (C := C) w1 s1 (Hfresh2 Hsome)).
    apply (getRandomWord_marks _ _ _ _ _ Hrun1).
  - intros s Hone.
    assert (Hs : s1 = s).
    { assert (Hin : s1 ∈ candidates w) by (apply Hfresh1; rewrite Hone; discriminate).
      rewrite Hone in Hin. now apply list_elem_of_singleton in Hin. }
    subst s1.
    assert (Hw1' : w1 = mark_used (VString s) w).
    { rewrite Hw1. destruct (decide (candidates w = [])) as [Hnone | _]; [| reflexivity].
      rewrite Hone in Hnone. discriminate Hnone. }
    assert (Hnone1 : candidates w1 = []).
    { rewrite Hw1', candidates_mark, Hone. rewrite filter_cons_False by tauto. reflexivity. }
    apply list_elem_of_lookup in Hs1 as [i Hi]. rewrite <- Hpool1 in Hi.
    pose proof (lookup_lt_Some _ _ _ Hi) as Hlt.
    destruct (random_index_hit i (length (pool w1)) Hlt) as [Hunit Hidx].
    destruct (getRandomWord_result (C := C) stack
                (Z.of_nat i # Pos.of_nat (length (pool w1))) w1 Hne1 Hstack Hunit)
      as (s2 & w2 & Hrun2 & _ & _ & Hw2).
    destruct stack as [| [| stack]]; [lia | lia |].
    destruct (getRandomWord_two_frames stack (Z.of_nat i # Pos.of_nat (length (pool w1))) w1 Hne1)
      as (v & w2' & Hrun2' & _ & _ & Hretry).
    destruct (Hretry Hnone1) as (_ & _ & Hv & _).
    rewrite Hidx, (word_at_lookup _ _ _ Hi) in Hv.
    rewrite Hrun2 in Hrun2'. injection Hrun2' as Hv' _. rewrite <- Hv' in Hv.
    injection Hv as ->.
    exists w1, (Z.of_nat i # Pos.of_nat (length (pool w1)))%Q, w2.
    split; [exact Hunit |]. split; [exact Hrun1 |]. split; [exact Hnone1 |].
    split; [exact Hrun2 |].
    rewrite Hw2. destruct (decide (candidates w1 = [])) as [_ | Hsome]; [| contradiction].
    cbn. set_solver.
Qed.

Lemma successive_words_differ_witness :
  let w := constructor false blank_page in
  exists s1 w1 s2 w2,
    getRandomWord 2 0 w = (Return (VString s1), w1) /\
    getRandomWord 2 0 w1 = (Return (VString s2), w2) /\
    s1 <> s2.
Proof.
  intros w.
  destruct (successive_words_differ w 2 0 0) as ((s1 & w1 & s2 & w2 & Hrun1 & Hrun2 & Hdiff) & _).
  - discriminate.
  - lia.
  - exact unit_draw_zero.
  - exact unit_draw_zero.
  - exists s1, w1, s2, w2. split; [exact Hrun1 |]. split; [exact Hrun2 |].
    apply Hdiff.
    assert (Hw1 : w1 = snd (getRandomWord 2 0 w)) by (rewrite Hrun1; reflexivity).
    rewrite Hw1. discriminate.
Defined.

(** ** What runs keep *)

Section RunFacts.
Context {C : Type} `{CanvasLike C}.
Implicit Types (w : World C) (r : Q).

Lemma pool_values_elem (s : string) :
  s ∈ allWords initWordList -> VString s ∈ pool_values.
Proof.
  intros Hs. unfold pool_values. apply elem_of_list_to_set, list_elem_of_fmap.
  exists s. split; [reflexivity | exact Hs].
Qed.

Lemma pool_values_size : size pool_values = 30%nat.
Proof. vm_compute. reflexivity. Qed.

Lemma nextWord_bookkeeping stack r w :
  (2 <= stack)%nat -> unit_draw r -> bookkeeping w ->
  fst (nextWord stack r w) = Return tt /\ bookkeeping (snd (nextWord stack r w)).
Proof.
  intros Hstack Hr (Hwl & Hused & _).
  assert (Hpool : pool w = allWords initWordList) by (unfold pool; now rewrite Hwl).
  assert (Hne : pool w <> []) by (rewrite Hpool; discriminate).
  destruct (getRandomWord_result stack r w Hne Hstack Hr) as (s & w1 & Hrun & Hs & _ & Hw1).
  rewrite (nextWord_after_word stack r w s w1 Hrun). split; [reflexivity |].
  rewrite Hpool in Hs. apply pool_values_elem in Hs.
  unfold bookkeeping. cbn -[pool_values]. rewrite Hw1.
  destruct (decide (candidates w = [])); cbn -[pool_values];
    (split; [exact Hwl |]; split;
     [apply union_subseteq; split;
        [apply empty_subseteq || exact Hused | apply singleton_subseteq_l, Hs]
     | right; apply elem_of_union_r, elem_of_singleton; reflexivity]).
Qed.

Lemma submitAnswer_returns r w :
  unit_draw r ->
  fst (submitAnswer r w) = Return tt /\
  wordList (this (snd (submitAnswer r w))) = wordList (this w) /\
  usedWords (this (snd (submitAnswer r w))) = usedWords (this w) /\
  currentWord (this (snd (submitAnswer r w))) = currentWord (this w).
Proof.
  intros Hr. destruct (truthy (currentWord (this w))) eqn:Hcw.
  - destruct (canvas_isEmpty (canvasObj w)) eqn:Hempty.
    + rewrite (submitAnswer_empty_canvas r w Hcw Hempty). repeat split.
    + destruct (scores_at_draw r Hr) as (evaluation & Hev & _).
      rewrite (submitAnswer_scored r w evaluation Hcw Hempty Hev). repeat split.
  - rewrite (submitAnswer_no_round r w Hcw). repeat split.
Qed.

Lemma skipWord_returns w : fst (skipWord w) = Return tt.
Proof.
  destruct (truthy (currentWord (this w))) eqn:Hcw.
  - rewrite (skipWord_shown w Hcw). reflexivity.
  - rewrite (skipWord_no_round w Hcw). reflexivity.
Qed.

Lemma run_op_bookkeeping (op : Op) w :
  well_run op -> bookkeeping w ->
  fst (run_op op w) = Return tt /\ bookkeeping (snd (run_op op w)).
Proof.
  intros Hop Hw. destruct op as [stack r | r | | f]; cbn [run_op].
  - destruct Hop as [Hstack Hr]. now apply nextWord_bookkeeping.
  - destruct (submitAnswer_returns r w Hop) as (Hret & Hwl & Hu & Hcw).
    split; [exact Hret |]. unfold bookkeeping. rewrite Hwl, Hu, Hcw. exact Hw.
  - split; [apply skipWord_returns |]. unfold bookkeeping. rewrite skipWord_keeps. exact Hw.
  - split; [reflexivity | exact Hw].
Qed.

Lemma run_ops_bookkeeping (ops : list Op) w :
  Forall well_run ops -> bookkeeping w ->
  fst (run_ops ops w) = Return tt /\ bookkeeping (snd (run_ops ops w)).
Proof.
  intros Hops. revert w. induction Hops as [| op ops Hop Hops IH]; intros w Hw;
    [split; [reflexivity | exact Hw] |].
  destruct (run_op_bookkeeping op w Hop Hw) as [Hret Hstep].
  cbn [run_ops]. unfold mbind, M_bind.
  destruct (run_op op w) as [[[] | e] w1]; [| discriminate Hret].
  now apply IH.
Qed.

End RunFacts.

(** X8. Every run of calls from a new manager, each with a draw in [0, 1)
    and room for two frames, returns normally, whatever the order of
    [nextWord], [submitAnswer], [skipWord] and changes of the canvas. After
    it the pool is the one of the code, [usedWords] holds words of the pool
    only, hence at most 30, and [currentWord] is [null] or a word of the
    pool that is in [usedWords]. *)
Theorem run_keeps_bookkeeping {C} `{CanvasLike C} (canvas : C) (doc : Document)
    (ops : list Op) :
  Forall well_run ops ->
  let w := snd (run_ops ops (constructor canvas doc)) in
  fst (run_ops ops (constructor canvas doc)) = Return tt /\
  wordList (this w) = initWordList /\
  usedWords (this w) ⊆ pool_values /\
  (size (usedWords (this w)) <= 30)%nat /\
  (currentWord (this w) = VNull \/
   exists s, currentWord (this w) = VString s /\ s ∈ allWords initWordList /\
             VString s ∈ usedWords (this w)).
Proof.
  intros Hops w.
  destruct (run_ops_bookkeeping ops (constructor canvas doc) Hops) as (Hret & Hwl & Hused & Hcw).
  { split; [reflexivity |]. split; [apply empty_subseteq | left; reflexivity]. }
  fold w in Hwl, Hused, Hcw.
  split; [exact Hret |]. split; [exact Hwl |]. split; [exact Hused |]. split.
  - rewrite <- pool_values_size. apply subseteq_size, Hused.
  - destruct Hcw as [Hnull | Hin]; [left; exact Hnull | right].
    pose proof (Hused _ Hin) as Hpool.
    unfold pool_values in Hpool.
    apply elem_of_list_to_set, list_elem_of_fmap in Hpool as (s & Hs & Hmem).
    exists s. split; [exact Hs |]. split; [exact Hmem |]. rewrite <- Hs. exact Hin.
Qed.

Lemma run_keeps_bookkeeping_witness :
  let ops := [OpNextWord 2 0; OpSubmitAnswer (1 # 2); OpCanvas (fun _ => false);
              OpSubmitAnswer (1 # 2); OpSkipWord; OpNextWord 2 0] in
  let w := snd (run_ops ops (constructor true blank_page)) in
  fst (run_ops ops (constructor true blank_page)) = Return tt /\
  (size (usedWords (this w)) <= 30)%nat.
Proof.
  intros ops w.
  destruct (run_keeps_bookkeeping true blank_page ops) as (Hret & _ & _ & Hsize & _).
  - repeat constructor; try lia; discriminate.
  - split; [exact Hret | exact Hsize].
Defined.

Section PageFacts.
Context {C : Type} `{CanvasLike C}.
Implicit Types (w : World C) (r : Q).



Lemma nextWord_after_value stack r w v w1 :
  getRandomWord stack r w = (Return v, w1) ->
  nextWord stack r w =
    (Return tt,
     {| this := with_currentWord v (this w1);
        canvasObj := canvas_clear (canvasObj w1);
        document :=
          {| wordDisplay_textContent := if truthy v then template v else "点击开始游戏";
             wordDisplay_className := if truthy v then "word active" else "word";
             scoreDisplay_textContent := scoreDisplay_textContent (document w1);
             resultArea_classList := resultArea_classList (document w1) ∪ {["hidden"]};
             resultTitle_textContent := resultTitle_textContent (document w1);
             resultMessage_innerHTML := resultMessage_innerHTML (document w1) |};
        events := events w1 ++ [Call_updateWordDisplay; Call_hideResult;
                                ConsoleLog "📝 新词汇:" v] |}).
Proof.
  intros Hword. unfold nextWord, mbind, M_bind. rewrite Hword.
  run_method. rewrite <- !app_assoc. reflexivity.
Qed.

Lemma nextWord_throws stack r w e w1 :
  getRandomWord stack r w = (Throw e, w1) -> nextWord stack r w = (Throw e, w1).
Proof. intros Hword. unfold nextWord, mbind, M_bind. now rewrite Hword. Qed.







End PageFacts.



(** ** Points *)

Section PointsFacts.
Context {C : Type} `{CanvasLike C}.
Implicit Types (w : World C) (r : Q).

Lemma scores_points_values (i : Z) (evaluation : Evaluation) :
  js_index scores i = Some evaluation ->
  points evaluation ∈ [10; 7; 5; 2].
Proof.
  unfold js_index. destruct (i <? 0); [discriminate |].
  intros Hev. apply list_elem_of_lookup_2 in Hev. unfold scores in Hev.
  repeat (apply elem_of_cons in Hev as [-> | Hev]); cbn; [set_solver .. |].
  inversion Hev.
Qed.

Lemma submitAnswer_gain r w :
  safe_integers 1 w ->
  let gain := score (this (snd (submitAnswer r w))) - score (this w) in
  gain ∈ [0; 10; 7; 5; 2] /\
  (unit_draw r ->
   (gain = 0 <-> truthy (currentWord (this w)) = false \/ canvas_isEmpty (canvasObj w) = true)).
Proof.
  intros Hsafe.
  destruct (truthy (currentWord (this w))) eqn:Hcw.
  - destruct (canvas_isEmpty (canvasObj w)) eqn:Hempty.
    + rewrite (submitAnswer_empty_canvas r w Hcw Hempty). cbn.
      rewrite Z.sub_diag. split; [set_solver | intros _; split; auto].
    + destruct (js_index scores (random_index r (length scores))) as [evaluation |] eqn:Hev.
      * rewrite (submitAnswer_scored r w evaluation Hcw Hempty Hev). cbn -[js_add].
        rewrite (submitAnswer_adds r w evaluation Hev Hsafe).
        replace (score (this w) + points evaluation - score (this w)) with (points evaluation) by lia.
        pose proof (scores_points_values _ _ Hev) as Hpts.
        split; [set_solver |]. intros _. split.
        -- intros Hzero. rewrite Hzero in Hpts. set_solver.
        -- intros [Hf | Hf]; discriminate Hf.
      * rewrite (submitAnswer_undefined r w Hcw Hempty Hev). cbn.
        rewrite Z.sub_diag. split; [set_solver |]. intros Hr.
        destruct (scores_at_draw r Hr) as (evaluation & Hev' & _). congruence.
  - rewrite (submitAnswer_no_round r w Hcw). cbn.
    rewrite Z.sub_diag. split; [set_solver | intros _; split; auto].
Qed.

(** Beyond the safe range the code rounds: from [2^53] the 7 points of
    the draw 1/4 come out as 8, and the display shows that score. *)
Example submitAnswer_beyond_safe_range :
  let w := playing (VString "猫") (2 ^ 53) false in
  score (this (snd (submitAnswer (1 # 4) w))) = 2 ^ 53 + 8 /\
  scoreDisplay_textContent (document (snd (submitAnswer (1 # 4) w))) = "9007199254741000".
Proof. split; vm_compute; reflexivity. Qed.

End PointsFacts.

(** X10. On a score that is a safe integer ([-2^53] to [2^53 - 10]) one
    [submitAnswer] changes the score by 0, 2, 5, 7 or 10, and for a draw in
    [0, 1) by 0 exactly when a guard stops it (no word, or an empty
    canvas): a submission that is evaluated always gains points, also when
    the evaluation says no success. Hence after a run of calls from a new
    manager, with no more submissions than keep ten points each below
    [2^53], the score is between 0 and ten times the number of submissions
    in the run. *)
Theorem score_gain_per_submission {C} `{CanvasLike C} :
  (forall (w : World C) r,
     safe_integers 1 w ->
     let gain := score (this (snd (submitAnswer r w))) - score (this w) in
     gain ∈ [0; 10; 7; 5; 2] /\
     (unit_draw r ->
      (gain = 0 <->
       truthy (currentWord (this w)) = false \/ canvas_isEmpty (canvasObj w) = true))) /\
  (forall (canvas : C) doc (ops : list Op),
     safe_integers (submissions ops) (constructor canvas doc) ->
     let w := snd (run_ops ops (constructor canvas doc)) in
     0 <= score (this w) <= 10 * Z.of_nat (submissions ops)).
Proof.
  split; [intros w r; apply submitAnswer_gain |].
  intros canvas doc ops Hsafe w.
  pose proof (run_ops_frame ops (constructor canvas doc) Hsafe) as [_ Hbound].
  fold w in Hbound. cbn in Hbound. exact Hbound.
Qed.

Lemma score_gain_per_submission_witness :
  let w := playing (VString "猫") 0 false in
  unit_draw (7 # 8) /\ safe_integers 1 w /\
  score (this (snd (submitAnswer (7 # 8) w))) - score (this w) ∈ [0; 10; 7; 5; 2] /\
  score (this (snd (submitAnswer (7 # 8) w))) - score (this w) <> 0.
Proof.
  intros w.
  assert (Hr : unit_draw (7 # 8)) by (split; [discriminate | reflexivity]).
  assert (Hsafe : safe_integers 1 w) by (split; vm_compute; discriminate).
  split; [exact Hr |]. split; [exact Hsafe |].
  destruct (@score_gain_per_submission bool _) as (Hgain & _).
  destruct (Hgain w (7 # 8) Hsafe) as (Hin & Hzero).
  split; [exact Hin |]. intros Hnone.
  destruct (proj1 (Hzero Hr) Hnone) as [Hf | Hf]; discriminate Hf.
Defined.

(** ** How a draw picks *)

Lemma Qfloor_slice (q : Q) (i : Z) :
  Qfloor q = i <-> (inject_Z i <= q)%Q /\ (q < inject_Z (i + 1))%Q.
Proof.
  split.
  - intros <-. split; [apply Qfloor_le | apply Qlt_floor].
  - intros [Hlo Hhi].
    pose proof (Qfloor_resp_le _ _ Hlo) as Hge. rewrite Qfloor_Z in Hge.
    assert (Hlt : Qfloor q < i + 1).
    { rewrite Zlt_Qlt. apply Qle_lt_trans with q; [apply Qfloor_le | exact Hhi]. }
    lia.
Qed.

Lemma quarter_slice (r : Q) (i : Z) :
  (inject_Z i <= r * inject_Z 4)%Q /\ (r * inject_Z 4 < inject_Z (i + 1))%Q <->
  (i # 4 <= r)%Q /\ (r < (i + 1) # 4)%Q.
Proof.
  destruct r as [p q]. unfold Qle, Qlt, Qmult, inject_Z. cbn.
  rewrite Pos.mul_1_r. lia.
Qed.

(** X11. The draw decides the tier of [evaluateDrawing] by quarters: for
    a draw [r] in [0, 1) the points are 10 exactly when [r < 1/4], 7 when
    [1/4 <= r < 1/2], 5 when [1/2 <= r < 3/4] and 2 when [3/4 <= r], and
    the evaluation is a success exactly when [r < 3/4]. *)
Theorem evaluateDrawing_by_quarters {C} (w : World C) (r : Q) :
  unit_draw r ->
  exists evaluation,
    fst (evaluateDrawing r w) = Return (Some evaluation) /\
    (points evaluation = 10 <-> (r < 1 # 4)%Q) /\
    (points evaluation = 7 <-> (1 # 4 <= r)%Q /\ (r < 2 # 4)%Q) /\
    (points evaluation = 5 <-> (2 # 4 <= r)%Q /\ (r < 3 # 4)%Q) /\
    (points evaluation = 2 <-> (3 # 4 <= r)%Q) /\
    (success evaluation = true <-> (r < 3 # 4)%Q).
Proof.
  intros Hr. pose proof Hr as [Hlo Hhi].
  assert (Hslice : forall i, random_index r (length scores) = i <->
                             (i # 4 <= r)%Q /\ (r < (i + 1) # 4)%Q).
  { intros i. unfold random_index. rewrite Qfloor_slice. apply quarter_slice. }
  assert (Hlo' : (0 # 4 <= r)%Q) by (unfold Qle in *; cbn in *; lia).
  assert (Hhi' : (r < 4 # 4)%Q) by (unfold Qlt in *; cbn in *; lia).
  unfold evaluateDrawing.
  destruct (random_index_scores r Hr) as [Hi | [Hi | [Hi | Hi]]];
    cbv zeta in Hi; rewrite Hi; apply Hslice in Hi; cbn in Hi; destruct Hi as [Ha Hb];
    (eexists; split; [reflexivity |]); cbn;
    unfold Qle, Qlt in *; cbn in *;
    repeat split; intros; try discriminate; try lia.
Qed.

Lemma evaluateDrawing_by_quarters_witness :
  exists evaluation,
    fst (evaluateDrawing (C := bool) (3 # 8) (constructor false blank_page))
      = Return (Some evaluation) /\
    points evaluation = 7.
Proof.
  destruct (evaluateDrawing_by_quarters (constructor false blank_page) (3 # 8))
    as (evaluation & Hrun & _ & Hseven & _).
  - split; [discriminate | reflexivity].
  - exists evaluation. split; [exact Hrun |]. apply Hseven.
    split; [discriminate | reflexivity].
Defined.

(** ** The manager on a real canvas *)

(** X13. With a drawing canvas of either variant as the manager's canvas,
    on a platform whose [fillRect] fills: after a [nextWord] that returns
    (pool without the empty string, two frames, draws in [0, 1)), a
    [submitAnswer] with nothing drawn in between alerts that the canvas is
    empty and leaves score, page and canvas as [nextWord] left them,
    whatever was drawn before [nextWord]. *)
Theorem submit_right_after_nextWord_is_refused (R : Rasterizer)
    (w : World DrawingCanvas) (stack : nat) (r r' : Q) :
  pool w <> [] -> EmptyString ∉ pool w -> (2 <= stack)%nat -> unit_draw r ->
  fills_whole_canvas (canvas (canvasObj w)) ->
  (exists w1,
     @nextWord _ chalkboard_canvas stack r w = (Return tt, w1) /\
     @submitAnswer _ chalkboard_canvas r' w1
       = (Return tt, with_events [Alert msg_emptyCanvas] w1)) /\
  (exists w1,
     @nextWord _ whiteboard_canvas stack r w = (Return tt, w1) /\
     @submitAnswer _ whiteboard_canvas r' w1
       = (Return tt, with_events [Alert msg_emptyCanvas] w1)).
Proof.
  intros Hpool Hwords Hstack Hr Hfill.
  destruct (getRandomWord_result (C := DrawingCanvas) stack r w Hpool Hstack Hr)
    as (s & w1 & Hrun & Hs & _ & Hw1).
  assert (Hne : s <> EmptyString) by (intros ->; contradiction).
  assert (Htruthy : truthy (VString s) = true).
  { apply truthy_spec. exists s. split; [reflexivity | exact Hne]. }
  assert (Hcanvas : canvasObj w1 = canvasObj w).
  { rewrite Hw1. destruct (decide (candidates w = [])); reflexivity. }
  destruct (chalkboard_clear_data (canvasObj w) Hfill) as (n & Hn).
  destruct (whiteboard_clear_data (canvasObj w) Hfill) as (m & Hm).
  split.
  - eexists. split; [apply (@nextWord_after_word _ chalkboard_canvas stack r w s w1 Hrun) |].
    apply (@submitAnswer_empty_canvas _ chalkboard_canvas); [exact Htruthy |].
    cbn. rewrite Hcanvas. apply (chalkboard_isEmpty_solid _ _ _ Hn). right.
    unfold pixel_within, within. cbn. lia.
  - eexists. split; [apply (@nextWord_after_word _ whiteboard_canvas stack r w s w1 Hrun) |].
    apply (@submitAnswer_empty_canvas _ whiteboard_canvas); [exact Htruthy |].
    cbn. rewrite Hcanvas. apply (whiteboard_isEmpty_solid _ _ _ Hm). now right.
Qed.

Lemma submit_right_after_nextWord_is_refused_witness :
  let drawn := surface 2 1 half_size_box false [255; 255; 255; 255; 45; 52; 54; 255] in
  let w := constructor drawn blank_page in
  @canvas_isEmpty _ (@chalkboard_canvas sample_rasterizer) drawn = false /\
  exists w1,
    @nextWord _ (@chalkboard_canvas sample_rasterizer) 2 0 w = (Return tt, w1) /\
    events (snd (@submitAnswer _ (@chalkboard_canvas sample_rasterizer) 0 w1))
      = events w1 ++ [Alert msg_emptyCanvas].
Proof.
  intros drawn w. split; [reflexivity |].
  destruct (submit_right_after_nextWord_is_refused sample_rasterizer w 2 0 0)
    as ((w1 & Hnext & Hsubmit) & _).
  - discriminate.
  - intros Hin. apply initWordList_words_nonempty in Hin. now apply Hin.
  - lia.
  - exact unit_draw_zero.
  - apply sample_rasterizer_fills.
  - exists w1. split; [exact Hnext |]. rewrite Hsubmit. reflexivity.
Defined.

(** * The page *)

Import DrawAndGuessGame.

Section PageEvents.
Context `{Rasterizer} `{Resizer} `{NumberParser}.
Implicit Types (g : Game) (w : World DrawingCanvas).

Lemma chalkboard_handle_keeps_colour ev (c : DrawingCanvas) :
  currentColor (snd (Chalkboard.handle ev c)) = currentColor c.
Proof.
  destruct ev as [e | e | | | ts | ts |]; cbn [Chalkboard.handle];
    try reflexivity.
  - unfold Chalkboard.draw. destruct (isDrawing c); reflexivity.
  - unfold Chalkboard.startDrawing. destruct (ts !! 0%nat); reflexivity.
  - unfold Chalkboard.draw. destruct (isDrawing c), (ts !! 0%nat); reflexivity.
Qed.

Lemma nextWord_canvas stack r w :
  canvasObj (snd (nextWord stack r w)) = canvasObj w \/
  canvasObj (snd (nextWord stack r w)) = Chalkboard.clear (canvasObj w).
Proof.
  pose proof (getRandomWord_frame stack r w) as (_ & _ & _ & Hc).
  destruct (getRandomWord stack r w) as [[v | e] w1] eqn:Hrun; cbn [snd] in Hc.
  - right. rewrite (nextWord_after_value stack r w v w1 Hrun). cbn. now rewrite Hc.
  - left. rewrite (nextWord_throws stack r w e w1 Hrun). exact Hc.
Qed.

Lemma submitAnswer_canvas r w : canvasObj (snd (submitAnswer r w)) = canvasObj w.
Proof.
  destruct (truthy (currentWord (this w))) eqn:Hcw.
  - destruct (canvas_isEmpty (canvasObj w)) eqn:Hempty.
    + rewrite (submitAnswer_empty_canvas r w Hcw Hempty). reflexivity.
    + destruct (js_index scores (random_index r (length scores))) as [evaluation |] eqn:Hev.
      * rewrite (submitAnswer_scored r w evaluation Hcw Hempty Hev). reflexivity.
      * rewrite (submitAnswer_undefined r w Hcw Hempty Hev). reflexivity.
  - rewrite (submitAnswer_no_round r w Hcw). reflexivity.
Qed.

Lemma skipWord_canvas w : canvasObj (snd (skipWord w)) = canvasObj w.
Proof.
  destruct (truthy (currentWord (this w))) eqn:Hcw.
  - rewrite (skipWord_shown w Hcw). reflexivity.
  - rewrite (skipWord_no_round w Hcw). reflexivity.
Qed.

Lemma on_manager_page (m : M DrawingCanvas unit) g :
  page (snd (on_manager m g)) = page g /\ world (snd (on_manager m g)) = snd (m (world g)) /\
  fst (on_manager m g) = fst (m (world g)).
Proof. unfold on_manager. destruct (m (world g)) as [o w]. repeat split. Qed.

(** [startGame()] is [nextWord()] as far as the manager and the canvas
    go: it adds a line on the console when that returns. *)
Lemma startGame_world stack r g :
  this (world (snd (startGame stack r g))) = this (snd (nextWord stack r (world g))) /\
  canvasObj (world (snd (startGame stack r g))) = canvasObj (snd (nextWord stack r (world g))) /\
  fst (startGame stack r g) = fst (nextWord stack r (world g)) /\
  colorButtons (page (snd (startGame stack r g))) = colorButtons (page g).
Proof.
  unfold startGame, on_manager. cbn.
  destruct (nextWord stack r (world g)) as [[[] | e] w]; repeat split.
Qed.

(** Events other than a click on a swatch leave the swatches and the pen
    colour alone. *)
Lemma handle_keeps_colour ev g :
  is_color_click ev = false ->
  colorButtons (page (snd (handle ev g))) = colorButtons (page g) /\
  currentColor (canvasObj (world (snd (handle ev g)))) = currentColor (canvasObj (world g)).
Proof.
  intros Hev. destruct ev as [stack r | i | v | | r | | stack r | ev]; try discriminate Hev;
    cbn [handle].
  - destruct (startGame_world stack r g) as (_ & Hc & _ & Hb). rewrite Hc. split; [exact Hb |].
    destruct (nextWord_canvas stack r (world g)) as [-> | ->]; reflexivity.
  - split; reflexivity.
  - split; reflexivity.
  - destruct (on_manager_page (submitAnswer r) g) as (Hp & Hw & _).
    rewrite Hp, Hw, submitAnswer_canvas. split; reflexivity.
  - destruct (on_manager_page skipWord g) as (Hp & Hw & _).
    rewrite Hp, Hw, skipWord_canvas. split; reflexivity.
  - destruct (on_manager_page (nextWord stack r) g) as (Hp & Hw & _).
    rewrite Hp, Hw. split; [reflexivity |].
    destruct (nextWord_canvas stack r (world g)) as [-> | ->]; reflexivity.
  - pose proof (chalkboard_handle_keeps_colour ev (canvasObj (world g))) as Hc.
    destruct (Chalkboard.handle ev (canvasObj (world g))) as [o c]. split; [reflexivity | exact Hc].
Qed.

Lemma play_keeps_colour evs g :
  Forall (fun ev => is_color_click ev = false) evs ->
  colorButtons (page (play evs g)) = colorButtons (page g) /\
  currentColor (canvasObj (world (play evs g))) = currentColor (canvasObj (world g)).
Proof.
  intros Hevs. revert g. induction Hevs as [| ev evs Hev Hevs IH]; intros g; [split; reflexivity |].
  destruct (handle_keeps_colour ev g Hev) as [Hb Hc].
  change (play (ev :: evs) g) with (play evs (snd (handle ev g))).
  destruct (IH (snd (handle ev g))) as [Hb' Hc']. split; congruence.
Qed.

End PageEvents.

(** X14. After a click on a swatch, and for as long as no other swatch is
    clicked (whatever else happens: strokes, clearing, the slider, the
    buttons of the game, also listeners that throw), the pen colour of the
    canvas is the [data-color] of that swatch, and that swatch is the one
    and only with the class [active]; the swatches keep their number, their
    colours and their other classes. *)
Theorem active_swatch_is_pen_colour (R : Rasterizer) (P : NumberParser)
    (g : Game) (i : nat) (b : ColorButton) (evs : list UIEvent) :
  colorButtons (page g) !! i = Some b ->
  Forall (fun ev => is_color_click ev = false) evs ->
  let g' := play (click_colorBtn i :: evs) g in
  currentColor (canvasObj (world g')) = dataset_color b /\
  length (colorButtons (page g')) = length (colorButtons (page g)) /\
  (forall j b', colorButtons (page g') !! j = Some b' ->
     ("active" ∈ classList b' <-> j = i) /\
     exists b0, colorButtons (page g) !! j = Some b0 /\
                dataset_color b' = dataset_color b0 /\
                classList b' ∖ {["active"]} = classList b0 ∖ {["active"]}).
Proof.
  intros Hb Hevs g'.
  destruct (play_keeps_colour evs (choose_color i g) Hevs) as [Hbuttons Hcolour].
  change (play evs (choose_color i g)) with g' in Hbuttons, Hcolour.
  rewrite Hbuttons, Hcolour. unfold choose_color. rewrite Hb. cbn.
  split; [reflexivity |]. split; [now rewrite length_alter, length_fmap |].
  intros j b' Hj.
  destruct (decide (j = i)) as [-> | Hne].
  - rewrite list_lookup_alter_eq, list_lookup_fmap, Hb in Hj. cbn in Hj.
    injection Hj as <-. cbn. split; [split; [reflexivity | set_solver] |].
    exists b. split; [exact Hb |]. split; [reflexivity | set_solver].
  - rewrite list_lookup_alter_ne, list_lookup_fmap in Hj by congruence.
    destruct (colorButtons (page g) !! j) as [b0 |] eqn:Hb0; [| discriminate Hj].
    cbn in Hj. injection Hj as <-. cbn. split; [split; [set_solver | congruence] |].
    exists b0. split; [reflexivity |]. split; [reflexivity | set_solver].
Qed.

Lemma active_swatch_is_pen_colour_witness :
  let g := @setup sample_rasterizer sample_resizer
             (canvas (surface 300 150 half_size_box false [])) blank_page sample_page in
  let evs := [on_canvas (mousedown {| clientX := 5; clientY := 5 |});
              on_canvas (touchstart []); click_clearBtn; click_nextBtn 2 0] in
  currentColor (canvasObj (world
    (@play sample_rasterizer sample_parser (click_colorBtn 1 :: evs) g))) = "#ff0000".
Proof.
  intros g evs.
  destruct (active_swatch_is_pen_colour sample_rasterizer sample_parser g 1
              {| dataset_color := "#ff0000"; classList := {["color-btn"]} |} evs)
    as (Hcolour & _).
  - reflexivity.
  - repeat constructor.
  - exact Hcolour.
Defined.

Section StartFacts.
Context `{Rasterizer} `{Resizer} `{NumberParser}.
Implicit Types (g : Game).

Lemma fills_whole_canvas_geometry (c c' : CanvasElement) :
  width c' = width c -> height c' = height c ->
  fills_whole_canvas c -> fills_whole_canvas c'.
Proof. intros Hw Hh Hfill k rgb Hrgb. rewrite Hw, Hh. now apply Hfill. Qed.

Lemma setup_bookkeeping el doc p : bookkeeping (world (setup el doc p)).
Proof. split; [reflexivity |]. split; [apply empty_subseteq | left; reflexivity]. Qed.

(** A real event is handled without a throw and keeps the bookkeeping of
    the words. *)
Lemma handle_real_event ev g :
  real_event ev -> bookkeeping (world g) ->
  fst (handle ev g) = Return tt /\ bookkeeping (world (snd (handle ev g))).
Proof.
  intros Hev Hg. destruct ev as [stack r | i | v | | r | | stack r | ev]; cbn [handle].
  - destruct Hev as [Hstack Hr].
    destruct (startGame_world stack r g) as (Hthis & _ & Hret & _). rewrite Hret.
    destruct (nextWord_bookkeeping stack r (world g)) as [Hok Hkept]; [assumption .. |].
    split; [exact Hok |]. unfold bookkeeping. rewrite Hthis. exact Hkept.
  - split; [reflexivity |]. unfold choose_color.
    destruct (colorButtons (page g) !! i); exact Hg.
  - split; [reflexivity | exact Hg].
  - split; [reflexivity | exact Hg].
  - destruct (on_manager_page (submitAnswer r) g) as (_ & Hw & Hret). rewrite Hw, Hret.
    destruct (submitAnswer_returns r (world g) Hev) as (Hok & Hwl & Hu & Hcw).
    split; [exact Hok |]. unfold bookkeeping. rewrite Hwl, Hu, Hcw. exact Hg.
  - destruct (on_manager_page skipWord g) as (_ & Hw & Hret). rewrite Hw, Hret.
    split; [apply skipWord_returns |]. unfold bookkeeping. rewrite skipWord_keeps. exact Hg.
  - destruct Hev as [Hstack Hr].
    destruct (on_manager_page (nextWord stack r) g) as (_ & Hw & Hret). rewrite Hw, Hret.
    now apply nextWord_bookkeeping.
  - assert (Hret : fst (Chalkboard.handle ev (canvasObj (world g))) = Return tt).
    { destruct ev as [e | e | | | ts | ts |]; cbn [Chalkboard.handle]; try reflexivity.
      - unfold Chalkboard.draw. destruct (isDrawing _); reflexivity.
      - destruct ts as [| e ts]; [now cbn in Hev |]. reflexivity.
      - destruct ts as [| e ts]; [now cbn in Hev |].
        unfold Chalkboard.draw. destruct (isDrawing _); reflexivity. }
    destruct (Chalkboard.handle ev (canvasObj (world g))) as [o c].
    split; [exact Hret | exact Hg].
Qed.

Lemma play_real_events evs g :
  Forall real_event evs -> bookkeeping (world g) ->
  played_normally evs g /\ bookkeeping (world (play evs g)).
Proof.
  intros Hevs. revert g. induction Hevs as [| ev evs Hev Hevs IH]; intros g Hg;
    [split; [exact I | exact Hg] |].
  destruct (handle_real_event ev g Hev Hg) as [Hret Hstep].
  destruct (IH _ Hstep) as [Hn Hb].
  change (play (ev :: evs) g) with (play evs (snd (handle ev g))).
  split; [split; assumption | exact Hb].
Qed.

End StartFacts.

(** X15. From the game that [setup()] builds, every run of real events, in
    any order (clicks on the buttons and swatches, the slider, mouse and
    touch events on the canvas with a touch in each press and move, draws
    in [0, 1)), is handled without a listener throwing. After it
    [usedWords] holds words of the pool only, and [currentWord] is [null] or
    a word of the pool that is in [usedWords]. *)
Theorem real_events_never_throw (R : Rasterizer) (S : Resizer) (P : NumberParser)
    (canvasElement : CanvasElement) (doc : Document) (p : Page) (evs : list UIEvent) :
  Forall real_event evs ->
  let g0 := setup canvasElement doc p in
  played_normally evs g0 /\
  usedWords (this (world (play evs g0))) ⊆ pool_values /\
  (currentWord (this (world (play evs g0))) = VNull \/
   exists s, currentWord (this (world (play evs g0))) = VString s /\
             s ∈ allWords initWordList /\
             VString s ∈ usedWords (this (world (play evs g0)))).
Proof.
  intros Hevs g0.
  destruct (play_real_events evs g0 Hevs (setup_bookkeeping canvasElement doc p))
    as (Hn & _ & Hused & Hcw).
  split; [exact Hn |]. split; [exact Hused |].
  destruct Hcw as [Hnull | Hin]; [left; exact Hnull | right].
  pose proof (Hused _ Hin) as Hpool. unfold pool_values in Hpool.
  apply elem_of_list_to_set, list_elem_of_fmap in Hpool as (s & Hs & Hmem).
  exists s. split; [exact Hs |]. split; [exact Hmem |]. rewrite <- Hs. exact Hin.
Qed.

Lemma real_events_never_throw_witness :
  let evs := [click_submitBtn 0; click_startBtn 2 (1 # 3);
              on_canvas (touchstart [{| clientX := 4; clientY := 4 |}]);
              on_canvas (touchmove [{| clientX := 6; clientY := 8 |}]);
              on_canvas touchend; click_submitBtn (1 # 2); click_nextBtn 2 0] in
  @played_normally sample_rasterizer sample_parser evs
    (@setup sample_rasterizer sample_resizer
       (canvas (surface 300 150 half_size_box false [])) blank_page sample_page).
Proof.
  intros evs.
  destruct (real_events_never_throw sample_rasterizer sample_resizer sample_parser
              (canvas (surface 300 150 half_size_box false [])) blank_page sample_page evs)
    as (Hn & _).
  - repeat constructor; try lia; try discriminate.
  - exact Hn.
Defined.

(** X16. On a platform whose [fillRect] fills, a click on the start button
    in the game that [setup()] builds (two frames, a draw in [0, 1))
    returns normally: the start section gets the class [hidden], canvas
    wrapper and toolbar are displayed as [block], a word of the pool is the
    current word and is shown, the canvas is empty, and the score is 0.
    Since [setup()] began, the console got three lines, in this order: that
    the game is set up, the new word (after the manager refreshed the word
    display and hid the result), and that the game started. *)
Theorem start_button_starts_first_round (R : Rasterizer) (S : Resizer) (P : NumberParser)
    (canvasElement : CanvasElement) (doc : Document) (p : Page) (stack : nat) (r : Q) :
  fills_whole_canvas (canvas_set_height 600 (canvas_set_width 800 canvasElement)) ->
  (2 <= stack)%nat -> unit_draw r ->
  exists g1 s,
    handle (click_startBtn stack r) (setup canvasElement doc p) = (Return tt, g1) /\
    "hidden" ∈ startGameSection_classList (page g1) /\
    canvasWrapper_display (page g1) = "block" /\ toolbar_display (page g1) = "block" /\
    events (world g1) = [ConsoleLine "🎮 游戏初始化完成！"; Call_updateWordDisplay;
                         Call_hideResult; ConsoleLog "📝 新词汇:" (VString s);
                         ConsoleLine "🎮 游戏开始！"] /\
    s ∈ allWords initWordList /\
    currentWord (this (world g1)) = VString s /\
    wordDisplay_textContent (document (world g1)) = s /\
    Chalkboard.isEmpty (canvasObj (world g1)) = true /\
    isDrawing (canvasObj (world g1)) = false /\
    score (this (world g1)) = 0.
Proof.
  intros Hfill Hstack Hr.
  set (g0 := setup canvasElement doc p).
  assert (Hpool : pool (world g0) <> []) by discriminate.
  destruct (getRandomWord_result (C := DrawingCanvas) stack r (world g0) Hpool Hstack Hr)
    as (s & w1 & Hrun & Hs & _ & Hw1).
  pose proof (nextWord_after_word stack r (world g0) s w1 Hrun) as Hnext.
  assert (Hne : s <> EmptyString) by (apply initWordList_words_nonempty, Hs).
  assert (Htruthy : truthy (VString s) = true).
  { apply truthy_spec. exists s. split; [reflexivity | exact Hne]. }
  assert (Hw1c : canvasObj w1 = canvasObj (world g0) /\ score (this w1) = 0 /\
                 events w1 = [ConsoleLine "🎮 游戏初始化完成！"]).
  { rewrite Hw1. destruct (decide (candidates (world g0) = [])); repeat split. }
  destruct Hw1c as (Hcanvas & Hscore & Hevents).
  eexists. exists s. split.
  { cbn [handle]. unfold startGame, on_manager. cbn [world set_page page].
    fold g0. rewrite Hnext. reflexivity. }
  cbn. split; [set_solver |]. do 2 (split; [reflexivity |]).
  split; [rewrite Hevents; reflexivity |]. split; [exact Hs |]. split; [reflexivity |].
  split; [cbn in Htruthy; now rewrite Htruthy |].
  rewrite Hcanvas. split; [| split; [reflexivity | exact Hscore]].
  destruct (chalkboard_clear_data (canvasObj (world g0))) as (n & Hn).
  { eapply fills_whole_canvas_geometry; [| | exact Hfill]; reflexivity. }
  apply (chalkboard_isEmpty_solid _ _ _ Hn). right.
  unfold pixel_within, within. cbn. lia.
Qed.

Lemma start_button_starts_first_round_witness :
  exists g1,
    @handle sample_rasterizer sample_parser (click_startBtn 2 0)
      (@setup sample_rasterizer sample_resizer
         (canvas (surface 300 150 half_size_box false [])) blank_page sample_page)
    = (Return tt, g1) /\
    currentWord (this (world g1)) = VString "太阳".
Proof.
  destruct (start_button_starts_first_round sample_rasterizer sample_resizer sample_parser
              (canvas (surface 300 150 half_size_box false [])) blank_page sample_page 2 0)
    as (g1 & s & Hrun & _).
  - apply sample_rasterizer_fills.
  - lia.
  - exact unit_draw_zero.
  - exists g1. split; [exact Hrun |].
    assert (Hg1 : g1 = snd (@handle sample_rasterizer sample_parser (click_startBtn 2 0)
      (@setup sample_rasterizer sample_resizer
         (canvas (surface 300 150 half_size_box false [])) blank_page sample_page)))
      by (rewrite Hrun; reflexivity).
    rewrite Hg1. reflexivity.
Defined.
